(** * gait_ocp: the wiring of a multi-phase gait optimal-control program

    A shallow embedding of [gait/ocp.py] and [main.py].  The repository is glue
    code over bioptim, biorbd, CasADi and numpy: the embedding keeps the calls
    the repository makes to these libraries as data (one record per [add] call,
    one record for the [OptimalControlProgram] constructor) and gives an
    executable meaning to everything the repository computes itself: index
    lists, bound lists, array slices and the shooting numbers. *)

From Stdlib Require Import ZArith List Bool Lia Ascii String Sorted Permutation.
From Stdlib Require Import Floats.SpecFloat Floats.PrimFloat Floats.FloatOps.
From Stdlib Require Import Reals Lra.
From stdpp Require Import gmap strings list.

Local Open Scope string_scope.
Local Open Scope list_scope.
Local Open Scope nat_scope.

(** ** Python exceptions and fallible computations *)

Inductive exception :=
| IndexError
| KeyError
| ZeroDivisionError
| OverflowError
| ValueError
| FileNotFoundError
| RuntimeError.

Inductive result (A : Type) :=
| Ok (a : A)
| Raise (e : exception).

Arguments Ok {A} a.
Arguments Raise {A} e.

#[global] Instance result_ret : MRet result := fun A a => Ok a.
#[global] Instance result_bind : MBind result :=
  fun A B f m => match m with Ok a => f a | Raise e => Raise e end.
#[global] Instance result_fmap : FMap result :=
  fun A B f m => match m with Ok a => Ok (f a) | Raise e => Raise e end.

Definition returns {A} (r : result A) : Prop := exists a, r = Ok a.
Definition raises {A} (r : result A) : Prop := exists e, r = Raise e.

(** [l[i]] on a Python list or tuple, for a non-negative [i]. *)
Definition getitem {A} (l : list A) (i : nat) : result A :=
  match l !! i with
  | Some a => Ok a
  | None => Raise IndexError
  end.

(** [d[k]] on a Python dict. *)
Definition dict_getitem {A} (d : gmap string A) (k : string) : result A :=
  match d !! k with
  | Some a => Ok a
  | None => Raise KeyError
  end.

(** [range(n)] and [enumerate(l)]. *)
Definition range (n : nat) : list nat := seq 0 n.
Definition enumerate {A} (l : list A) : list (nat * A) :=
  combine (seq 0 (length l)) l.

(** A [for] loop over a list whose body may raise: the state is threaded
    through the iterations and the first exception ends the loop. *)
Fixpoint for_each {A S} (l : list A) (body : A -> S -> result S) (s : S)
  : result S :=
  match l with
  | [] => Ok s
  | x :: rest => s' ← body x s; for_each rest body s'
  end.

(** ** Floats

    A Python [float] (and a [numpy.float64]) is an IEEE 754 binary64 value:
    [spec_float] at precision 53 and maximal exponent 1024. *)

Abbreviation float := spec_float.

Definition float_div : float -> float -> float := SFdiv prec emax.

Definition float_0_0 : float := S754_zero false.

(** The floats of the format, and the comparisons [x <= y] and [x < y]. *)
Definition binary64 (x : float) : Prop := valid_binary prec emax x = true.
Definition float_le (x y : float) : bool := SFleb x y.
Definition float_lt (x y : float) : bool := SFltb x y.

Definition is_zero (x : float) : bool :=
  match x with S754_zero _ => true | _ => false end.

Definition is_finite (x : float) : bool :=
  match x with S754_zero _ | S754_finite _ _ _ => true | _ => false end.

(** The two float flavours a phase time can have.  [x / y] on built-in floats
    raises when [y] is zero; numpy scalars follow IEEE 754 (a warning, and an
    infinity or a NaN as quotient). *)
Inductive float_kind := builtin_float | numpy_float64.

Definition truediv (k : float_kind) (x y : float) : result float :=
  match k with
  | builtin_float =>
      if is_zero y then Raise ZeroDivisionError else Ok (float_div x y)
  | numpy_float64 => Ok (float_div x y)
  end.

(** [int(x)]: the integer part of [x], rounding toward zero; NaN and the
    infinities have none. *)
Definition int_of_float (x : float) : result Z :=
  match x with
  | S754_nan => Raise ValueError
  | S754_infinity _ => Raise OverflowError
  | S754_zero _ => Ok 0%Z
  | S754_finite s m e => Ok (cond_Zopp s (Z.shiftl (Z.pos m) e))
  end.

(** ** Strings *)

(** [s[-1]]: the one-character string that ends [s].  A string is the
    sequence of its bytes: on a name that ends with an ASCII character
    [last_char] gives that character, as [s[-1]] does; the last character of
    a name that ends otherwise is not told apart from its last byte, and the
    statements on tags are about ASCII tags. *)
Fixpoint last_char (s : string) : result string :=
  match s with
  | EmptyString => Raise IndexError
  | String c rest =>
      match rest with
      | EmptyString => Ok (String c EmptyString)
      | String _ _ => last_char rest
      end
  end.

(** [sub in s]. *)
Fixpoint contains (sub s : string) : bool :=
  String.prefix sub s
  || match s with
     | EmptyString => false
     | String _ rest => contains sub rest
     end.

(** ** numpy arrays

    An array is its shape and its elements in row-major order. *)

Record ndarray := { shape : list nat; data : list float }.

Definition size_of (dims : list nat) : nat := fold_right Nat.mul 1 dims.

(** The [k]-th block of [b] consecutive elements. *)
Definition block (b : nat) (d : list float) (k : nat) : list float :=
  take b (drop (k * b) d).

(** [a[:, idx, :]] for a list [idx] of non-negative indices: the array needs
    three axes at least, and every index has to be on the second axis. *)
Definition take_axis1 (a : ndarray) (idx : list nat) : result ndarray :=
  match shape a with
  | n0 :: n1 :: n2 :: rest =>
      if forallb (fun j => j <? n1) idx then
        let b := size_of (n2 :: rest) in
        Ok {| shape := n0 :: length idx :: n2 :: rest;
              data := flat_map
                        (fun i => flat_map (fun j => block b (data a) (i * n1 + j)) idx)
                        (seq 0 n0) |}
      else Raise IndexError
  | _ => Raise IndexError
  end.

(** [a[:, :-1]]: the array needs two axes at least; the last entry of the
    second axis is dropped (an empty axis stays empty). *)
Definition drop_last_axis1 (a : ndarray) : result ndarray :=
  match shape a with
  | n0 :: n1 :: rest =>
      let b := size_of rest in
      Ok {| shape := n0 :: (n1 - 1) :: rest;
            data := flat_map
                      (fun i => take ((n1 - 1) * b) (drop (i * n1 * b) (data a)))
                      (seq 0 n0) |}
  | _ => Raise IndexError
  end.

(** ** biorbd models *)

(** What the repository reads of a [biorbd.Model]; [model_file] is the bioMod
    file it was loaded from.  [contactNames] holds the names already converted
    by [to_string]. *)
Record Model := {
  model_file : string;
  nbQ : nat;
  nbQdot : nat;
  nbGeneralizedTorque : nat;
  nbMuscleTotal : nat;
  nbMarkers : nat;
  contactNames : list string;
}.

(** ** Penalty nodes and the contact-force objective

    CasADi's symbolic [MX] values are embedded as the values they stand for:
    column vectors over a scalar type [A] with a zero and an addition.  The
    [mx] and [cx] of a bioptim variable are two symbols for the same column. *)

Section PenaltyNode.
Context {A : Type}.
Variable mx_zero : A.
Variable mx_add : A -> A -> A.

Definition MX := list A.

Record OptimizationVariable := { var_mx : MX }.
Record Parameters := { par_mx : MX }.

Record NonLinearProgram := {
  model : Model;
  states : gmap string OptimizationVariable;
  controls : gmap string OptimizationVariable;
  parameters : Parameters;
  contact_forces_func : MX -> MX -> MX -> MX;
}.

Record PenaltyNode := { nlp : NonLinearProgram }.

(** [vertcat] of columns, [sum1] of a column (a 1 x 1 value: the sum of its
    entries, from the first one on), and the rows [m[idx, :]] of a column;
    CasADi refuses an index out of range. *)
Definition vertcat (cols : list MX) : MX := concat cols.
Definition mx_sum (m : MX) : A := fold_left mx_add m mx_zero.
Definition sum1 (m : MX) : MX := [mx_sum m].
Definition mx_rows (m : MX) (idx : list nat) : result MX :=
  mapM (fun i => match m !! i with
                 | Some x => Ok x
                 | None => Raise RuntimeError
                 end) idx.

(** [BiorbdInterface.mx_to_cx(name, function, *variables)]: the expression
    [function], stated on the [mx] of the variables, read on their [cx]. *)
Definition mx_to_cx (name : string) (function : MX)
    (variables : list OptimizationVariable) : MX := function.

Definition get_contact_index (pn : PenaltyNode) (tag : string)
  : result (list nat) :=
  let force_names := contactNames (model (nlp pn)) in
  flags ← mapM (fun s => c ← last_char s; Ok (String.eqb c tag)) force_names;
  Ok (map fst (List.filter snd (enumerate flags))).

Definition track_sum_contact_forces (pn : PenaltyNode) : result MX :=
  q ← dict_getitem (states (nlp pn)) "q";
  qdot ← dict_getitem (states (nlp pn)) "qdot";
  let states' := vertcat [var_mx q; var_mx qdot] in
  tau ← dict_getitem (controls (nlp pn)) "tau";
  muscles ← dict_getitem (controls (nlp pn)) "muscles";
  let controls' := vertcat [var_mx tau; var_mx muscles] in
  let force_tp :=
    contact_forces_func (nlp pn) states' controls'
      (par_mx (parameters (nlp pn))) in
  ix ← get_contact_index pn "X";
  fx ← mx_rows force_tp ix;
  iy ← get_contact_index pn "Y";
  fy ← mx_rows force_tp iy;
  iz ← get_contact_index pn "Z";
  fz ← mx_rows force_tp iz;
  let force := vertcat [sum1 fx; sum1 fy; sum1 fz] in
  q_var ← dict_getitem (states (nlp pn)) "q";
  qdot_var ← dict_getitem (states (nlp pn)) "qdot";
  tau_var ← dict_getitem (controls (nlp pn)) "tau";
  muscles_var ← dict_getitem (controls (nlp pn)) "muscles";
  Ok (mx_to_cx "grf" force [q_var; qdot_var; tau_var; muscles_var]).
End PenaltyNode.

Arguments OptimizationVariable A : clear implicits.
Arguments Parameters A : clear implicits.
Arguments NonLinearProgram A : clear implicits.
Arguments PenaltyNode A : clear implicits.

(** ** bioptim: enumerations

    The members the repository names, among those bioptim declares. *)

Module Node.
Inductive t := START | MID | INTERMEDIATES | PENULTIMATE | END | ALL.
End Node.

Module Axis.
Inductive t := X | Y | Z.
End Axis.

Module InterpolationType.
Inductive t := CONSTANT | LINEAR | EACH_FRAME | SPLINE | CUSTOM.
End InterpolationType.

Module OdeSolver.
Inductive t := RK4 | RK8 | IRK | COLLOCATION | CVODES.
End OdeSolver.

Module DynamicsFcn.
Inductive t := TORQUE_DRIVEN | TORQUE_ACTIVATIONS_DRIVEN | MUSCLE_DRIVEN | CUSTOM.
End DynamicsFcn.

Module ConstraintFcn.
Inductive t :=
  | TRACK_STATE
  | TRACK_MARKERS
  | TRACK_MARKERS_VELOCITY
  | TRACK_CONTACT_FORCES
  | NON_SLIPPING
  | TIME_CONSTRAINT.
End ConstraintFcn.

Module PhaseTransitionFcn.
Inductive t := CONTINUOUS | IMPACT | CYCLIC | CUSTOM.
End PhaseTransitionFcn.

Module ObjectiveFcn.
(** The two families of objectives, [ObjectiveFcn.Lagrange] and
    [ObjectiveFcn.Mayer], as the [custom_type] of a custom objective. *)
Inductive family := Lagrange_family | Mayer_family.
Module Lagrange.
Inductive t :=
  | MINIMIZE_STATE
  | TRACK_STATE
  | MINIMIZE_MARKERS
  | TRACK_MARKERS
  | MINIMIZE_CONTROL
  | TRACK_CONTROL
  | MINIMIZE_CONTACT_FORCES
  | TRACK_CONTACT_FORCES.
End Lagrange.
End ObjectiveFcn.

(** A Python number: the repository passes both [int] and [float] literals. *)
Inductive number := Int (z : Z) | Float (x : float).

(** The float literals of [ocp.py] and [main.py], and [np.inf]. *)
#[local] Set Warnings "-inexact-float".
Definition float_0_001 : float := Eval vm_compute in Prim2SF 0.001%float.
Definition float_0_01 : float := Eval vm_compute in Prim2SF 0.01%float.
Definition float_0_1 : float := Eval vm_compute in Prim2SF 0.1%float.
Definition float_0_5 : float := Eval vm_compute in Prim2SF 0.5%float.
Definition float_1_0 : float := Eval vm_compute in Prim2SF 1.0%float.
Definition np_inf : float := S754_infinity false.

(** The functions of the repository that are handed to bioptim as values. *)
Inductive custom_function := fn_track_sum_contact_forces.

(** ** bioptim: one record per [add] call

    A keyword the call does not pass is [None]; bioptim then takes its own
    default.  Tuples and lists of indices are both lists. *)

Module Objective.
Inductive penalty :=
  | Lagrange (f : ObjectiveFcn.Lagrange.t)
  | Custom (f : custom_function).

Record t := {
  objective : penalty;
  custom_type : option ObjectiveFcn.family;
  node : option Node.t;
  weight : number;
  key : option string;
  index : option (list nat);
  marker_index : option (list nat);
  target : option ndarray;
  derivative : option bool;
  quadratic : option bool;
  phase : nat;
}.
End Objective.

Module Dynamics.
Record t := {
  dynamics_type : DynamicsFcn.t;
  phase : nat;
  with_contact : option bool;
  with_torque : option bool;
  expand : option bool;
}.
End Dynamics.

Module Constraint.
(** [marker_index] is given as one index or as a list of indices. *)
Inductive indices := One (i : nat) | Many (l : list nat).

Record t := {
  constraint : ConstraintFcn.t;
  node : option Node.t;
  marker_index : option indices;
  axes : option Axis.t;
  min_bound : option number;
  max_bound : option number;
  contact_index : option (list nat);
  tangential_component_idx : option (list nat);
  normal_component_idx : option (list nat);
  static_friction_coefficient : option number;
  phase : nat;
}.

(** The bounds bioptim enforces on the value of a constraint: it takes a
    [min_bound] or a [max_bound] the call does not pass as 0
    ([Constraint.set_penalty]), so that a constraint added without bounds
    asks for a value of zero. *)
Definition enforced_min (c : t) : number :=
  match min_bound c with
  | Some b => b
  | None => Int 0
  end.

Definition enforced_max (c : t) : number :=
  match max_bound c with
  | Some b => b
  | None => Int 0
  end.
End Constraint.

Module PhaseTransition.
Record t := {
  transition : PhaseTransitionFcn.t;
  phase_pre_idx : nat;
}.
End PhaseTransition.

(** [BoundsList.add] and [InitialGuessList.add] are called without a phase:
    the n-th call describes phase n. *)
Inductive Bounds :=
| QAndQDotBounds (biorbd_model : Model)
| MinMax (min max : list number).

Module InitialGuess.
Record t := {
  initial_guess : ndarray;
  interpolation : InterpolationType.t;
}.
End InitialGuess.

(** A solution as bioptim saves it: the states and controls of each phase,
    by name. *)
Module Solution.
Record t := {
  states : list (gmap string ndarray);
  controls : list (gmap string ndarray);
}.
End Solution.

(** The arguments of the [OptimalControlProgram] constructor. *)
Module OptimalControlProgram.
Record t := {
  biorbd_model : list Model;
  dynamics : list Dynamics.t;
  n_shooting : list Z;
  phase_time : list float;
  x_init : list InitialGuess.t;
  u_init : list InitialGuess.t;
  x_bounds : list Bounds;
  u_bounds : list Bounds;
  objective_functions : list Objective.t;
  constraints : list Constraint.t;
  phase_transitions : list PhaseTransition.t;
  n_threads : Z;
  ode_solver : OdeSolver.t;
}.

(** The files [save] wrote: a program and a solution under a path. *)
Abbreviation files := (gmap string (t * Solution.t)).

Definition load (fs : files) (path : string) : result (t * Solution.t) :=
  match fs !! path with
  | Some saved => Ok saved
  | None => Raise FileNotFoundError
  end.

Definition save (fs : files) (ocp : t) (sol : Solution.t) (path : string)
  : files := <[path := (ocp, sol)]> fs.
End OptimalControlProgram.

(** ** [prepare_ocp]

    Each block of the function is a definition named after the local variable
    it fills; [prepare_ocp] runs them in the order of the source. *)

Definition markers_pelvis : list nat := [0; 1; 2; 3].
Definition markers_anat : list nat := [4; 9; 10; 11; 12; 17; 18].
Definition markers_tissus : list nat := [5; 6; 7; 8; 13; 14; 15; 16].
Definition markers_foot : list nat := [19; 20; 21; 22; 23; 24; 25].
Definition markers_index : list (list nat) :=
  [markers_pelvis; markers_anat; markers_foot; markers_tissus].
Definition weight : list number := [Int 10000; Int 1000; Int 10000; Int 100].

Definition track_markers (w : number) (m_idx : list nat) (target : ndarray)
    (p : nat) : Objective.t :=
  {| Objective.objective := Objective.Lagrange ObjectiveFcn.Lagrange.TRACK_MARKERS;
     Objective.custom_type := None;
     Objective.node := Some Node.ALL;
     Objective.weight := w;
     Objective.key := None;
     Objective.index := None;
     Objective.marker_index := Some m_idx;
     Objective.target := Some target;
     Objective.derivative := None;
     Objective.quadratic := Some true;
     Objective.phase := p |}.

Definition minimize_control (k : string) (w : number)
    (idx : option (list nat)) (deriv : option bool) (p : nat) : Objective.t :=
  {| Objective.objective := Objective.Lagrange ObjectiveFcn.Lagrange.MINIMIZE_CONTROL;
     Objective.custom_type := None;
     Objective.node := None;
     Objective.weight := w;
     Objective.key := Some k;
     Objective.index := idx;
     Objective.marker_index := None;
     Objective.target := None;
     Objective.derivative := deriv;
     Objective.quadratic := Some true;
     Objective.phase := p |}.

Definition track_contact_forces_objective (target : ndarray) (p : nat)
  : Objective.t :=
  {| Objective.objective := Objective.Custom fn_track_sum_contact_forces;
     Objective.custom_type := Some ObjectiveFcn.Lagrange_family;
     Objective.node := Some Node.ALL;
     Objective.weight := Float float_0_01;
     Objective.key := None;
     Objective.index := None;
     Objective.marker_index := None;
     Objective.target := Some target;
     Objective.derivative := None;
     Objective.quadratic := Some true;
     Objective.phase := p |}.

(** Lines 111-148: the objective functions. *)
Definition objective_functions (nb_phases : nat)
    (markers_ref grf_ref : list ndarray) : result (list Objective.t) :=
  let objective_functions : list Objective.t := [] in
  objective_functions ←
    for_each (range nb_phases)
      (fun p objective_functions =>
         objective_functions ←
           for_each (enumerate markers_index)
             (fun '(i, m_idx) objective_functions =>
                w ← getitem weight i;
                markers ← getitem markers_ref p;
                target ← take_axis1 markers m_idx;
                Ok (objective_functions ++ [track_markers w m_idx target p]))
             objective_functions;
         let objective_functions :=
           objective_functions
             ++ [minimize_control "tau" (Float float_0_001) (Some [10; 12]) None p] in
         let objective_functions :=
           objective_functions
             ++ [minimize_control "tau" (Int 1) (Some [6; 7; 8; 9; 11]) None p] in
         let objective_functions :=
           objective_functions
             ++ [minimize_control "muscles" (Int 10) None None p] in
         let objective_functions :=
           objective_functions
             ++ [minimize_control "tau" (Float float_0_1) None (Some true) p] in
         Ok objective_functions)
      objective_functions;
  for_each (range (nb_phases - 1))
    (fun p objective_functions =>
       target ← getitem grf_ref p;
       Ok (objective_functions ++ [track_contact_forces_objective target p]))
    objective_functions.

(** Lines 150-154: the dynamics. *)
Definition dynamics (nb_phases : nat) : list Dynamics.t :=
  let dynamics :=
    fold_left
      (fun dynamics p =>
         dynamics ++ [ {| Dynamics.dynamics_type := DynamicsFcn.MUSCLE_DRIVEN;
                          Dynamics.phase := p;
                          Dynamics.with_contact := Some true;
                          Dynamics.with_torque := Some true;
                          Dynamics.expand := Some false |} ])
      (range (nb_phases - 1)) [] in
  dynamics ++ [ {| Dynamics.dynamics_type := DynamicsFcn.MUSCLE_DRIVEN;
                   Dynamics.phase := 3;
                   Dynamics.with_contact := None;
                   Dynamics.with_torque := Some true;
                   Dynamics.expand := Some false |} ].

Definition track_markers_constraint (fcn : ConstraintFcn.t)
    (m : Constraint.indices) (ax : option Axis.t) (p : nat) : Constraint.t :=
  {| Constraint.constraint := fcn;
     Constraint.node := Some Node.START;
     Constraint.marker_index := Some m;
     Constraint.axes := ax;
     Constraint.min_bound := None;
     Constraint.max_bound := None;
     Constraint.contact_index := None;
     Constraint.tangential_component_idx := None;
     Constraint.normal_component_idx := None;
     Constraint.static_friction_coefficient := None;
     Constraint.phase := p |}.

Definition track_contact_forces_constraint (n : Node.t)
    (lo hi : option number) (idx : list nat) (p : nat) : Constraint.t :=
  {| Constraint.constraint := ConstraintFcn.TRACK_CONTACT_FORCES;
     Constraint.node := Some n;
     Constraint.marker_index := None;
     Constraint.axes := None;
     Constraint.min_bound := lo;
     Constraint.max_bound := hi;
     Constraint.contact_index := Some idx;
     Constraint.tangential_component_idx := None;
     Constraint.normal_component_idx := None;
     Constraint.static_friction_coefficient := None;
     Constraint.phase := p |}.

Definition non_slipping (tangential normal : list nat) (mu : number) (p : nat)
  : Constraint.t :=
  {| Constraint.constraint := ConstraintFcn.NON_SLIPPING;
     Constraint.node := Some Node.ALL;
     Constraint.marker_index := None;
     Constraint.axes := None;
     Constraint.min_bound := None;
     Constraint.max_bound := None;
     Constraint.contact_index := None;
     Constraint.tangential_component_idx := Some tangential;
     Constraint.normal_component_idx := Some normal;
     Constraint.static_friction_coefficient := Some mu;
     Constraint.phase := p |}.

(** Lines 156-208: the constraints. *)
Definition constraints (biorbd_model : list Model) : result (list Constraint.t) :=
  let min_bound := Int 0 in
  let max_bound := Float np_inf in
  let '(m_heel, m_m1, m_m5, m_toes) := (26, 27, 28, 29) in
  let constraints : list Constraint.t := [] in
  let constraints :=
    constraints ++ [track_markers_constraint ConstraintFcn.TRACK_MARKERS_VELOCITY
                      (Constraint.One m_heel) None 0] in
  let constraints :=
    constraints ++ [track_markers_constraint ConstraintFcn.TRACK_MARKERS
                      (Constraint.One m_heel) (Some Axis.Z) 0] in
  let '(Fz_heel, Fz_m1, Fx_m5, Fy_m5, Fz_m5) := (0, 1, 2, 3, 4) in
  let constraints :=
    constraints ++ [track_markers_constraint ConstraintFcn.TRACK_MARKERS
                      (Constraint.Many [m_m1; m_m5]) (Some Axis.Z) 1] in
  let constraints :=
    constraints ++ [track_contact_forces_constraint Node.ALL
                      (Some min_bound) (Some max_bound) [Fz_heel; Fz_m1; Fz_m5] 1] in
  let constraints :=
    constraints ++ [non_slipping [Fx_m5; Fy_m5] [Fz_heel; Fz_m1; Fz_m5]
                      (Float float_0_5) 1] in
  flatfoot ← getitem biorbd_model 1;
  let heel :=
    map fst (List.filter (fun '(i, name) => contains "Heel_r" name)
               (enumerate (contactNames flatfoot))) in
  let constraints :=
    constraints ++ [track_contact_forces_constraint Node.PENULTIMATE
                      None None heel 1] in
  let '(Fz_m1, Fx_m5, Fy_m5, Fz_m5, Fz_toe) := (0, 1, 2, 3, 4) in
  let constraints :=
    constraints ++ [track_contact_forces_constraint Node.ALL
                      (Some min_bound) (Some max_bound) [Fz_m1; Fz_m5; Fz_toe] 2] in
  let constraints :=
    constraints ++ [non_slipping [Fx_m5; Fy_m5] [Fz_m1; Fz_m5; Fz_toe]
                      (Float float_0_5) 2] in
  Ok constraints.

(** Lines 210-213: the phase transitions. *)
Definition phase_transitions : list PhaseTransition.t :=
  let phase_transitions : list PhaseTransition.t := [] in
  let phase_transitions :=
    phase_transitions ++ [ {| PhaseTransition.transition := PhaseTransitionFcn.IMPACT;
                              PhaseTransition.phase_pre_idx := 0 |} ] in
  let phase_transitions :=
    phase_transitions ++ [ {| PhaseTransition.transition := PhaseTransitionFcn.IMPACT;
                              PhaseTransition.phase_pre_idx := 1 |} ] in
  phase_transitions.

(** Lines 215-223: the bounds of the states and of the controls.
    [[x] * n] is [replicate n x]. *)
Definition bounds (biorbd_model : list Model) (nb_tau nb_mus : nat)
  : result (list Bounds * list Bounds) :=
  let '(torque_min, torque_max) := (Int (-1000), Int 1000) in
  let '(activation_min, activation_max) := (Float float_0_001, Float float_1_0) in
  for_each (range (length biorbd_model))
    (fun p '(x_bounds, u_bounds) =>
       m ← getitem biorbd_model p;
       let x_bounds := x_bounds ++ [QAndQDotBounds m] in
       let u_bounds :=
         u_bounds
           ++ [MinMax
                 (replicate nb_tau torque_min ++ replicate nb_mus activation_min)
                 (replicate nb_tau torque_max ++ replicate nb_mus activation_max)] in
       Ok (x_bounds, u_bounds))
    ([], []).

(** Lines 225-241: the initial guesses, read from the solution saved in
    [gait.bo]. *)
Definition initial_guesses (fs : OptimalControlProgram.files) (nb_phases : nat)
  : result (list InitialGuess.t * list InitialGuess.t) :=
  '(ocp_previous, sol_previous) ← OptimalControlProgram.load fs "gait.bo";
  for_each (range nb_phases)
    (fun p '(x_init, u_init) =>
       states_p ← getitem (Solution.states sol_previous) p;
       x ← dict_getitem states_p "all";
       let x_init :=
         x_init ++ [ {| InitialGuess.initial_guess := x;
                        InitialGuess.interpolation := InterpolationType.EACH_FRAME |} ] in
       controls_p ← getitem (Solution.controls sol_previous) p;
       u_all ← dict_getitem controls_p "all";
       u ← drop_last_axis1 u_all;
       let u_init :=
         u_init ++ [ {| InitialGuess.initial_guess := u;
                        InitialGuess.interpolation := InterpolationType.EACH_FRAME |} ] in
       Ok (x_init, u_init))
    ([], []).

Definition prepare_ocp
    (fs : OptimalControlProgram.files)
    (biorbd_model : list Model)
    (final_time : list float)
    (nb_shooting : list Z)
    (markers_ref grf_ref q_ref qdot_ref activation_ref : list ndarray)
    (nb_threads : Z)
    (ode_solver : OdeSolver.t)
  : result OptimalControlProgram.t :=
  let nb_phases := length biorbd_model in
  first ← getitem biorbd_model 0;
  let nb_q := nbQ first in
  let nb_qdot := nbQdot first in
  let nb_tau := nbGeneralizedTorque first in
  let nb_mus := nbMuscleTotal first in
  objective_functions ← objective_functions nb_phases markers_ref grf_ref;
  let dynamics := dynamics nb_phases in
  constraints ← constraints biorbd_model;
  let phase_transitions := phase_transitions in
  '(x_bounds, u_bounds) ← bounds biorbd_model nb_tau nb_mus;
  '(x_init, u_init) ← initial_guesses fs nb_phases;
  Ok {| OptimalControlProgram.biorbd_model := biorbd_model;
        OptimalControlProgram.dynamics := dynamics;
        OptimalControlProgram.n_shooting := nb_shooting;
        OptimalControlProgram.phase_time := final_time;
        OptimalControlProgram.x_init := x_init;
        OptimalControlProgram.u_init := u_init;
        OptimalControlProgram.x_bounds := x_bounds;
        OptimalControlProgram.u_bounds := u_bounds;
        OptimalControlProgram.objective_functions := objective_functions;
        OptimalControlProgram.constraints := constraints;
        OptimalControlProgram.phase_transitions := phase_transitions;
        OptimalControlProgram.n_threads := nb_threads;
        OptimalControlProgram.ode_solver := ode_solver |}.

(** ** Experimental data

    [gait/load_experimental_data.py] is not among the sources at hand: a
    [LoadData] object is taken as given, with the attributes the repository
    reads and its [dispatch_data] method. *)

Record C3dData := {
  get_time : list float;
  trajectories : ndarray;
  forces : ndarray;
  moments : ndarray;
  cop : ndarray;
  emg : ndarray;
}.

Record LoadData := {
  c3d_data : C3dData;
  q : ndarray;
  qdot : ndarray;
  dispatch_data : ndarray -> list Z -> list float -> result (list ndarray);
}.

Definition get_phase_time_shooting_numbers
    (k : float_kind) (data : LoadData) (dt : float)
  : result (list float * list Z) :=
  let phase_time := get_time (c3d_data data) in
  let number_shooting_points : list Z := [] in
  number_shooting_points ←
    for_each phase_time
      (fun time number_shooting_points =>
         quotient ← truediv k time dt;
         n ← int_of_float quotient;
         Ok (number_shooting_points ++ [n]))
      number_shooting_points;
  Ok (phase_time, number_shooting_points).

Definition get_experimental_data (data : LoadData)
    (number_shooting_points : list Z) (phase_time : list float)
  : result (list ndarray * list ndarray * list ndarray * list ndarray
            * list ndarray * list ndarray * list ndarray) :=
  let dispatch a := dispatch_data data a number_shooting_points phase_time in
  q_ref ← dispatch (q data);
  qdot_ref ← dispatch (qdot data);
  markers_ref ← dispatch (trajectories (c3d_data data));
  grf_ref ← dispatch (forces (c3d_data data));
  moments_ref ← dispatch (moments (c3d_data data));
  cop_ref ← dispatch (cop (c3d_data data));
  emg_ref ← dispatch (emg (c3d_data data));
  Ok (q_ref, qdot_ref, markers_ref, grf_ref, moments_ref, cop_ref, emg_ref).

(** ** [main] *)

(** [s.split("/")] and ["/".join(l)]. *)
Fixpoint split (sep : ascii) (s : string) : list string :=
  match s with
  | EmptyString => [EmptyString]
  | String c rest =>
      if Ascii.eqb c sep then EmptyString :: split sep rest
      else match split sep rest with
           | [] => [String c EmptyString]
           | w :: ws => String c w :: ws
           end
  end.

Fixpoint join (sep : string) (l : list string) : string :=
  match l with
  | [] => EmptyString
  | w :: ws =>
      match ws with
      | [] => w
      | _ :: _ => String.append w (String.append sep (join sep ws))
      end
  end.

Definition root_path (file : string) : string :=
  String.append (join "/" (removelast (split "/" file))) "/".

(** The options of the solver that [main] sets. *)
Module Solver.
Record t := {
  linear_solver : string;
  convergence_tolerance : float;
  hessian_approximation : string;
  maximum_iterations : Z;
  show_online_optim : bool;
}.
End Solver.

Section Main.
(** The library entry points [main] calls: the loader of a bioMod file, the
    constructor of [LoadData], the options of [Solver.IPOPT()] and
    [ocp.solve], the external solver.  [kind] is the flavour of the
    phase times of the data. *)
Variable biorbd_Model : string -> result Model.
Variable new_LoadData : Model -> string -> string -> string -> result LoadData.
Variable IPOPT : Solver.t.
Variable solve : OptimalControlProgram.t -> Solver.t -> result Solution.t.
Variable kind : float_kind.

Definition configured_solver : Solver.t :=
  let solver := IPOPT in
  let solver :=
    {| Solver.linear_solver := "mumps";
       Solver.convergence_tolerance := Solver.convergence_tolerance solver;
       Solver.hessian_approximation := Solver.hessian_approximation solver;
       Solver.maximum_iterations := Solver.maximum_iterations solver;
       Solver.show_online_optim := Solver.show_online_optim solver |} in
  let solver :=
    {| Solver.linear_solver := Solver.linear_solver solver;
       Solver.convergence_tolerance := float_0_001;
       Solver.hessian_approximation := Solver.hessian_approximation solver;
       Solver.maximum_iterations := Solver.maximum_iterations solver;
       Solver.show_online_optim := Solver.show_online_optim solver |} in
  let solver :=
    {| Solver.linear_solver := Solver.linear_solver solver;
       Solver.convergence_tolerance := Solver.convergence_tolerance solver;
       Solver.hessian_approximation := "exact";
       Solver.maximum_iterations := Solver.maximum_iterations solver;
       Solver.show_online_optim := Solver.show_online_optim solver |} in
  let solver :=
    {| Solver.linear_solver := Solver.linear_solver solver;
       Solver.convergence_tolerance := Solver.convergence_tolerance solver;
       Solver.hessian_approximation := Solver.hessian_approximation solver;
       Solver.maximum_iterations := 3000;
       Solver.show_online_optim := Solver.show_online_optim solver |} in
  {| Solver.linear_solver := Solver.linear_solver solver;
     Solver.convergence_tolerance := Solver.convergence_tolerance solver;
     Solver.hessian_approximation := Solver.hessian_approximation solver;
     Solver.maximum_iterations := Solver.maximum_iterations solver;
     Solver.show_online_optim := false |}.

(** The script: the program that is solved, its solution and the files after
    [ocp.save].  The timer and the two display calls ([sol.animate],
    [sol.graphs]) leave no trace here. *)
Definition main (file : string) (fs : OptimalControlProgram.files)
  : result (OptimalControlProgram.t * Solution.t * OptimalControlProgram.files) :=
  let root_path := root_path file in
  heel ← biorbd_Model (String.append root_path "models/Gait_1leg_12dof_heel.bioMod");
  flatfoot ← biorbd_Model (String.append root_path "models/Gait_1leg_12dof_flatfoot.bioMod");
  forefoot ← biorbd_Model (String.append root_path "models/Gait_1leg_12dof_forefoot.bioMod");
  swing ← biorbd_Model (String.append root_path "models/Gait_1leg_12dof_0contact.bioMod");
  let biorbd_model := [heel; flatfoot; forefoot; swing] in
  first ← getitem biorbd_model 0;
  let nb_q := nbQ first in
  let nb_qdot := nbQdot first in
  let nb_tau := nbGeneralizedTorque first in
  let nb_phases := length biorbd_model in
  let nb_markers := nbMarkers first in
  let c3d_file := String.append root_path "data/normal01_out.c3d" in
  let q_kalman_filter_file :=
    String.append root_path "data/normal01_q_KalmanFilter.txt" in
  let qdot_kalman_filter_file :=
    String.append root_path "data/normal01_qdot_KalmanFilter.txt" in
  data ← new_LoadData first c3d_file q_kalman_filter_file qdot_kalman_filter_file;
  '(phase_time, number_shooting_points) ←
    get_phase_time_shooting_numbers kind data float_0_01;
  '(q_ref, qdot_ref, markers_ref, grf_ref, moments_ref, cop_ref, emg_ref) ←
    get_experimental_data data number_shooting_points phase_time;
  ocp ← prepare_ocp fs biorbd_model phase_time number_shooting_points
          markers_ref grf_ref q_ref qdot_ref emg_ref 8 OdeSolver.RK4;
  sol ← solve ocp configured_solver;
  let fs := OptimalControlProgram.save fs ocp sol "gait_test.bo" in
  Ok (ocp, sol, fs).
End Main.

(** ** Vocabulary of the statements *)

(** [c] is the last character of [s]. *)
Definition ends_with (s : string) (c : ascii) : Prop :=
  exists pre, s = String.append pre (String c EmptyString).

Definition ends_withb (s : string) (c : ascii) : bool :=
  match String.get (String.length s - 1) s with
  | Some c' => Ascii.eqb c' c
  | None => false
  end.

(** The value of a finite float is [(-1)^s * m * 2^e]: a fraction whose
    quotient, rounded toward zero, is its integer part. *)
Definition toward_zero (x : float) : Z :=
  match x with
  | S754_finite s m e =>
      Z.quot (cond_Zopp s (Z.pos m) * 2 ^ Z.max e 0) (2 ^ Z.max (- e) 0)
  | _ => 0
  end.

(** The real number a mantissa [m] stands for at the exponent [e]. *)
Definition F2R (m e : Z) : R := (IZR m * powerRZ 2 e)%R.

(** What the rounding of [x] keeps while it shifts a mantissa to the right:
    the mantissa is not above [x], and not above [x] by half a unit when
    the round bit is set. *)
Definition shr_below (mrs : shr_record) (e : Z) (x : R) : Prop :=
  (0 <= shr_m mrs)%Z
  /\ (F2R (shr_m mrs) e <= x)%R
  /\ (shr_r mrs = true -> (F2R (shr_m mrs) e + powerRZ 2 e / 2 <= x)%R).

(** The magnitude of [x] is below one. *)
Definition below_one (x : float) : Prop :=
  match x with
  | S754_zero _ => True
  | S754_finite _ m e => (Z.pos m < 2 ^ (- e))%Z
  | _ => False
  end.

(** The entries of [force] at the positions of the names that end with [c]. *)
Definition tagged {A} (c : ascii) (names : list string) (force : list A)
  : list A :=
  map snd (List.filter (fun nf => ends_withb (fst nf) c) (combine names force)).

(** The objectives of the library for phase [p], and the custom ones. *)
Definition is_custom (o : Objective.t) : bool :=
  match Objective.objective o with
  | Objective.Custom _ => true
  | Objective.Lagrange _ => false
  end.

Definition library_objectives (p : nat) (l : list Objective.t)
  : list Objective.t :=
  List.filter (fun o => negb (is_custom o) && (Objective.phase o =? p)) l.

Definition custom_objectives (l : list Objective.t) : list Objective.t :=
  List.filter is_custom l.

(** What the first loop of [prepare_ocp] adds for phase [p]. *)
Definition phase_objectives (markers_ref : list ndarray) (p : nat)
  : result (list Objective.t) :=
  markers ← getitem markers_ref p;
  pelvis ← take_axis1 markers markers_pelvis;
  anat ← take_axis1 markers markers_anat;
  foot ← take_axis1 markers markers_foot;
  tissus ← take_axis1 markers markers_tissus;
  Ok [track_markers (Int 10000) markers_pelvis pelvis p;
      track_markers (Int 1000) markers_anat anat p;
      track_markers (Int 10000) markers_foot foot p;
      track_markers (Int 100) markers_tissus tissus p;
      minimize_control "tau" (Float float_0_001) (Some [10; 12]) None p;
      minimize_control "tau" (Int 1) (Some [6; 7; 8; 9; 11]) None p;
      minimize_control "muscles" (Int 10) None None p;
      minimize_control "tau" (Float float_0_1) None (Some true) p].

(** The dynamics entries of phase [p]. *)
Definition dynamics_of_phase (p : nat) (l : list Dynamics.t) : list Dynamics.t :=
  List.filter (fun d => Dynamics.phase d =? p) l.

Definition muscle_driven (p : nat) (contact : option bool) : Dynamics.t :=
  {| Dynamics.dynamics_type := DynamicsFcn.MUSCLE_DRIVEN;
     Dynamics.phase := p;
     Dynamics.with_contact := contact;
     Dynamics.with_torque := Some true;
     Dynamics.expand := Some false |}.

(** [sub] occurs in [s]. *)
Definition occurs_in (sub s : string) : Prop :=
  exists pre post, s = String.append pre (String.append sub post).

Definition impact (p : nat) : PhaseTransition.t :=
  {| PhaseTransition.transition := PhaseTransitionFcn.IMPACT;
     PhaseTransition.phase_pre_idx := p |}.

Definition each_frame (a : ndarray) : InitialGuess.t :=
  {| InitialGuess.initial_guess := a;
     InitialGuess.interpolation := InterpolationType.EACH_FRAME |}.

(** The initial guesses of phase [p], read in a saved solution. *)
Definition phase_guess (sol_previous : Solution.t) (p : nat)
  : result (InitialGuess.t * InitialGuess.t) :=
  states_p ← getitem (Solution.states sol_previous) p;
  x ← dict_getitem states_p "all";
  controls_p ← getitem (Solution.controls sol_previous) p;
  u_all ← dict_getitem controls_p "all";
  u ← drop_last_axis1 u_all;
  Ok (each_frame x, each_frame u).

(** Well-formed input of [prepare_ocp]: four models; for each of the four
    phases an array of marker trajectories with three axes at least, the
    second of which holds the 26 tracked markers; a ground reaction force
    for each of the three stance phases; and, in [gait.bo], a solution with
    the states and the controls of the four phases under the name all, the
    controls with two axes at least. *)
Definition markers_array (a : ndarray) : Prop :=
  exists n0 n1 n2 rest, shape a = n0 :: n1 :: n2 :: rest /\ 26 <= n1.

Definition saved_phase (sol : Solution.t) (p : nat) : Prop :=
  (exists states_p x,
      Solution.states sol !! p = Some states_p /\ states_p !! "all" = Some x)
  /\ (exists controls_p u n0 n1 rest,
         Solution.controls sol !! p = Some controls_p
         /\ controls_p !! "all" = Some u
         /\ shape u = n0 :: n1 :: rest).

Definition well_formed (fs : OptimalControlProgram.files)
    (biorbd_model : list Model) (markers_ref grf_ref : list ndarray) : Prop :=
  length biorbd_model = 4
  /\ (forall p, p < 4 -> exists a, markers_ref !! p = Some a /\ markers_array a)
  /\ 3 <= length grf_ref
  /\ exists ocp_previous sol_previous,
       fs !! "gait.bo" = Some (ocp_previous, sol_previous)
       /\ forall p, p < 4 -> saved_phase sol_previous p.

(** ** A worked input

    A gait of four phases on small arrays, used to run the definitions. *)

Definition float_0_3 : float := Eval vm_compute in Prim2SF 0.3%float.
Definition float_0_005 : float := Eval vm_compute in Prim2SF 0.005%float.
Definition zeros (dims : list nat) : ndarray :=
  {| shape := dims; data := replicate (size_of dims) float_0_0 |}.

Definition example_model (file : string) (names : list string) : Model :=
  {| model_file := file;
     nbQ := 12;
     nbQdot := 12;
     nbGeneralizedTorque := 12;
     nbMuscleTotal := 17;
     nbMarkers := 30;
     contactNames := names |}.

Definition heel_names : list string := ["Heel_r_X"; "Heel_r_Y"; "Heel_r_Z"].
Definition flatfoot_names : list string :=
  ["Heel_r_Z"; "Meta_1_r_Z"; "Meta_5_r_X"; "Meta_5_r_Y"; "Meta_5_r_Z"].
Definition forefoot_names : list string :=
  ["Meta_1_r_Z"; "Meta_5_r_X"; "Meta_5_r_Y"; "Meta_5_r_Z"; "Toe_r_Z"].

Definition example_models : list Model :=
  [example_model "heel.bioMod" heel_names;
   example_model "flatfoot.bioMod" flatfoot_names;
   example_model "forefoot.bioMod" forefoot_names;
   example_model "0contact.bioMod" []].

Definition example_markers : list ndarray := replicate 4 (zeros [3; 26; 2]).
Definition example_grf : list ndarray := replicate 3 (zeros [3; 2]).

Definition example_solution : Solution.t :=
  {| Solution.states := replicate 4 {["all" := zeros [24; 2]]};
     Solution.controls := replicate 4 {["all" := zeros [29; 2]]} |}.

Definition empty_program : OptimalControlProgram.t :=
  {| OptimalControlProgram.biorbd_model := [];
     OptimalControlProgram.dynamics := [];
     OptimalControlProgram.n_shooting := [];
     OptimalControlProgram.phase_time := [];
     OptimalControlProgram.x_init := [];
     OptimalControlProgram.u_init := [];
     OptimalControlProgram.x_bounds := [];
     OptimalControlProgram.u_bounds := [];
     OptimalControlProgram.objective_functions := [];
     OptimalControlProgram.constraints := [];
     OptimalControlProgram.phase_transitions := [];
     OptimalControlProgram.n_threads := 1;
     OptimalControlProgram.ode_solver := OdeSolver.RK4 |}.

Definition example_files : OptimalControlProgram.files :=
  {["gait.bo" := (empty_program, example_solution)]}.

Definition example_times : list float :=
  [float_0_3; float_0_3; float_0_3; float_0_3].

Definition example_data (times : list float) : LoadData :=
  {| c3d_data := {| get_time := times;
                    trajectories := zeros [3; 26; 2];
                    forces := zeros [3; 2];
                    moments := zeros [3; 2];
                    cop := zeros [3; 2];
                    emg := zeros [17; 2] |};
     q := zeros [12; 2];
     qdot := zeros [12; 2];
     dispatch_data := fun a _ phase_time => Ok (map (fun _ => a) phase_time) |}.

(** A penalty node of the flatfoot phase over integers: the contact forces
    are 1, 2, 3, 4, 5, shifted by the first state. *)
Definition example_node : PenaltyNode Z :=
  {| nlp :=
       {| model := example_model "flatfoot.bioMod" flatfoot_names;
          states := {["q" := {| var_mx := [0; 0]%Z |};
                      "qdot" := {| var_mx := [0; 0]%Z |}]};
          controls := {["tau" := {| var_mx := [0; 0]%Z |};
                        "muscles" := {| var_mx := [1]%Z |}]};
          parameters := {| par_mx := [] |};
          contact_forces_func :=
            fun x _ _ => map (Z.add (hd 0%Z x)) [1; 2; 3; 4; 5]%Z |} |}.

Definition example_shooting : list Z := [30; 30; 30; 30]%Z.

(** The program [prepare_ocp] returns on the worked input. *)
Definition example_program : OptimalControlProgram.t :=
  match prepare_ocp example_files example_models example_times example_shooting
          example_markers example_grf [] [] [] 8 OdeSolver.RK4 with
  | Ok ocp => ocp
  | Raise _ => empty_program
  end.

(** An array with the entries 0, 1, 2, ... in row-major order (each entry
    stands as a mantissa at the exponent 0, to tell the entries apart). *)
Definition arange (dims : list nat) : ndarray :=
  {| shape := dims;
     data := map (fun n => match n with
                           | 0 => float_0_0
                           | S _ => S754_finite false (Pos.of_nat n) 0
                           end) (seq 0 (size_of dims)) |}.

Definition example_solver : Solver.t :=
  {| Solver.linear_solver := "ma57";
     Solver.convergence_tolerance := float_0_1;
     Solver.hessian_approximation := "limited-memory";
     Solver.maximum_iterations := 1000;
     Solver.show_online_optim := true |}.

(** ** Vocabulary of further statements *)

(** The inputs on which [prepare_ocp] returns: two models at least; for
    every phase a marker array with the 26 tracked markers on its second
    axis; a ground reaction force for every phase but the last; in
    [gait.bo], a solution with the states and the controls of every phase. *)
Definition prepare_ocp_precondition (fs : OptimalControlProgram.files)
    (biorbd_model : list Model) (markers_ref grf_ref : list ndarray) : Prop :=
  2 <= length biorbd_model
  /\ (forall p, p < length biorbd_model ->
        exists a, markers_ref !! p = Some a /\ markers_array a)
  /\ length biorbd_model - 1 <= length grf_ref
  /\ exists ocp_previous sol_previous,
       fs !! "gait.bo" = Some (ocp_previous, sol_previous)
       /\ forall p, p < length biorbd_model -> saved_phase sol_previous p.

(** A string of ASCII characters: each of its bytes is one character. *)
Definition ascii_string (s : string) : Prop :=
  Forall (fun c => nat_of_ascii c < 128) (list_ascii_of_string s).

(** The entry [a[i, j]] of an array with two axes. *)
Definition entry (a : ndarray) (i j : nat) : option float :=
  match shape a with
  | [n0; n1] =>
      if (i <? n0) && (j <? n1) then data a !! (i * n1 + j) else None
  | _ => None
  end.

(** The mantissa [m] at the exponent [e] stands for a number that is 1 at
    least. *)
Definition at_least_one (m e : Z) : Prop :=
  ((e <= 0 -> 2 ^ (- e) <= m) /\ (0 < e -> 1 <= m))%Z.

(** A run of [main] on the worked input: every bioMod file loads as the
    flatfoot model, the data are the worked data and the solver answers the
    saved solution. *)
Definition example_main (fs : OptimalControlProgram.files)
  : result (OptimalControlProgram.t * Solution.t * OptimalControlProgram.files) :=
  main (fun file => Ok (example_model file flatfoot_names))
    (fun _ _ _ _ => Ok (example_data example_times))
    example_solver (fun _ _ => Ok example_solution) builtin_float
    "/home/user/gait_ocp/main.py" fs.

Definition example_main_program : OptimalControlProgram.t :=
  match example_main example_files with
  | Ok (ocp, _, _) => ocp
  | Raise _ => empty_program
  end.

Definition example_main_files : OptimalControlProgram.files :=
  OptimalControlProgram.save example_files example_main_program
    example_solution "gait_test.bo".

(** A penalty node whose model has a contact force without a name. *)
Definition example_node_unnamed : PenaltyNode Z :=
  {| nlp :=
       {| model := example_model "flatfoot.bioMod" ["Heel_r_Z"; EmptyString];
          states := ∅;
          controls := ∅;
          parameters := {| par_mx := [] |};
          contact_forces_func := fun _ _ _ => [] |} |}.

(** ** Loops that append *)

Lemma bind_Ok {A B} (f : A -> result B) (a : A) : (Ok a ≫= f) = f a.
Proof. reflexivity. Qed.

Lemma bind_returns {A B} (m : result A) (f : A -> result B) (b : B) :
  m ≫= f = Ok b -> exists a, m = Ok a /\ f a = Ok b.
Proof. destruct m as [a|e]; [eauto | discriminate]. Qed.

Lemma getitem_Ok {A} (l : list A) (i : nat) (a : A) :
  getitem l i = Ok a <-> l !! i = Some a.
Proof. unfold getitem. destruct (l !! i); split; congruence. Qed.

(** A loop whose body appends what [f] yields computes [mapM f] and appends
    the whole. *)
Lemma for_each_append {A B} (f : A -> result (list B)) (l : list A) :
  forall acc : list B,
    for_each l (fun x acc => ys ← f x; Ok (acc ++ ys)) acc
    = (yss ← mapM f l; Ok (acc ++ concat yss)).
Proof.
  induction l as [|x l IH]; intros acc; simpl.
  - now rewrite app_nil_r.
  - destruct (f x) as [ys|e]; simpl; [|reflexivity].
    rewrite IH. destruct (mapM f l) as [yss|e]; simpl; [|reflexivity].
    now rewrite app_assoc.
Qed.

Lemma for_each_ext {A S} (body body' : A -> S -> result S) (l : list A) :
  (forall x s, In x l -> body x s = body' x s) ->
  forall s, for_each l body s = for_each l body' s.
Proof.
  induction l as [|x l IH]; intros Hext s; simpl; [reflexivity|].
  rewrite Hext by now left.
  destruct (body' x s); simpl; [|reflexivity].
  apply IH. intros; apply Hext; now right.
Qed.

Lemma mapM_result_Ok {A B} (f : A -> result B) (g : A -> B) (l : list A) :
  Forall (fun x => f x = Ok (g x)) l -> mapM f l = Ok (map g l).
Proof.
  induction 1 as [|x l Hx _ IH]; simpl; [reflexivity|].
  now rewrite Hx, IH.
Qed.

Lemma mapM_result_inv {A B} (f : A -> result B) (l : list A) (ys : list B) :
  mapM f l = Ok ys -> Forall2 (fun x y => f x = Ok y) l ys.
Proof.
  revert ys. induction l as [|x l IH]; simpl; intros ys H.
  - injection H as <-. constructor.
  - destruct (f x) as [y|e] eqn:Hx; simpl in H; [|discriminate].
    destruct (mapM f l) as [ys'|e]; simpl in H; [|discriminate].
    injection H as <-. constructor; auto.
Qed.

Lemma mapM_result_raises {A B} (f : A -> result B) (l : list A) (x : A) :
  In x l -> raises (f x) -> raises (mapM f l).
Proof.
  induction l as [|y l IH]; simpl; [tauto|].
  intros [->|Hin] Hx.
  - destruct Hx as [e ->]. now exists e.
  - destruct (f y) as [b|e]; simpl; [|now exists e].
    destruct (IH Hin Hx) as [e ->]. now exists e.
Qed.

Lemma bind_raises {A B} (m : result A) (f : A -> result B) (e : exception) :
  m ≫= f = Raise e -> m = Raise e \/ exists a, m = Ok a /\ f a = Raise e.
Proof.
  destruct m as [a|e']; intros H; [right; eauto|].
  left. cbn in H. now injection H as ->.
Qed.

Lemma mapM_result_raise_inv {A B} (f : A -> result B) (l : list A)
    (e : exception) :
  mapM f l = Raise e -> exists x, In x l /\ f x = Raise e.
Proof.
  induction l as [|x l IH]; simpl; [discriminate|]. intros H.
  apply bind_raises in H as [H|(y & Hy & H)].
  - exists x. split; [now left|exact H].
  - apply bind_raises in H as [H|(ys & _ & H)]; [|discriminate].
    destruct (IH H) as (x' & Hin & Hx'). exists x'. split; [now right|exact Hx'].
Qed.

(** ** Floats: conversion to an integer *)

Lemma int_of_float_toward_zero (x : float) :
  is_finite x = true -> int_of_float x = Ok (toward_zero x).
Proof.
  destruct x as [s|s| |s m e]; simpl; try discriminate; intros _; [reflexivity|].
  f_equal.
  destruct (Z.le_gt_cases 0 e) as [He|He].
  - rewrite Z.shiftl_mul_pow2 by lia.
    replace (Z.max e 0) with e by lia.
    replace (Z.max (- e) 0) with 0%Z by lia.
    change (2 ^ 0)%Z with 1%Z. rewrite Z.quot_1_r.
    destruct s; simpl cond_Zopp; lia.
  - rewrite Z.shiftl_div_pow2 by lia.
    replace (Z.max e 0) with 0%Z by lia.
    replace (Z.max (- e) 0) with (- e)%Z by lia.
    change (2 ^ 0)%Z with 1%Z. rewrite Z.mul_1_r.
    assert (Hpow : (0 < 2 ^ (- e))%Z) by (apply Z.pow_pos_nonneg; lia).
    destruct s; simpl cond_Zopp.
    + change (Z.neg m) with (- Z.pos m)%Z.
      rewrite Z.quot_opp_l by lia.
      rewrite Z.quot_div_nonneg by lia. reflexivity.
    + rewrite Z.quot_div_nonneg by lia. reflexivity.
Qed.

Lemma toward_zero_below_one (x : float) : below_one x -> toward_zero x = 0%Z.
Proof.
  destruct x as [s|s| |s m e]; simpl; try tauto; intros H.
  destruct (Z.le_gt_cases 0 e) as [He|He].
  - exfalso. destruct (Z.eq_dec e 0%Z) as [->|Hne]; [simpl in H; lia|].
    rewrite Z.pow_neg_r in H by lia. lia.
  - replace (Z.max e 0) with 0%Z by lia.
    replace (Z.max (- e) 0) with (- e)%Z by lia.
    change (2 ^ 0)%Z with 1%Z. rewrite Z.mul_1_r.
    destruct s; simpl cond_Zopp.
    + change (Z.neg m) with (- Z.pos m)%Z.
      rewrite Z.quot_opp_l by lia. rewrite Z.quot_small by lia. reflexivity.
    + apply Z.quot_small. lia.
Qed.
(** ** Floats: a quotient below one *)

Lemma digits2_pos_bounds (m : positive) :
  (2 ^ (Z.pos (digits2_pos m) - 1) <= Z.pos m < 2 ^ Z.pos (digits2_pos m))%Z.
Proof.
  induction m as [m IH|m IH|]; cbn [digits2_pos].
  - rewrite Pos2Z.inj_succ.
    replace (Z.succ (Z.pos (digits2_pos m)) - 1)%Z
      with (Z.succ (Z.pos (digits2_pos m) - 1)) by lia.
    rewrite !Z.pow_succ_r by lia. lia.
  - rewrite Pos2Z.inj_succ.
    replace (Z.succ (Z.pos (digits2_pos m)) - 1)%Z
      with (Z.succ (Z.pos (digits2_pos m) - 1)) by lia.
    rewrite !Z.pow_succ_r by lia. lia.
  - simpl. lia.
Qed.

Lemma powerRZ_2_pos (e : Z) : (0 < powerRZ 2 e)%R.
Proof. apply powerRZ_lt. lra. Qed.

Lemma powerRZ_2_succ (e : Z) : powerRZ 2 (e + 1) = (2 * powerRZ 2 e)%R.
Proof. rewrite powerRZ_add by lra. rewrite powerRZ_1. lra. Qed.

Lemma powerRZ_2_IZR (n : Z) : (0 <= n)%Z -> powerRZ 2 n = IZR (2 ^ n).
Proof.
  intros Hn. destruct n as [|p|p]; [reflexivity| |lia].
  cbn [powerRZ]. rewrite pow_IZR. now rewrite positive_nat_Z.
Qed.

Lemma powerRZ_2_le (a b : Z) : (a <= b)%Z -> (powerRZ 2 a <= powerRZ 2 b)%R.
Proof.
  intros H. replace b with (a + (b - a))%Z by lia.
  rewrite powerRZ_add by lra.
  rewrite (powerRZ_2_IZR (b - a)) by lia.
  assert (1 <= IZR (2 ^ (b - a)))%R.
  { apply IZR_le. assert (0 < 2 ^ (b - a))%Z by (apply Z.pow_pos_nonneg; lia). lia. }
  pose proof (powerRZ_2_pos a). nra.
Qed.

Lemma F2R_succ_even (m e : Z) : F2R m (e + 1) = F2R (2 * m) e.
Proof. unfold F2R. rewrite powerRZ_2_succ, mult_IZR. lra. Qed.

Lemma shr_1_below (mrs : shr_record) (e : Z) (x : R) :
  shr_below mrs e x -> shr_below (shr_1 mrs) (e + 1) x.
Proof.
  destruct mrs as [m r s]. unfold shr_below. cbn [shr_m shr_r].
  intros (Hm & Hx & _).
  pose proof (powerRZ_2_pos e) as Hpos.
  assert (Hodd : forall p, F2R (Z.pos p~1) e
                           = (F2R (Z.pos p) (e + 1) + powerRZ 2 e)%R).
  { intros p. rewrite F2R_succ_even. unfold F2R.
    change (Z.pos p~1) with (2 * Z.pos p + 1)%Z.
    rewrite plus_IZR. lra. }
  assert (Heven : forall p, F2R (Z.pos p~0) e = F2R (Z.pos p) (e + 1)).
  { intros p. now rewrite F2R_succ_even. }
  assert (Hzero : forall e', F2R 0 e' = 0%R).
  { intros e'. unfold F2R. lra. }
  destruct m as [|[p|p|]|p]; cbn [shr_1 shr_m shr_r]; try lia.
  - rewrite Hzero in *. split; [lia|]. split; [exact Hx|discriminate].
  - rewrite Hodd in Hx. rewrite powerRZ_2_succ.
    split; [lia|]. split; [lra|]. intros _. lra.
  - rewrite Heven in Hx. split; [lia|]. split; [exact Hx|discriminate].
  - rewrite Hzero. unfold F2R in Hx. rewrite powerRZ_2_succ.
    split; [lia|]. split; [lra|]. intros _. lra.
Qed.

Lemma iter_shr_1_below (p : positive) :
  forall mrs e x,
    shr_below mrs e x -> shr_below (SpecFloat.iter_pos shr_1 p mrs) (e + Z.pos p) x.
Proof.
  induction p as [p IH|p IH|]; intros mrs e x H; cbn [SpecFloat.iter_pos].
  - replace (e + Z.pos p~1)%Z with (e + 1 + Z.pos p + Z.pos p)%Z by lia.
    now apply IH, IH, shr_1_below.
  - replace (e + Z.pos p~0)%Z with (e + Z.pos p + Z.pos p)%Z by lia.
    now apply IH, IH.
  - now apply shr_1_below.
Qed.

Lemma shr_fexp_below (m e : Z) (l : location) (x : R) :
  shr_below (shr_record_of_loc m l) e x ->
  shr_below (fst (shr_fexp prec emax m e l)) (snd (shr_fexp prec emax m e l)) x
  /\ snd (shr_fexp prec emax m e l)
     = Z.max e (fexp prec emax (Zdigits2 m + e)).
Proof.
  intros H. unfold shr_fexp, shr.
  destruct (fexp prec emax (Zdigits2 m + e) - e)%Z as [|p|p] eqn:Hn;
    cbn [fst snd].
  - split; [exact H|lia].
  - split; [now apply iter_shr_1_below|lia].
  - split; [exact H|lia].
Qed.

Lemma round_nearest_even_below (mrs : shr_record) (e : Z) (x : R) :
  shr_below mrs e x ->
  (0 <= round_nearest_even (shr_m mrs) (loc_of_shr_record mrs))%Z
  /\ (F2R (round_nearest_even (shr_m mrs) (loc_of_shr_record mrs)) e
      <= x + powerRZ 2 e / 2)%R.
Proof.
  destruct mrs as [m r s]. unfold shr_below. cbn [shr_m shr_r].
  intros (Hm & Hx & Hr).
  pose proof (powerRZ_2_pos e) as Hpos.
  assert (Hup : F2R (m + 1) e = (F2R m e + powerRZ 2 e)%R).
  { unfold F2R. rewrite plus_IZR. lra. }
  destruct r, s; cbn [loc_of_shr_record round_nearest_even].
  - rewrite Hup. split; [lia|]. specialize (Hr eq_refl). lra.
  - destruct (Z.even m); [split; [lia|lra]|].
    rewrite Hup. split; [lia|]. specialize (Hr eq_refl). lra.
  - split; [lia|lra].
  - split; [lia|lra].
Qed.

Lemma F2R_lt_1 (m : positive) (e : Z) :
  (F2R (Z.pos m) e < 1)%R -> (e < 0)%Z /\ (Z.pos m < 2 ^ (- e))%Z.
Proof.
  unfold F2R. intros H.
  assert (Hm : (1 <= IZR (Z.pos m))%R) by (apply IZR_le; lia).
  pose proof (powerRZ_2_pos e) as Hpos.
  assert (He : (e < 0)%Z).
  { destruct (Z_lt_le_dec e 0) as [Hlt|Hge]; [exact Hlt|exfalso].
    pose proof (powerRZ_2_le 0 e Hge) as Hle. rewrite powerRZ_O in Hle. nra. }
  split; [exact He|]. apply lt_IZR.
  rewrite <- powerRZ_2_IZR by lia.
  assert (Hinv : (powerRZ 2 e * powerRZ 2 (- e) = 1)%R).
  { rewrite <- powerRZ_add by lra. now rewrite Z.add_opp_diag_r. }
  pose proof (powerRZ_2_pos (- e)) as Hpos'. nra.
Qed.

Lemma fexp_nonpos (z : Z) : (z <= 0)%Z -> (fexp prec emax z <= -53)%Z.
Proof. unfold fexp, SpecFloat.emin, prec, emax. lia. Qed.

(** Rounding a value below [1 - 2^-54], given from below by a mantissa at an
    exponent of at most -53, gives a float below one. *)
Lemma binary_round_aux_below_one (s : bool) (mz ez : Z) (lz : location) (x : R) :
  shr_below (shr_record_of_loc mz lz) ez x ->
  (x < 1 - powerRZ 2 (-54))%R ->
  (ez <= -53)%Z ->
  (Zdigits2 mz + ez <= 0)%Z ->
  below_one (binary_round_aux prec emax s mz ez lz).
Proof.
  intros H Hx Hez Hdz. unfold binary_round_aux.
  destruct (shr_fexp_below mz ez lz x H) as [H1 He1].
  destruct (shr_fexp prec emax mz ez lz) as [mrs1 e1]. cbn [fst snd] in H1, He1.
  assert (He1' : (e1 <= -53)%Z).
  { pose proof (fexp_nonpos _ Hdz). lia. }
  destruct (round_nearest_even_below mrs1 e1 x H1) as [Hm1 Hx1].
  set (m1 := round_nearest_even (shr_m mrs1) (loc_of_shr_record mrs1)) in *.
  assert (Hlt : (F2R m1 e1 < 1)%R).
  { pose proof (powerRZ_2_le e1 (-53) He1') as Hle.
    replace (-53)%Z with (-54 + 1)%Z in Hle by lia.
    rewrite powerRZ_2_succ in Hle. lra. }
  assert (H2 : shr_below (shr_record_of_loc m1 loc_Exact) e1 (F2R m1 e1)).
  { split; [exact Hm1|]. split; [cbn; lra|discriminate]. }
  apply shr_fexp_below in H2 as [H2 _].
  destruct (shr_fexp prec emax m1 e1 loc_Exact) as [mrs2 e2]. cbn [fst snd] in H2.
  destruct H2 as (Hm2 & Hx2 & _).
  destruct (shr_m mrs2) as [|m2|m2]; [exact I| |lia].
  destruct (F2R_lt_1 m2 e2) as [He2 Hm2']; [lra|].
  replace (e2 <=? emax - prec)%Z with true; [exact Hm2'|].
  symmetry. apply Z.leb_le. unfold emax, prec. lia.
Qed.

Lemma new_location_half (nb k m : Z) :
  shr_r (shr_record_of_loc m (new_location nb k)) = true -> (nb <= 2 * k)%Z.
Proof.
  unfold new_location, new_location_even, new_location_odd.
  destruct (Z.even nb), (Z.eqb k 0); cbn [shr_record_of_loc shr_r];
    try discriminate.
  - destruct (Z.compare_spec (2 * k) nb); cbn [shr_record_of_loc shr_r];
      try discriminate; lia.
  - destruct (Z.compare_spec (2 * k + 1) nb); cbn [shr_record_of_loc shr_r];
      try discriminate; lia.
Qed.

Lemma shr_record_of_loc_m (m : Z) (l : location) :
  shr_m (shr_record_of_loc m l) = m.
Proof. now destruct l as [|[ | | ]]. Qed.

Lemma F2R_pos (m : positive) (e : Z) : (0 < F2R (Z.pos m) e)%R.
Proof.
  unfold F2R. apply Rmult_lt_0_compat; [|apply powerRZ_2_pos].
  apply IZR_lt. lia.
Qed.

(** The quotient and the location [SFdiv] starts from bound the exact
    quotient from below. *)
Lemma SFdiv_core_below (mx my : positive) (ex ey : Z) :
  forall mz ez lz,
    SFdiv_core_binary prec emax (Z.pos mx) ex (Z.pos my) ey = (mz, ez, lz) ->
    shr_below (shr_record_of_loc mz lz) ez
      (F2R (Z.pos mx) ex / F2R (Z.pos my) ey)
    /\ (ez <= fexp prec emax
                (Zdigits2 (Z.pos mx) + ex - (Zdigits2 (Z.pos my) + ey)))%Z.
Proof.
  intros mz ez lz. unfold SFdiv_core_binary.
  set (e' := Z.min _ (ex - ey)).
  set (s := (ex - ey - e')%Z).
  assert (Hs : (0 <= s)%Z) by (unfold s, e'; lia).
  set (m' := match s with
             | Z.pos _ => Z.shiftl (Z.pos mx) s
             | 0%Z => Z.pos mx
             | Z.neg _ => 0%Z
             end).
  assert (Hm' : m' = (Z.pos mx * 2 ^ s)%Z).
  { unfold m'. destruct s as [|p|p]; [simpl; lia| |lia].
    now rewrite Z.shiftl_mul_pow2 by lia. }
  pose proof (Z_div_mod m' (Z.pos my) ltac:(lia)) as Hdiv.
  destruct (Z.div_eucl m' (Z.pos my)) as [q r].
  destruct Hdiv as [Hdiv Hr].
  intros Heq. injection Heq as <- <- <-.
  split; [|unfold e'; lia].
  assert (Hq : (0 <= q)%Z) by nia.
  pose proof (powerRZ_2_pos e') as Hpe'.
  pose proof (powerRZ_2_pos ey) as Hpey.
  assert (Hmy : (0 < IZR (Z.pos my))%R) by (apply IZR_lt; lia).
  assert (Hx : (F2R (Z.pos mx) ex / F2R (Z.pos my) ey
                = IZR m' / IZR (Z.pos my) * powerRZ 2 e')%R).
  { unfold F2R. rewrite Hm', mult_IZR, <- powerRZ_2_IZR by lia.
    replace ex with (s + e' + ey)%Z at 1 by (unfold s; lia).
    rewrite !powerRZ_add by lra. field. lra. }
  rewrite Hx.
  assert (HIZR : IZR m' = (IZR (Z.pos my) * IZR q + IZR r)%R).
  { rewrite Hdiv, plus_IZR, mult_IZR. reflexivity. }
  assert (Hr0 : (0 <= IZR r)%R) by (apply IZR_le; lia).
  assert (Hquot : (IZR m' / IZR (Z.pos my)
                   = IZR q + IZR r / IZR (Z.pos my))%R).
  { rewrite HIZR. field. lra. }
  assert (Hfrac : (0 <= IZR r / IZR (Z.pos my))%R).
  { apply Rmult_le_pos; [exact Hr0|]. left. now apply Rinv_0_lt_compat. }
  unfold shr_below. rewrite shr_record_of_loc_m.
  split; [exact Hq|]. unfold F2R. rewrite Hquot. split; [nra|].
  intros Hhalf. apply new_location_half in Hhalf.
  assert (Hge : (1 / 2 <= IZR r / IZR (Z.pos my))%R).
  { apply IZR_le in Hhalf. rewrite mult_IZR in Hhalf.
    apply Rmult_le_reg_r with (r := IZR (Z.pos my)); [exact Hmy|].
    replace (IZR r / IZR (Z.pos my) * IZR (Z.pos my))%R with (IZR r)
      by (field; lra).
    lra. }
  nra.
Qed.

(** A valid binary64 mantissa has 53 digits, or fewer at the least exponent. *)
Lemma bounded_digits (m : positive) (e : Z) :
  SpecFloat.bounded prec emax m e = true ->
  (Z.pos (digits2_pos m) <= 53)%Z
  /\ (-1074 <= e)%Z
  /\ ((-1074 < e)%Z -> Z.pos (digits2_pos m) = 53%Z).
Proof.
  unfold SpecFloat.bounded, canonical_mantissa. intros H.
  apply andb_true_iff in H as [H _]. apply Z.eqb_eq in H.
  unfold fexp, SpecFloat.emin, prec, emax in H. lia.
Qed.

Lemma SFltb_finite (mx my : positive) (ex ey : Z) :
  SFltb (S754_finite false mx ex) (S754_finite false my ey) = true ->
  (ex < ey)%Z \/ (ex = ey /\ (Z.pos mx < Z.pos my)%Z).
Proof.
  unfold SFltb, SFcompare.
  destruct (Z.compare_spec ex ey) as [->|Hlt|Hgt]; try discriminate.
  - rewrite Pos.compare_cont_spec. cbn [Pos.switch_Eq].
    destruct (Pos.compare_spec mx my); try discriminate. right. split; lia.
  - now left.
Qed.

Lemma ratio_bound (n d : Z) :
  (0 < n < d)%Z -> (d < 2 ^ 54 \/ 2 * n <= d)%Z ->
  (IZR n / IZR d < 1 - powerRZ 2 (-54))%R.
Proof.
  intros [Hn Hnd] Hd.
  assert (Hpow : powerRZ 2 (-54) = (/ IZR (2 ^ 54))%R).
  { change (-54)%Z with (- (54))%Z. rewrite powerRZ_neg'.
    now rewrite powerRZ_2_IZR by lia. }
  rewrite Hpow.
  assert (Hbig : (0 < IZR (2 ^ 54))%R) by (apply IZR_lt; lia).
  assert (Hd0 : (0 < IZR d)%R) by (apply IZR_lt; lia).
  assert (Hn0 : (0 < IZR n)%R) by (apply IZR_lt; lia).
  pose proof (Rinv_0_lt_compat _ Hbig) as Hibig.
  pose proof (Rinv_0_lt_compat _ Hd0) as Hid.
  assert (Hsmall : (/ IZR (2 ^ 54) < / 2)%R).
  { apply Rinv_lt_contravar; [|apply (IZR_lt 2); lia].
    apply Rmult_lt_0_compat; [lra|exact Hbig]. }
  apply Rmult_lt_reg_r with (r := IZR d); [exact Hd0|].
  replace (IZR n / IZR d * IZR d)%R with (IZR n) by (field; lra).
  destruct Hd as [Hd|Hd].
  - assert (Hle : (IZR n <= IZR d - 1)%R).
    { rewrite <- minus_IZR. apply IZR_le. lia. }
    assert (Hlt : (IZR d * / IZR (2 ^ 54) < 1)%R).
    { apply Rmult_lt_reg_r with (r := IZR (2 ^ 54)); [exact Hbig|].
      rewrite Rmult_assoc, Rinv_l by lra. apply IZR_lt in Hd. lra. }
    lra.
  - assert (Hle : (2 * IZR n <= IZR d)%R).
    { rewrite <- mult_IZR. now apply IZR_le. }
    nra.
Qed.

(** Two positive valid floats in order are apart: their quotient is below
    [1 - 2^-54]. *)
Lemma quotient_bound (mx my : positive) (ex ey : Z) :
  SpecFloat.bounded prec emax mx ex = true ->
  SpecFloat.bounded prec emax my ey = true ->
  SFltb (S754_finite false mx ex) (S754_finite false my ey) = true ->
  (F2R (Z.pos mx) ex / F2R (Z.pos my) ey < 1 - powerRZ 2 (-54))%R.
Proof.
  intros Hx Hy Hlt.
  apply bounded_digits in Hx as (Hdx & Hex & _).
  apply bounded_digits in Hy as (Hdy & Hey & Hny).
  apply SFltb_finite in Hlt.
  pose proof (digits2_pos_bounds mx) as [_ Hmx].
  pose proof (digits2_pos_bounds my) as [Hmy_lo Hmy].
  assert (Hmx53 : (Z.pos mx < 2 ^ 53)%Z).
  { eapply Z.lt_le_trans; [exact Hmx|]. apply Z.pow_le_mono_r; lia. }
  assert (Hmy53 : (Z.pos my < 2 ^ 53)%Z).
  { eapply Z.lt_le_trans; [exact Hmy|]. apply Z.pow_le_mono_r; lia. }
  set (k := (ey - ex)%Z).
  assert (Hk : (0 <= k)%Z) by (unfold k; lia).
  assert (Hratio : (F2R (Z.pos mx) ex / F2R (Z.pos my) ey
                    = IZR (Z.pos mx) / IZR (Z.pos my * 2 ^ k))%R).
  { unfold F2R. rewrite mult_IZR, <- powerRZ_2_IZR by lia.
    replace ey with (k + ex)%Z at 1 by (unfold k; lia).
    rewrite powerRZ_add by lra.
    pose proof (powerRZ_2_pos ex). pose proof (powerRZ_2_pos k).
    assert (0 < IZR (Z.pos my))%R by (apply IZR_lt; lia).
    field. lra. }
  rewrite Hratio.
  assert (Hpk : (0 < 2 ^ k)%Z) by (apply Z.pow_pos_nonneg; lia).
  destruct (Z.eq_dec k 0%Z) as [Hk0|Hk0].
  - rewrite Hk0. change (2 ^ 0)%Z with 1%Z. rewrite Z.mul_1_r.
    apply ratio_bound; [|left; lia]. unfold k in Hk0. lia.
  - assert (Hmy52 : (2 ^ 52 <= Z.pos my)%Z).
    { rewrite Hny in Hmy_lo by (unfold k in *; lia). exact Hmy_lo. }
    destruct (Z.eq_dec k 1%Z) as [Hk1|Hk1].
    + rewrite Hk1. change (2 ^ 1)%Z with 2%Z.
      apply ratio_bound; [lia|left; lia].
    + assert (Hk2 : (2 ^ 2 <= 2 ^ k)%Z) by (apply Z.pow_le_mono_r; lia).
      apply ratio_bound; [nia|right; nia].
Qed.

Lemma F2R_digits (m : positive) (e : Z) :
  (powerRZ 2 (Z.pos (digits2_pos m) - 1 + e) <= F2R (Z.pos m) e
   < powerRZ 2 (Z.pos (digits2_pos m) + e))%R.
Proof.
  pose proof (digits2_pos_bounds m) as [Hlo Hhi].
  pose proof (powerRZ_2_pos e) as Hpos.
  unfold F2R. rewrite !powerRZ_add by lra.
  rewrite (powerRZ_2_IZR (Z.pos (digits2_pos m) - 1)) by lia.
  rewrite (powerRZ_2_IZR (Z.pos (digits2_pos m))) by lia.
  apply IZR_le in Hlo. apply IZR_lt in Hhi. split.
  - apply Rmult_le_compat_r; [lra|exact Hlo].
  - apply Rmult_lt_compat_r; [exact Hpos|exact Hhi].
Qed.

Lemma powerRZ_2_lt_inv (a b : Z) :
  (powerRZ 2 a < powerRZ 2 b)%R -> (a < b)%Z.
Proof.
  intros H. destruct (Z_lt_le_dec a b) as [Hlt|Hge]; [exact Hlt|].
  apply powerRZ_2_le in Hge. lra.
Qed.

Lemma float_div_finite_below_one (mx my : positive) (ex ey : Z) :
  SpecFloat.bounded prec emax mx ex = true ->
  SpecFloat.bounded prec emax my ey = true ->
  SFltb (S754_finite false mx ex) (S754_finite false my ey) = true ->
  below_one (float_div (S754_finite false mx ex) (S754_finite false my ey)).
Proof.
  intros Hx Hy Hlt.
  pose proof (quotient_bound mx my ex ey Hx Hy Hlt) as Hq.
  pose proof (powerRZ_2_pos (-54)) as H54.
  pose proof (F2R_pos my ey) as Hypos.
  assert (Hval : (F2R (Z.pos mx) ex < F2R (Z.pos my) ey)%R).
  { apply Rmult_lt_reg_r with (r := (/ F2R (Z.pos my) ey)%R).
    - now apply Rinv_0_lt_compat.
    - rewrite Rinv_r by lra. unfold Rdiv in Hq. lra. }
  unfold float_div, SFdiv.
  destruct (SFdiv_core_binary prec emax (Z.pos mx) ex (Z.pos my) ey)
    as [[mz ez] lz] eqn:Hcore.
  apply SFdiv_core_below in Hcore as [Hbelow Hez].
  assert (Hdig : (Zdigits2 (Z.pos mx) + ex - (Zdigits2 (Z.pos my) + ey) <= 0)%Z).
  { cbn [Zdigits2].
    pose proof (F2R_digits mx ex) as [Hlo _].
    pose proof (F2R_digits my ey) as [_ Hhi].
    assert (Hlt' : (Z.pos (digits2_pos mx) - 1 + ex
                    < Z.pos (digits2_pos my) + ey)%Z)
      by (apply powerRZ_2_lt_inv; lra).
    lia. }
  assert (Hez' : (ez <= -53)%Z).
  { pose proof (fexp_nonpos _ Hdig). lia. }
  apply binary_round_aux_below_one
    with (x := (F2R (Z.pos mx) ex / F2R (Z.pos my) ey)%R);
    [exact Hbelow|exact Hq|exact Hez'|].
  destruct Hbelow as (Hmz & Hle & _). rewrite shr_record_of_loc_m in Hmz, Hle.
  destruct mz as [|q|q]; [cbn [Zdigits2]; lia| |lia].
  cbn [Zdigits2].
  pose proof (F2R_digits q ez) as [Hlo _].
  assert (Hlt' : (Z.pos (digits2_pos q) - 1 + ez < 0)%Z).
  { apply powerRZ_2_lt_inv. rewrite powerRZ_O. lra. }
  lia.
Qed.

(** A float that is not negative and less than [dt] has a quotient by [dt]
    below one. *)
Lemma float_div_below_one (t dt : float) :
  valid_binary prec emax t = true ->
  valid_binary prec emax dt = true ->
  SFleb (S754_zero false) t = true ->
  SFltb t dt = true ->
  below_one (float_div t dt).
Proof.
  destruct t as [[|]|[|]| |[|] mx ex], dt as [[|]|[|]| |[|] my ey];
    cbn [valid_binary]; intros Hx Hy Hle Hlt;
    try discriminate; try exact I.
  now apply float_div_finite_below_one.
Qed.

(** ** Floats: division *)

(** A quotient is finite only if the dividend is, and the divisor is not
    zero. *)
Lemma float_div_finite (x y : float) :
  is_finite (float_div x y) = true -> is_finite x = true /\ is_zero y = false.
Proof.
  unfold float_div.
  destruct x as [sx|sx| |sx mx ex], y as [sy|sy| |sy my ey];
    simpl; try discriminate; auto.
Qed.

Lemma int_of_float_returns (x : float) :
  returns (int_of_float x) <-> is_finite x = true.
Proof.
  unfold returns.
  destruct x; simpl; split; intros H; try discriminate; eauto;
    destruct H as [? H]; discriminate.
Qed.

Lemma truediv_int_returns (k : float_kind) (x y : float) :
  returns (q ← truediv k x y; int_of_float q) ->
  is_finite x = true /\ is_zero y = false.
Proof.
  intros [n H]. apply bind_returns in H as (q & Hq & Hn).
  assert (Hfin : is_finite q = true) by (apply int_of_float_returns; now exists n).
  destruct k; simpl in Hq.
  - destruct (is_zero y) eqn:Hy; [discriminate|]. injection Hq as <-.
    apply float_div_finite in Hfin. destruct Hfin; split; congruence.
  - injection Hq as <-. now apply float_div_finite.
Qed.

Lemma truediv_nonzero (k : float_kind) (x y : float) :
  is_zero y = false -> truediv k x y = Ok (float_div x y).
Proof. intros H. destruct k; simpl; [now rewrite H | reflexivity]. Qed.

Lemma truediv_Ok (k : float_kind) (x y q : float) :
  truediv k x y = Ok q -> q = float_div x y.
Proof.
  destruct k; simpl; [destruct (is_zero y); [discriminate|]|];
    intros H; now injection H as <-.
Qed.

Lemma truediv_raises (k : float_kind) (x y : float) (e : exception) :
  truediv k x y = Raise e ->
  e = ZeroDivisionError /\ k = builtin_float /\ is_zero y = true.
Proof.
  destruct k; simpl; [|discriminate].
  destruct (is_zero y); [|discriminate]. intros H. now injection H as <-.
Qed.

Lemma int_of_float_raises (x : float) (e : exception) :
  int_of_float x = Raise e ->
  (e = OverflowError /\ exists s, x = S754_infinity s)
  \/ (e = ValueError /\ x = S754_nan).
Proof.
  destruct x as [s|s| |s m ex]; simpl; intros H; try discriminate;
    injection H as <-; [left; eauto | right; auto].
Qed.

(** ** The shooting numbers *)

(** A loop whose body appends the one value [f] yields computes [mapM f]. *)
Lemma for_each_snoc {A B} (f : A -> result B) (l : list A) :
  forall acc : list B,
    for_each l (fun x acc => y ← f x; Ok (acc ++ [y])) acc
    = (ys ← mapM f l; Ok (acc ++ ys)).
Proof.
  induction l as [|x l IH]; intros acc; simpl.
  - now rewrite app_nil_r.
  - destruct (f x) as [y|e]; simpl; [|reflexivity].
    rewrite IH. destruct (mapM f l) as [ys|e]; simpl; [|reflexivity].
    now rewrite <- app_assoc.
Qed.

(** The loop of [get_phase_time_shooting_numbers] converts the phase times
    one by one, in order. *)
Lemma get_phase_time_shooting_numbers_mapM k data dt :
  get_phase_time_shooting_numbers k data dt
  = (ns ← mapM (fun time => q ← truediv k time dt; int_of_float q)
                (get_time (c3d_data data));
     Ok (get_time (c3d_data data), ns)).
Proof.
  unfold get_phase_time_shooting_numbers.
  rewrite for_each_ext with
    (body' := fun time acc =>
                y ← (q ← truediv k time dt; int_of_float q); Ok (acc ++ [y])).
  - rewrite for_each_snoc.
    now destruct (mapM _ (get_time (c3d_data data))).
  - intros time acc _. now destruct (truediv k time dt).
Qed.

(** ** The last character of a name *)

Lemma append_nil (s : string) : String.append EmptyString s = s.
Proof. reflexivity. Qed.

Lemma append_cons (a : ascii) (s t : string) :
  String.append (String a s) t = String a (String.append s t).
Proof. reflexivity. Qed.

Lemma ends_with_nil (c : ascii) : ~ ends_with EmptyString c.
Proof.
  intros [[|a pre] H]; rewrite ?append_cons, ?append_nil in H; discriminate.
Qed.

Lemma ends_with_single (a c : ascii) : ends_with (String a EmptyString) c <-> a = c.
Proof.
  split.
  - intros [[|b [|b' pre]] H]; rewrite ?append_cons, ?append_nil in H;
      try discriminate; congruence.
  - intros ->. now exists EmptyString.
Qed.

Lemma ends_with_cons (a b c : ascii) (rest : string) :
  ends_with (String a (String b rest)) c <-> ends_with (String b rest) c.
Proof.
  split.
  - intros [[|a' pre] H]; rewrite ?append_cons, ?append_nil in H; [discriminate|].
    injection H as _ H. now exists pre.
  - intros [pre H]. exists (String a pre). rewrite append_cons. now rewrite H.
Qed.

Lemma last_char_ends_with (s : string) (c : ascii) :
  last_char s = Ok (String c EmptyString) <-> ends_with s c.
Proof.
  induction s as [|a rest IH].
  - simpl. split; [discriminate|]. intros H. now apply ends_with_nil in H.
  - destruct rest as [|b rest].
    + simpl. rewrite ends_with_single. split; congruence.
    + rewrite ends_with_cons. exact IH.
Qed.

Lemma last_char_nonempty (s : string) :
  s <> EmptyString -> exists c, last_char s = Ok (String c EmptyString).
Proof.
  induction s as [|a rest IH]; [congruence|]. intros _.
  destruct rest as [|b rest]; [now exists a|].
  apply IH. discriminate.
Qed.

Lemma last_char_empty : last_char EmptyString = Raise IndexError.
Proof. reflexivity. Qed.

Lemma ends_withb_spec (s : string) (c : ascii) :
  ends_withb s c = true <-> ends_with s c.
Proof.
  unfold ends_withb. induction s as [|a rest IH].
  - simpl. split; [discriminate|]. intros H. now apply ends_with_nil in H.
  - destruct rest as [|b rest].
    + simpl. rewrite ends_with_single. apply Ascii.eqb_eq.
    + rewrite ends_with_cons. rewrite <- IH.
      change (String.length (String a (String b rest)) - 1)
        with (S (String.length rest)).
      change (String.length (String b rest) - 1) with (String.length rest - 0).
      rewrite Nat.sub_0_r. reflexivity.
Qed.

(** The flag [get_contact_index] computes for a name. *)
Lemma name_flag (s : string) (c : ascii) :
  s <> EmptyString ->
  (c' ← last_char s; Ok (String.eqb c' (String c EmptyString)))
  = Ok (ends_withb s c).
Proof.
  intros Hs. destruct (last_char_nonempty s Hs) as [c' Hc'].
  rewrite Hc'. simpl. f_equal.
  apply last_char_ends_with in Hc'.
  destruct (ends_withb s c) eqn:Hb.
  - apply ends_withb_spec in Hb.
    apply last_char_ends_with in Hb, Hc'. rewrite Hb in Hc'.
    injection Hc' as ->. now rewrite Ascii.eqb_refl.
  - destruct (Ascii.eqb c' c) eqn:Hcc; [|reflexivity].
    apply Ascii.eqb_eq in Hcc as ->.
    apply ends_withb_spec in Hc'. congruence.
Qed.

(** ** Indices of the flags that hold *)

Lemma flagged_indices (flags : list bool) :
  forall k,
    let r := map fst (List.filter snd (combine (seq k (length flags)) flags)) in
    StronglySorted lt r
    /\ Forall (fun i => k <= i) r
    /\ forall j, In (k + j) r <-> flags !! j = Some true.
Proof.
  induction flags as [|b flags IH]; intros k; simpl.
  - repeat split; try constructor; simpl; try tauto; discriminate.
  - destruct (IH (S k)) as (Hsort & Hge & Hin). simpl in Hsort, Hge, Hin.
    assert (Hin' : forall j, In (k + S j) (map fst (List.filter snd
                      (combine (seq (S k) (length flags)) flags)))
                    <-> flags !! j = Some true).
    { intros j. rewrite <- Hin. now replace (k + S j) with (S k + j) by lia. }
    assert (Hk : ~ In k (map fst (List.filter snd
                      (combine (seq (S k) (length flags)) flags)))).
    { intros H. rewrite List.Forall_forall in Hge. apply Hge in H. lia. }
    destruct b; simpl.
    + split; [|split].
      * constructor; [exact Hsort|].
        eapply List.Forall_impl; [|exact Hge]. simpl; lia.
      * constructor; [lia|]. eapply List.Forall_impl; [|exact Hge]. simpl; lia.
      * intros [|j]; simpl.
        -- rewrite Nat.add_0_r. split; auto.
        -- rewrite <- Hin'. split; [intros [H|H]; [lia|exact H] | now right].
    + split; [exact Hsort|split].
      * eapply List.Forall_impl; [|exact Hge]. simpl; lia.
      * intros [|j]; simpl.
        -- rewrite Nat.add_0_r. split; [tauto|discriminate].
        -- apply Hin'.
Qed.

(** ** [get_contact_index] *)

Lemma get_contact_index_flags {A} (pn : PenaltyNode A) (c : ascii) :
  Forall (fun s => s <> EmptyString) (contactNames (model (nlp pn))) ->
  get_contact_index pn (String c EmptyString)
  = Ok (map fst (List.filter snd
          (enumerate (map (fun s => ends_withb s c)
                        (contactNames (model (nlp pn))))))).
Proof.
  intros Hne. unfold get_contact_index.
  rewrite (mapM_result_Ok _ (fun s => ends_withb s c)); [reflexivity|].
  eapply List.Forall_impl; [|exact Hne].
  intros s Hs. now apply name_flag.
Qed.

(** An empty name has no last character: [s[-1]] raises. *)
Lemma get_contact_index_empty_name {A} (pn : PenaltyNode A) (tag : string) :
  In EmptyString (contactNames (model (nlp pn))) ->
  raises (get_contact_index pn tag).
Proof.
  intros Hin. unfold get_contact_index.
  destruct (mapM_result_raises
              (fun s => c ← last_char s; Ok (String.eqb c tag))
              _ _ Hin) as [e He].
  - now exists IndexError.
  - rewrite He. now exists e.
Qed.

(** C3: for a penalty node whose contact-force names are not empty and a tag
    character [c], [get_contact_index] returns the indices of the names whose
    last character is [c], in strictly increasing order, and no index when no
    name ends with [c]. *)
Theorem get_contact_index_spec {A} (pn : PenaltyNode A) (c : ascii) :
  Forall (fun s => s <> EmptyString) (contactNames (model (nlp pn))) ->
  exists idx,
    get_contact_index pn (String c EmptyString) = Ok idx
    /\ StronglySorted lt idx
    /\ (forall i, In i idx
                  <-> exists s, contactNames (model (nlp pn)) !! i = Some s
                                /\ ends_with s c)
    /\ ((forall s, In s (contactNames (model (nlp pn))) -> ~ ends_with s c)
        -> idx = []).
Proof.
  intros Hne. rewrite (get_contact_index_flags pn c Hne).
  eexists; split; [reflexivity|].
  unfold enumerate.
  set (names := contactNames (model (nlp pn))).
  set (flags := map (fun s => ends_withb s c) names).
  destruct (flagged_indices flags 0) as (Hsort & _ & Hin). simpl in Hin.
  assert (Hchar : forall i,
             In i (map fst (List.filter snd (combine (seq 0 (length flags)) flags)))
             <-> exists s, names !! i = Some s /\ ends_with s c).
  { intros i. rewrite Hin. unfold flags. rewrite list_lookup_fmap.
    destruct (names !! i) as [s|]; simpl.
    - split.
      + intros H. exists s. split; [reflexivity|].
        apply ends_withb_spec. congruence.
      + intros (s' & Hs' & Hend). injection Hs' as <-.
        apply ends_withb_spec in Hend. now rewrite Hend.
    - split; [discriminate|]. intros (s' & Hs' & _). discriminate. }
  split; [exact Hsort|]. split; [exact Hchar|].
  intros Hnone.
  destruct (map fst _) as [|i rest] eqn:Hidx; [reflexivity|]. exfalso.
  destruct (proj1 (Hchar i)) as (s & Hs & Hend); [now left|].
  apply (Hnone s); [|exact Hend].
  apply list_elem_of_In. eapply list_elem_of_lookup_2. exact Hs.
Qed.

(** ** [track_sum_contact_forces] *)

(** Reading a column at the indices of the flags that hold keeps the entries
    paired with a flag that holds. *)
Lemma mx_rows_flagged {A} (flags : list bool) :
  forall (pre force : list A),
    length flags <= length force ->
    mx_rows (pre ++ force)
      (map fst (List.filter snd (combine (seq (length pre) (length flags)) flags)))
    = Ok (map snd (List.filter fst (combine flags force))).
Proof.
  induction flags as [|b flags IH]; intros pre force Hlen; [reflexivity|].
  destruct force as [|x force]; simpl in Hlen; [lia|].
  specialize (IH (pre ++ [x]) force ltac:(lia)).
  rewrite <- app_assoc, length_app in IH. simpl in IH.
  rewrite Nat.add_1_r in IH.
  simpl. destruct b; simpl.
  - rewrite lookup_app_r by lia. rewrite Nat.sub_diag. simpl.
    rewrite IH. reflexivity.
  - exact IH.
Qed.

Lemma tagged_flags {A} (c : ascii) (names : list string) (force : list A) :
  map snd (List.filter fst (combine (map (fun s => ends_withb s c) names) force))
  = tagged c names force.
Proof.
  unfold tagged. revert force.
  induction names as [|s names IH]; intros [|x force]; simpl; try reflexivity.
  destruct (ends_withb s c); simpl; now rewrite IH.
Qed.

Lemma contact_rows {A} (pn : PenaltyNode A) (c : ascii) (force : list A) :
  Forall (fun s => s <> EmptyString) (contactNames (model (nlp pn))) ->
  length force = length (contactNames (model (nlp pn))) ->
  (idx ← get_contact_index pn (String c EmptyString); mx_rows force idx)
  = Ok (tagged c (contactNames (model (nlp pn))) force).
Proof.
  intros Hne Hlen. rewrite (get_contact_index_flags pn c Hne). simpl.
  unfold enumerate.
  rewrite <- tagged_flags.
  apply (mx_rows_flagged _ [] force).
  rewrite length_map. lia.
Qed.

(** C6: on a penalty node that has the states [q], [qdot] and the controls
    [tau], [muscles], whose contact forces, evaluated on them, come one per
    contact-force name, [track_sum_contact_forces] returns the three sums of
    the contact forces whose names end in X, in Y and in Z, in this order. *)
Theorem track_sum_contact_forces_spec {A} (mx_zero : A) (mx_add : A -> A -> A)
    (pn : PenaltyNode A) (q qdot tau muscles : OptimizationVariable A) :
  states (nlp pn) !! "q" = Some q ->
  states (nlp pn) !! "qdot" = Some qdot ->
  controls (nlp pn) !! "tau" = Some tau ->
  controls (nlp pn) !! "muscles" = Some muscles ->
  let names := contactNames (model (nlp pn)) in
  let force :=
    contact_forces_func (nlp pn)
      (var_mx q ++ var_mx qdot) (var_mx tau ++ var_mx muscles)
      (par_mx (parameters (nlp pn))) in
  Forall (fun s => s <> EmptyString) names ->
  length force = length names ->
  track_sum_contact_forces mx_zero mx_add pn
  = Ok [mx_sum mx_zero mx_add (tagged "X" names force);
        mx_sum mx_zero mx_add (tagged "Y" names force);
        mx_sum mx_zero mx_add (tagged "Z" names force)].
Proof.
  intros Hq Hqdot Htau Hmus names force Hne Hlen.
  unfold track_sum_contact_forces, dict_getitem.
  rewrite Hq, Hqdot, Htau, Hmus. simpl.
  unfold vertcat. simpl. rewrite !app_nil_r.
  fold force.
  pose proof (contact_rows pn "X" force Hne Hlen) as HX.
  pose proof (contact_rows pn "Y" force Hne Hlen) as HY.
  pose proof (contact_rows pn "Z" force Hne Hlen) as HZ.
  fold names in HX, HY, HZ.
  destruct (get_contact_index pn "X") as [ix|e]; simpl in HX |- *; [|discriminate].
  rewrite HX. simpl.
  destruct (get_contact_index pn "Y") as [iy|e]; simpl in HY |- *; [|discriminate].
  rewrite HY. simpl.
  destruct (get_contact_index pn "Z") as [iz|e]; simpl in HZ |- *; [|discriminate].
  rewrite HZ. simpl.
  reflexivity.
Qed.

(** ** The objective functions *)

Lemma objective_functions_phase_body markers_ref p (acc : list Objective.t) :
  (objective_functions ←
     for_each (enumerate markers_index)
       (fun '(i, m_idx) objective_functions =>
          w ← getitem weight i;
          markers ← getitem markers_ref p;
          target ← take_axis1 markers m_idx;
          Ok (objective_functions ++ [track_markers w m_idx target p]))
       acc;
   Ok ((((objective_functions
            ++ [minimize_control "tau" (Float float_0_001) (Some [10; 12]) None p])
           ++ [minimize_control "tau" (Int 1) (Some [6; 7; 8; 9; 11]) None p])
          ++ [minimize_control "muscles" (Int 10) None None p])
         ++ [minimize_control "tau" (Float float_0_1) None (Some true) p]))
  = (ys ← phase_objectives markers_ref p; Ok (acc ++ ys)).
Proof.
  unfold phase_objectives.
  cbn [enumerate markers_index length seq combine for_each].
  change (getitem weight 0) with (Ok (A:=number) (Int 10000)).
  change (getitem weight 1) with (Ok (A:=number) (Int 1000)).
  change (getitem weight 2) with (Ok (A:=number) (Int 10000)).
  change (getitem weight 3) with (Ok (A:=number) (Int 100)).
  rewrite !bind_Ok.
  destruct (getitem markers_ref p) as [markers|e]; [|reflexivity].
  rewrite !bind_Ok.
  destruct (take_axis1 markers markers_pelvis); [|reflexivity]. rewrite !bind_Ok.
  destruct (take_axis1 markers markers_anat); [|reflexivity]. rewrite !bind_Ok.
  destruct (take_axis1 markers markers_foot); [|reflexivity]. rewrite !bind_Ok.
  destruct (take_axis1 markers markers_tissus); [|reflexivity]. rewrite !bind_Ok.
  now rewrite <- !app_assoc.
Qed.

(** The two loops of [objective_functions]: the terms of the phases, in the
    order of the phases, then the contact-force terms. *)
Lemma objective_functions_structure nb_phases markers_ref grf_ref :
  objective_functions nb_phases markers_ref grf_ref
  = (per_phase ← mapM (phase_objectives markers_ref) (range nb_phases);
     custom ← mapM (fun p => target ← getitem grf_ref p;
                             Ok (track_contact_forces_objective target p))
                (range (nb_phases - 1));
     Ok (concat per_phase ++ custom)).
Proof.
  unfold objective_functions.
  rewrite for_each_ext with
    (body' := fun p acc => ys ← phase_objectives markers_ref p; Ok (acc ++ ys))
    by (intros; apply objective_functions_phase_body).
  rewrite for_each_append.
  destruct (mapM (phase_objectives markers_ref) (range nb_phases)) as [per_phase|e];
    [|reflexivity].
  rewrite !bind_Ok.
  rewrite for_each_ext with
    (body' := fun p acc =>
                y ← (target ← getitem grf_ref p;
                     Ok (track_contact_forces_objective target p));
                Ok (acc ++ [y]))
    by (intros p acc _; now destruct (getitem grf_ref p)).
  now rewrite for_each_snoc.
Qed.

Lemma phase_objectives_inv markers_ref p ys :
  phase_objectives markers_ref p = Ok ys ->
  exists markers pelvis anat foot tissus,
    markers_ref !! p = Some markers
    /\ take_axis1 markers markers_pelvis = Ok pelvis
    /\ take_axis1 markers markers_anat = Ok anat
    /\ take_axis1 markers markers_foot = Ok foot
    /\ take_axis1 markers markers_tissus = Ok tissus
    /\ ys = [track_markers (Int 10000) markers_pelvis pelvis p;
             track_markers (Int 1000) markers_anat anat p;
             track_markers (Int 10000) markers_foot foot p;
             track_markers (Int 100) markers_tissus tissus p;
             minimize_control "tau" (Float float_0_001) (Some [10; 12]) None p;
             minimize_control "tau" (Int 1) (Some [6; 7; 8; 9; 11]) None p;
             minimize_control "muscles" (Int 10) None None p;
             minimize_control "tau" (Float float_0_1) None (Some true) p].
Proof.
  unfold phase_objectives. intros H.
  apply bind_returns in H as (markers & Hm & H).
  apply bind_returns in H as (pelvis & Hp & H).
  apply bind_returns in H as (anat & Ha & H).
  apply bind_returns in H as (foot & Hf & H).
  apply bind_returns in H as (tissus & Ht & H).
  injection H as <-.
  apply getitem_Ok in Hm.
  exists markers, pelvis, anat, foot, tissus. repeat split; assumption.
Qed.

Lemma phase_objectives_library markers_ref p ys :
  phase_objectives markers_ref p = Ok ys ->
  Forall (fun o => is_custom o = false /\ Objective.phase o = p) ys.
Proof.
  intros H. apply phase_objectives_inv in H as (? & ? & ? & ? & ? & _ & _ & _ & _ & _ & ->).
  repeat constructor.
Qed.

Lemma library_objectives_app p l l' :
  library_objectives p (l ++ l') = library_objectives p l ++ library_objectives p l'.
Proof. apply List.filter_app. Qed.

Lemma library_objectives_same p l :
  Forall (fun o => is_custom o = false /\ Objective.phase o = p) l ->
  library_objectives p l = l.
Proof.
  induction 1 as [|o l [Hc Hp] _ IH]; [reflexivity|].
  unfold library_objectives in *. simpl.
  rewrite Hc, Hp, Nat.eqb_refl. simpl. now rewrite IH.
Qed.

Lemma library_objectives_other p q l :
  p <> q ->
  Forall (fun o => is_custom o = false /\ Objective.phase o = q) l ->
  library_objectives p l = [].
Proof.
  intros Hpq. induction 1 as [|o l [Hc Hp] _ IH]; [reflexivity|].
  unfold library_objectives in *. simpl.
  rewrite Hc, Hp. simpl.
  destruct (Nat.eqb_spec q p); [congruence|]. exact IH.
Qed.

Lemma library_objectives_custom p l :
  Forall (fun o => is_custom o = true) l -> library_objectives p l = [].
Proof.
  induction 1 as [|o l Hc _ IH]; [reflexivity|].
  unfold library_objectives in *. simpl. now rewrite Hc.
Qed.

Lemma custom_objectives_app l l' :
  custom_objectives (l ++ l') = custom_objectives l ++ custom_objectives l'.
Proof. apply List.filter_app. Qed.

Lemma custom_objectives_same l :
  Forall (fun o => is_custom o = true) l -> custom_objectives l = l.
Proof.
  induction 1 as [|o l Hc _ IH]; [reflexivity|].
  unfold custom_objectives in *. simpl. now rewrite Hc, IH.
Qed.

Lemma custom_objectives_none l :
  Forall (fun o => is_custom o = false) l -> custom_objectives l = [].
Proof.
  induction 1 as [|o l Hc _ IH]; [reflexivity|].
  unfold custom_objectives in *. simpl. now rewrite Hc.
Qed.

(** In the concatenation of per-phase lists, the terms of phase [p] are the
    [p]-th list. *)
Lemma library_objectives_concat (per_phase : list (list Objective.t)) :
  forall k,
    Forall2 (fun q ys =>
               Forall (fun o => is_custom o = false /\ Objective.phase o = q) ys)
      (seq k (length per_phase)) per_phase ->
    forall p,
      library_objectives p (concat per_phase)
      = if k <=? p then default [] (per_phase !! (p - k)) else [].
Proof.
  induction per_phase as [|ys per_phase IH]; intros k H p.
  - simpl. now destruct (k <=? p).
  - cbn [length seq concat] in *.
    inversion H as [|? ? ? ? Hys Hrest]; subst.
    rewrite library_objectives_app, (IH (S k) Hrest p).
    destruct (Nat.eq_dec p k) as [->|Hne].
    + rewrite (library_objectives_same k ys Hys).
      rewrite Nat.leb_refl, Nat.sub_diag.
      destruct (Nat.leb_spec (S k) k); [lia|]. now rewrite app_nil_r.
    + rewrite (library_objectives_other p k ys Hne Hys).
      destruct (Nat.leb_spec (S k) p), (Nat.leb_spec k p); try lia; [|reflexivity].
      replace (p - k) with (S (p - S k)) by lia. reflexivity.
Qed.

Lemma custom_objectives_concat (per_phase : list (list Objective.t)) :
  Forall (Forall (fun o => is_custom o = false)) per_phase ->
  custom_objectives (concat per_phase) = [].
Proof.
  induction 1 as [|ys per_phase Hys _ IH]; [reflexivity|].
  simpl. rewrite custom_objectives_app, IH.
  now rewrite (custom_objectives_none ys Hys).
Qed.

(** ** [prepare_ocp]: the blocks behind a returned program *)

Lemma prepare_ocp_inv fs biorbd_model final_time nb_shooting
    markers_ref grf_ref q_ref qdot_ref activation_ref nb_threads ode_solver ocp :
  prepare_ocp fs biorbd_model final_time nb_shooting markers_ref grf_ref
    q_ref qdot_ref activation_ref nb_threads ode_solver = Ok ocp ->
  exists first objs cons xb ub xi ui,
    biorbd_model !! 0 = Some first
    /\ objective_functions (length biorbd_model) markers_ref grf_ref = Ok objs
    /\ constraints biorbd_model = Ok cons
    /\ bounds biorbd_model (nbGeneralizedTorque first) (nbMuscleTotal first)
       = Ok (xb, ub)
    /\ initial_guesses fs (length biorbd_model) = Ok (xi, ui)
    /\ ocp = {| OptimalControlProgram.biorbd_model := biorbd_model;
                OptimalControlProgram.dynamics := dynamics (length biorbd_model);
                OptimalControlProgram.n_shooting := nb_shooting;
                OptimalControlProgram.phase_time := final_time;
                OptimalControlProgram.x_init := xi;
                OptimalControlProgram.u_init := ui;
                OptimalControlProgram.x_bounds := xb;
                OptimalControlProgram.u_bounds := ub;
                OptimalControlProgram.objective_functions := objs;
                OptimalControlProgram.constraints := cons;
                OptimalControlProgram.phase_transitions := phase_transitions;
                OptimalControlProgram.n_threads := nb_threads;
                OptimalControlProgram.ode_solver := ode_solver |}.
Proof.
  unfold prepare_ocp. intros H.
  apply bind_returns in H as (first & Hfirst & H).
  apply bind_returns in H as (objs & Hobjs & H).
  apply bind_returns in H as (cons & Hcons & H).
  apply bind_returns in H as ([xb ub] & Hb & H).
  apply bind_returns in H as ([xi ui] & Hi & H).
  injection H as <-.
  apply getitem_Ok in Hfirst.
  exists first, objs, cons, xb, ub, xi, ui. repeat split; assumption.
Qed.

Lemma seq_Forall2_lookup {B} (P : nat -> B -> Prop) (n : nat) (l : list B) :
  Forall2 P (seq 0 n) l ->
  length l = n /\ forall p, p < n -> exists y, l !! p = Some y /\ P p y.
Proof.
  intros H. split.
  - apply Forall2_length in H. now rewrite length_seq in H.
  - intros p Hp.
    destruct (Forall2_lookup_l _ _ _ p p H) as (y & Hy & HP).
    + now apply lookup_seq_lt.
    + eauto.
Qed.

(** C5: in a program [prepare_ocp] returns, every phase [p] of the model
    tuple has exactly eight objectives of the library: the four quadratic
    TRACK_MARKERS terms over the pelvis, anatomical, foot and tissue markers
    with weights 10000, 1000, 10000 and 100, and the four quadratic
    MINIMIZE_CONTROL terms (tau on (10, 12) with weight 0.001, tau on
    (6, 7, 8, 9, 11) with weight 1, muscles with weight 10, the derivative of
    tau with weight 0.1); a phase beyond the tuple has none.  The custom
    contact-force objectives, of weight 0.01 and target [grf_ref[p]], are
    those of the phases 0 .. nb_phases - 2, one each. *)
Theorem prepare_ocp_objectives fs biorbd_model final_time nb_shooting
    markers_ref grf_ref q_ref qdot_ref activation_ref nb_threads ode_solver ocp :
  prepare_ocp fs biorbd_model final_time nb_shooting markers_ref grf_ref
    q_ref qdot_ref activation_ref nb_threads ode_solver = Ok ocp ->
  let nb_phases := length biorbd_model in
  let objectives := OptimalControlProgram.objective_functions ocp in
  let tracked_markers weight marker_index target p :=
    {| Objective.objective :=
         Objective.Lagrange ObjectiveFcn.Lagrange.TRACK_MARKERS;
       Objective.custom_type := None;
       Objective.node := Some Node.ALL;
       Objective.weight := weight;
       Objective.key := None;
       Objective.index := None;
       Objective.marker_index := Some marker_index;
       Objective.target := Some target;
       Objective.derivative := None;
       Objective.quadratic := Some true;
       Objective.phase := p |} in
  let minimized_control key weight index derivative p :=
    {| Objective.objective :=
         Objective.Lagrange ObjectiveFcn.Lagrange.MINIMIZE_CONTROL;
       Objective.custom_type := None;
       Objective.node := None;
       Objective.weight := weight;
       Objective.key := Some key;
       Objective.index := index;
       Objective.marker_index := None;
       Objective.target := None;
       Objective.derivative := derivative;
       Objective.quadratic := Some true;
       Objective.phase := p |} in
  let tracked_contact_forces target p :=
    {| Objective.objective := Objective.Custom fn_track_sum_contact_forces;
       Objective.custom_type := Some ObjectiveFcn.Lagrange_family;
       Objective.node := Some Node.ALL;
       Objective.weight := Float (Prim2SF 0.01%float);
       Objective.key := None;
       Objective.index := None;
       Objective.marker_index := None;
       Objective.target := Some target;
       Objective.derivative := None;
       Objective.quadratic := Some true;
       Objective.phase := p |} in
  (forall p, p < nb_phases ->
     exists markers pelvis anat foot tissus,
       markers_ref !! p = Some markers
       /\ take_axis1 markers [0; 1; 2; 3] = Ok pelvis
       /\ take_axis1 markers [4; 9; 10; 11; 12; 17; 18] = Ok anat
       /\ take_axis1 markers [19; 20; 21; 22; 23; 24; 25] = Ok foot
       /\ take_axis1 markers [5; 6; 7; 8; 13; 14; 15; 16] = Ok tissus
       /\ library_objectives p objectives
          = [tracked_markers (Int 10000) [0; 1; 2; 3] pelvis p;
             tracked_markers (Int 1000) [4; 9; 10; 11; 12; 17; 18] anat p;
             tracked_markers (Int 10000) [19; 20; 21; 22; 23; 24; 25] foot p;
             tracked_markers (Int 100) [5; 6; 7; 8; 13; 14; 15; 16] tissus p;
             minimized_control "tau" (Float (Prim2SF 0.001%float)) (Some [10; 12]) None p;
             minimized_control "tau" (Int 1) (Some [6; 7; 8; 9; 11]) None p;
             minimized_control "muscles" (Int 10) None None p;
             minimized_control "tau" (Float (Prim2SF 0.1%float)) None (Some true) p])
  /\ (forall p, nb_phases <= p -> library_objectives p objectives = [])
  /\ length (custom_objectives objectives) = nb_phases - 1
  /\ (forall p, p < nb_phases - 1 ->
        exists target,
          grf_ref !! p = Some target
          /\ custom_objectives objectives !! p
             = Some (tracked_contact_forces target p)).
Proof.
  intros H nb_phases objectives tracked_markers minimized_control
    tracked_contact_forces.
  apply prepare_ocp_inv in H
    as (first & objs & cons & xb & ub & xi & ui & _ & Hobjs & _ & _ & _ & ->).
  subst objectives. cbn [OptimalControlProgram.objective_functions].
  fold nb_phases in Hobjs.
  rewrite objective_functions_structure in Hobjs.
  apply bind_returns in Hobjs as (per_phase & Hper & Hobjs).
  apply bind_returns in Hobjs as (custom & Hcustom & Hobjs).
  injection Hobjs as <-.
  apply mapM_result_inv in Hper, Hcustom. unfold range in *.
  assert (Hlib : Forall2 (fun q ys =>
                   Forall (fun o => is_custom o = false /\ Objective.phase o = q) ys)
                   (seq 0 (length per_phase)) per_phase).
  { replace (length per_phase) with nb_phases
      by (apply Forall2_length in Hper; now rewrite length_seq in Hper).
    eapply Forall2_impl; [exact Hper|]. intros q ys. apply phase_objectives_library. }
  assert (Hcus : Forall (fun o => is_custom o = true) custom).
  { apply Forall2_Forall_r with (1 := Hcustom). apply Forall_true.
    intros q o Ho. apply bind_returns in Ho as (g & _ & Ho). now injection Ho as <-. }
  assert (Hper_nc : Forall (Forall (fun o => is_custom o = false)) per_phase).
  { apply Forall2_Forall_r with (1 := Hlib). apply Forall_true.
    intros q ys Hys. eapply List.Forall_impl; [|exact Hys]. now intros o [? _]. }
  apply seq_Forall2_lookup in Hper as [Hlen Hper].
  apply seq_Forall2_lookup in Hcustom as [Hlenc Hcustom].
  assert (Hfilter : forall p, library_objectives p (concat per_phase ++ custom)
                              = default [] (per_phase !! p)).
  { intros p. rewrite library_objectives_app, (library_objectives_custom p custom Hcus).
    rewrite app_nil_r, (library_objectives_concat per_phase 0 Hlib p).
    simpl. now rewrite Nat.sub_0_r. }
  assert (Hcustoms : custom_objectives (concat per_phase ++ custom) = custom).
  { rewrite custom_objectives_app, (custom_objectives_concat _ Hper_nc).
    now rewrite (custom_objectives_same custom Hcus). }
  split; [|split; [|split]].
  - intros p Hp. destruct (Hper p Hp) as (ys & Hys & Hphase).
    apply phase_objectives_inv in Hphase
      as (markers & pelvis & anat & foot & tissus & ? & ? & ? & ? & ? & ->).
    exists markers, pelvis, anat, foot, tissus.
    rewrite Hfilter, Hys. repeat split; assumption.
  - intros p Hp. rewrite Hfilter.
    rewrite lookup_ge_None_2 by lia. reflexivity.
  - now rewrite Hcustoms.
  - intros p Hp. rewrite Hcustoms.
    destruct (Hcustom p Hp) as (o & Ho & Hbody).
    apply bind_returns in Hbody as (target & Htarget & Hbody).
    injection Hbody as <-. apply getitem_Ok in Htarget.
    exists target. split; [assumption|exact Ho].
Qed.

(** ** The dynamics *)

Lemma fold_left_snoc_map {A B} (f : A -> B) (l : list A) :
  forall acc, fold_left (fun acc x => acc ++ [f x]) l acc = acc ++ map f l.
Proof.
  induction l as [|x l IH]; intros acc; simpl.
  - now rewrite app_nil_r.
  - rewrite IH. now rewrite <- app_assoc.
Qed.

Lemma dynamics_structure (nb_phases : nat) :
  dynamics nb_phases
  = map (fun p => muscle_driven p (Some true)) (seq 0 (nb_phases - 1))
      ++ [muscle_driven 3 None].
Proof.
  unfold dynamics, range.
  now rewrite (fold_left_snoc_map (fun p => muscle_driven p (Some true))).
Qed.

Lemma dynamics_phases (nb_phases : nat) :
  map Dynamics.phase (dynamics nb_phases) = seq 0 (nb_phases - 1) ++ [3].
Proof.
  rewrite dynamics_structure, map_app, map_map. simpl.
  now rewrite map_id.
Qed.

Lemma dynamics_of_phase_length (p : nat) (l : list Dynamics.t) :
  length (dynamics_of_phase p l) = count_occ Nat.eq_dec (map Dynamics.phase l) p.
Proof.
  induction l as [|d l IH]; [reflexivity|].
  unfold dynamics_of_phase in *. simpl.
  destruct (Nat.eqb_spec (Dynamics.phase d) p), (Nat.eq_dec (Dynamics.phase d) p);
    simpl; try congruence; lia.
Qed.

Lemma count_occ_seq (k n p : nat) :
  count_occ Nat.eq_dec (seq k n) p = if (k <=? p) && (p <? k + n) then 1 else 0.
Proof.
  revert k. induction n as [|n IH]; intros k; simpl.
  - destruct (Nat.leb_spec k p), (Nat.ltb_spec p (k + 0)); simpl; lia.
  - rewrite IH.
    destruct (Nat.eq_dec k p), (Nat.leb_spec (S k) p), (Nat.ltb_spec p (S k + n)),
      (Nat.leb_spec k p), (Nat.ltb_spec p (k + S n)); simpl; lia.
Qed.

Lemma dynamics_count (nb_phases p : nat) :
  length (dynamics_of_phase p (dynamics nb_phases))
  = (if p <? nb_phases - 1 then 1 else 0) + (if p =? 3 then 1 else 0).
Proof.
  rewrite dynamics_of_phase_length, dynamics_phases, count_occ_app, count_occ_seq.
  cbn [count_occ Nat.leb andb Nat.add].
  destruct (Nat.eq_dec 3 p), (Nat.eqb_spec p 3); try lia; reflexivity.
Qed.

(** C9: when the model tuple is not empty (the dynamics block is reached),
    the dynamics list holds a MUSCLE_DRIVEN entry with contact for each phase
    0 .. nb_phases - 2, then a MUSCLE_DRIVEN entry without contact for phase
    3; every phase has exactly one entry if and only if the tuple has four
    models, and for another length the phases of the entries are not the
    phases of the tuple.  A returned program carries this list. *)
Theorem dynamics_per_phase (biorbd_model : list Model) (first : Model) :
  biorbd_model !! 0 = Some first ->
  let nb_phases := length biorbd_model in
  dynamics nb_phases
  = map (fun p => {| Dynamics.dynamics_type := DynamicsFcn.MUSCLE_DRIVEN;
                     Dynamics.phase := p;
                     Dynamics.with_contact := Some true;
                     Dynamics.with_torque := Some true;
                     Dynamics.expand := Some false |})
      (seq 0 (nb_phases - 1))
    ++ [ {| Dynamics.dynamics_type := DynamicsFcn.MUSCLE_DRIVEN;
            Dynamics.phase := 3;
            Dynamics.with_contact := None;
            Dynamics.with_torque := Some true;
            Dynamics.expand := Some false |} ]
  /\ ((forall p, p < nb_phases ->
         length (dynamics_of_phase p (dynamics nb_phases)) = 1)
      <-> nb_phases = 4)
  /\ (nb_phases <> 4 ->
      ~ Permutation (map Dynamics.phase (dynamics nb_phases)) (seq 0 nb_phases))
  /\ (forall fs final_time nb_shooting markers_ref grf_ref q_ref qdot_ref
        activation_ref nb_threads ode_solver ocp,
        prepare_ocp fs biorbd_model final_time nb_shooting markers_ref grf_ref
          q_ref qdot_ref activation_ref nb_threads ode_solver = Ok ocp ->
        OptimalControlProgram.dynamics ocp = dynamics nb_phases).
Proof.
  intros Hfirst nb_phases.
  assert (Hpos : 0 < nb_phases).
  { apply lookup_lt_Some in Hfirst. exact Hfirst. }
  split; [apply dynamics_structure|]. split; [|split].
  - split.
    + intros Hone.
      specialize (Hone (nb_phases - 1) ltac:(lia)).
      rewrite dynamics_count in Hone.
      destruct (Nat.ltb_spec (nb_phases - 1) (nb_phases - 1)); [lia|].
      destruct (Nat.eqb_spec (nb_phases - 1) 3); [lia|discriminate].
    + intros -> p Hp. rewrite dynamics_count.
      do 4 (destruct p as [|p]; [reflexivity|]). lia.
  - intros Hne Hperm. rewrite dynamics_phases in Hperm.
    apply Permutation_sym in Hperm.
    apply (Permutation_in (nb_phases - 1)) in Hperm; [|apply in_seq; lia].
    apply in_app_or in Hperm as [Hin|[Hin|[]]]; [apply in_seq in Hin; lia|lia].
  - intros fs final_time nb_shooting markers_ref grf_ref q_ref qdot_ref
      activation_ref nb_threads ode_solver ocp H.
    apply prepare_ocp_inv in H as (? & ? & ? & ? & ? & ? & ? & _ & _ & _ & _ & _ & ->).
    reflexivity.
Qed.

(** ** The bounds *)

(** A loop that appends to two lists at once. *)
Lemma for_each_snoc2 {A B C} (f : A -> result (B * C)) (l : list A) :
  forall (bs : list B) (cs : list C),
    for_each l (fun x '(bs, cs) => '(b, c) ← f x; Ok (bs ++ [b], cs ++ [c]))
      (bs, cs)
    = (ys ← mapM f l; Ok (bs ++ map fst ys, cs ++ map snd ys)).
Proof.
  induction l as [|x l IH]; intros bs cs; simpl.
  - now rewrite !app_nil_r.
  - destruct (f x) as [[b c]|e]; simpl; [|reflexivity].
    rewrite IH. destruct (mapM f l) as [ys|e]; simpl; [|reflexivity].
    now rewrite <- !app_assoc.
Qed.

Lemma getitem_middle {A} (pre l : list A) (x : A) :
  getitem (pre ++ x :: l) (length pre) = Ok x.
Proof. apply getitem_Ok. now rewrite list_lookup_middle. Qed.

Lemma mapM_getitem_seq {A B} (g : A -> B) (l : list A) :
  forall pre,
    mapM (fun p => x ← getitem (pre ++ l) p; Ok (g x)) (seq (length pre) (length l))
    = Ok (map g l).
Proof.
  induction l as [|x l IH]; intros pre; [reflexivity|].
  cbn [length seq mapM map].
  rewrite getitem_middle, bind_Ok.
  specialize (IH (pre ++ [x])).
  rewrite <- app_assoc, length_app, Nat.add_1_r in IH. cbn [app] in IH.
  rewrite IH. reflexivity.
Qed.

Lemma bounds_structure (biorbd_model : list Model) (nb_tau nb_mus : nat) :
  bounds biorbd_model nb_tau nb_mus
  = Ok (map QAndQDotBounds biorbd_model,
        replicate (length biorbd_model)
          (MinMax
             (replicate nb_tau (Int (-1000)) ++ replicate nb_mus (Float float_0_001))
             (replicate nb_tau (Int 1000) ++ replicate nb_mus (Float float_1_0)))).
Proof.
  unfold bounds. cbn zeta.
  set (u := MinMax _ _).
  rewrite for_each_ext with
    (body' := fun p '(xb, ub) =>
                '(b, c) ← (m ← getitem biorbd_model p; Ok (QAndQDotBounds m, u));
                Ok (xb ++ [b], ub ++ [c])).
  - rewrite for_each_snoc2. unfold range.
    pose proof (mapM_getitem_seq (fun m => (QAndQDotBounds m, u)) biorbd_model [])
      as Hmap.
    cbn [app length] in Hmap. rewrite Hmap, bind_Ok. cbn [app]. rewrite !map_map. cbn [fst snd].
    f_equal. f_equal. clear Hmap.
    induction biorbd_model as [|m l IH]; [reflexivity|].
    cbn [map length replicate]. now rewrite IH.
  - intros p [xb ub] _. now destruct (getitem biorbd_model p).
Qed.


(** ** The constraints *)

Lemma prefix_spec (sub s : string) :
  String.prefix sub s = true <-> exists post, s = String.append sub post.
Proof.
  revert s. induction sub as [|a sub IH]; intros s.
  - split; [|now destruct s]. intros _. exists s. now rewrite append_nil.
  - destruct s as [|b s]; simpl.
    + split; [discriminate|]. intros [post H]. rewrite append_cons in H. discriminate.
    + destruct (Ascii.ascii_dec a b) as [->|Hne].
      * rewrite IH. split; intros [post H]; exists post.
        -- rewrite append_cons. now rewrite H.
        -- rewrite append_cons in H. now injection H.
      * split; [discriminate|]. intros [post H]. rewrite append_cons in H.
        injection H as H _. congruence.
Qed.

Lemma contains_spec (sub s : string) :
  contains sub s = true <-> occurs_in sub s.
Proof.
  unfold occurs_in. induction s as [|a s IH].
  - cbn [contains]. rewrite orb_false_r, prefix_spec. split.
    + intros [post H]. exists EmptyString, post. now rewrite append_nil.
    + intros ([|b pre] & post & H); rewrite ?append_cons, ?append_nil in H;
        [now exists post | discriminate].
  - cbn [contains]. rewrite orb_true_iff, prefix_spec, IH. split.
    + intros [[post H]|(pre & post & H)].
      * exists EmptyString, post. now rewrite append_nil.
      * exists (String a pre), post. rewrite append_cons. now rewrite H.
    + intros ([|b pre] & post & H); rewrite ?append_cons, ?append_nil in H.
      * left. now exists post.
      * right. injection H as _ H. now exists pre, post.
Qed.

Lemma filter_enumerate_flags {A} (f : A -> bool) (l : list A) :
  forall k,
    map fst (List.filter (fun '(i, x) => f x) (combine (seq k (length l)) l))
    = map fst (List.filter snd (combine (seq k (length (map f l))) (map f l))).
Proof.
  induction l as [|x l IH]; intros k; [reflexivity|].
  simpl. destruct (f x); simpl; now rewrite IH.
Qed.

Lemma named_indices (sub : string) (names : list string) :
  let r := map fst (List.filter (fun '(i, name) => contains sub name)
                      (enumerate names)) in
  StronglySorted lt r
  /\ forall i, In i r <-> exists name, names !! i = Some name /\ occurs_in sub name.
Proof.
  unfold enumerate. rewrite (filter_enumerate_flags (contains sub)).
  destruct (flagged_indices (map (contains sub) names) 0) as (Hsort & _ & Hin).
  split; [exact Hsort|]. intros i.
  rewrite (Hin i), list_lookup_fmap.
  destruct (names !! i) as [name|]; simpl.
  - split.
    + intros H. exists name. split; [reflexivity|].
      apply contains_spec. congruence.
    + intros (name' & Hn & Hc). injection Hn as <-.
      apply contains_spec in Hc. now rewrite Hc.
  - split; [discriminate|]. intros (? & ? & _). discriminate.
Qed.

(** C8: in a program [prepare_ocp] returns, the constraints are: for phase
    0, the velocity and the height of the heel marker at the first node; for
    phase 1, the height of the two metatarsal markers at the first node, the
    contact forces of indices 0, 1, 4 within [0, +inf) at all nodes,
    NON_SLIPPING with static friction coefficient 0.5 at all nodes, and the
    contact forces of the flatfoot model whose name contains Heel_r at the
    penultimate node, with no bound given: the bounds bioptim enforces on
    them are both zero; for phase 2, the contact forces of indices 0, 3, 4
    within [0, +inf) at all nodes and NON_SLIPPING with coefficient 0.5.
    The phase transitions are two IMPACT ones, after phase 0 and after
    phase 1. *)
Theorem prepare_ocp_constraints fs biorbd_model final_time nb_shooting
    markers_ref grf_ref q_ref qdot_ref activation_ref nb_threads ode_solver ocp :
  prepare_ocp fs biorbd_model final_time nb_shooting markers_ref grf_ref
    q_ref qdot_ref activation_ref nb_threads ode_solver = Ok ocp ->
  let tracked_markers fcn marker_index axes p :=
    {| Constraint.constraint := fcn;
       Constraint.node := Some Node.START;
       Constraint.marker_index := Some marker_index;
       Constraint.axes := axes;
       Constraint.min_bound := None;
       Constraint.max_bound := None;
       Constraint.contact_index := None;
       Constraint.tangential_component_idx := None;
       Constraint.normal_component_idx := None;
       Constraint.static_friction_coefficient := None;
       Constraint.phase := p |} in
  let tracked_contact_forces node min_bound max_bound contact_index p :=
    {| Constraint.constraint := ConstraintFcn.TRACK_CONTACT_FORCES;
       Constraint.node := Some node;
       Constraint.marker_index := None;
       Constraint.axes := None;
       Constraint.min_bound := min_bound;
       Constraint.max_bound := max_bound;
       Constraint.contact_index := Some contact_index;
       Constraint.tangential_component_idx := None;
       Constraint.normal_component_idx := None;
       Constraint.static_friction_coefficient := None;
       Constraint.phase := p |} in
  let no_slipping tangential normal p :=
    {| Constraint.constraint := ConstraintFcn.NON_SLIPPING;
       Constraint.node := Some Node.ALL;
       Constraint.marker_index := None;
       Constraint.axes := None;
       Constraint.min_bound := None;
       Constraint.max_bound := None;
       Constraint.contact_index := None;
       Constraint.tangential_component_idx := Some tangential;
       Constraint.normal_component_idx := Some normal;
       Constraint.static_friction_coefficient := Some (Float (Prim2SF 0.5%float));
       Constraint.phase := p |} in
  exists flatfoot heel,
    biorbd_model !! 1 = Some flatfoot
    /\ StronglySorted lt heel
    /\ (forall i, In i heel
                  <-> exists name, contactNames flatfoot !! i = Some name
                                   /\ occurs_in "Heel_r" name)
    /\ OptimalControlProgram.constraints ocp
       = [tracked_markers ConstraintFcn.TRACK_MARKERS_VELOCITY
            (Constraint.One 26) None 0;
          tracked_markers ConstraintFcn.TRACK_MARKERS
            (Constraint.One 26) (Some Axis.Z) 0;
          tracked_markers ConstraintFcn.TRACK_MARKERS
            (Constraint.Many [27; 28]) (Some Axis.Z) 1;
          tracked_contact_forces Node.ALL
            (Some (Int 0)) (Some (Float (S754_infinity false))) [0; 1; 4] 1;
          no_slipping [2; 3] [0; 1; 4] 1;
          tracked_contact_forces Node.PENULTIMATE None None heel 1;
          tracked_contact_forces Node.ALL
            (Some (Int 0)) (Some (Float (S754_infinity false))) [0; 3; 4] 2;
          no_slipping [1; 2] [0; 3; 4] 2]
    /\ map (fun c => (Constraint.enforced_min c, Constraint.enforced_max c))
         (List.filter
            (fun c => match Constraint.contact_index c with
                      | Some _ => true
                      | None => false
                      end)
            (OptimalControlProgram.constraints ocp))
       = [(Int 0, Float (S754_infinity false));
          (Int 0, Int 0);
          (Int 0, Float (S754_infinity false))]
    /\ OptimalControlProgram.phase_transitions ocp
       = [ {| PhaseTransition.transition := PhaseTransitionFcn.IMPACT;
              PhaseTransition.phase_pre_idx := 0 |};
           {| PhaseTransition.transition := PhaseTransitionFcn.IMPACT;
              PhaseTransition.phase_pre_idx := 1 |} ].
Proof.
  intros H tracked_markers tracked_contact_forces no_slipping.
  apply prepare_ocp_inv in H
    as (first & objs & cons & xb & ub & xi & ui & _ & _ & Hcons & _ & _ & ->).
  unfold constraints in Hcons. cbn zeta in Hcons.
  apply bind_returns in Hcons as (flatfoot & Hflat & Hcons).
  injection Hcons as <-. apply getitem_Ok in Hflat.
  destruct (named_indices "Heel_r" (contactNames flatfoot)) as [Hsort Hin].
  eexists flatfoot, _. split; [exact Hflat|]. split; [exact Hsort|].
  split; [exact Hin|]. repeat split; reflexivity.
Qed.

(** ** The initial guesses *)

Lemma initial_guesses_structure fs nb_phases :
  initial_guesses fs nb_phases
  = ('(ocp_previous, sol_previous) ← OptimalControlProgram.load fs "gait.bo";
     guesses ← mapM (phase_guess sol_previous) (range nb_phases);
     Ok (map fst guesses, map snd guesses)).
Proof.
  unfold initial_guesses.
  destruct (OptimalControlProgram.load fs "gait.bo") as [[ocp_previous sol_previous]|e];
    [|reflexivity].
  rewrite !bind_Ok.
  rewrite for_each_ext with
    (body' := fun p '(xs, us) =>
                '(x, u) ← phase_guess sol_previous p; Ok (xs ++ [x], us ++ [u])).
  - now rewrite for_each_snoc2.
  - intros p [xs us] _. unfold phase_guess.
    destruct (getitem (Solution.states sol_previous) p); [|reflexivity].
    rewrite !bind_Ok.
    destruct (dict_getitem _ "all"); [|reflexivity]. rewrite !bind_Ok.
    destruct (getitem (Solution.controls sol_previous) p); [|reflexivity].
    rewrite !bind_Ok.
    destruct (dict_getitem _ "all"); [|reflexivity]. rewrite !bind_Ok.
    now destruct (drop_last_axis1 _).
Qed.

Lemma dict_getitem_Ok {A} (d : gmap string A) (k : string) (a : A) :
  dict_getitem d k = Ok a <-> d !! k = Some a.
Proof. unfold dict_getitem. destruct (d !! k); split; congruence. Qed.

Lemma phase_guess_inv sol p x u :
  phase_guess sol p = Ok (x, u) ->
  exists states_p xa controls_p u_all ua,
    Solution.states sol !! p = Some states_p
    /\ states_p !! "all" = Some xa
    /\ x = each_frame xa
    /\ Solution.controls sol !! p = Some controls_p
    /\ controls_p !! "all" = Some u_all
    /\ drop_last_axis1 u_all = Ok ua
    /\ u = each_frame ua.
Proof.
  unfold phase_guess. intros H.
  apply bind_returns in H as (states_p & Hs & H).
  apply bind_returns in H as (xa & Hx & H).
  apply bind_returns in H as (controls_p & Hc & H).
  apply bind_returns in H as (u_all & Hu & H).
  apply bind_returns in H as (ua & Hd & H).
  injection H as <- <-.
  apply getitem_Ok in Hs, Hc. apply dict_getitem_Ok in Hx, Hu.
  exists states_p, xa, controls_p, u_all, ua. repeat split; assumption.
Qed.

Lemma prepare_ocp_same_file fs fs' biorbd_model final_time nb_shooting
    markers_ref grf_ref nb_threads ode_solver
    q_ref qdot_ref activation_ref q_ref' qdot_ref' activation_ref' :
  fs !! "gait.bo" = fs' !! "gait.bo" ->
  prepare_ocp fs biorbd_model final_time nb_shooting markers_ref grf_ref
    q_ref qdot_ref activation_ref nb_threads ode_solver
  = prepare_ocp fs' biorbd_model final_time nb_shooting markers_ref grf_ref
      q_ref' qdot_ref' activation_ref' nb_threads ode_solver.
Proof.
  intros Hfile. unfold prepare_ocp.
  replace (initial_guesses fs' (length biorbd_model))
    with (initial_guesses fs (length biorbd_model)); [reflexivity|].
  unfold initial_guesses, OptimalControlProgram.load. now rewrite Hfile.
Qed.

(** C2: two calls of [prepare_ocp] that differ only in [q_ref], [qdot_ref]
    and [activation_ref], over files that agree on [gait.bo], give the same
    result; in a returned program the initial guesses of every phase are the
    states and the controls (their last column dropped) of the solution
    saved in [gait.bo], one guess per frame. *)
Theorem prepare_ocp_ignores_references fs fs' biorbd_model final_time
    nb_shooting markers_ref grf_ref nb_threads ode_solver
    q_ref qdot_ref activation_ref q_ref' qdot_ref' activation_ref' :
  fs !! "gait.bo" = fs' !! "gait.bo" ->
  prepare_ocp fs biorbd_model final_time nb_shooting markers_ref grf_ref
    q_ref qdot_ref activation_ref nb_threads ode_solver
  = prepare_ocp fs' biorbd_model final_time nb_shooting markers_ref grf_ref
      q_ref' qdot_ref' activation_ref' nb_threads ode_solver
  /\ forall ocp,
       prepare_ocp fs biorbd_model final_time nb_shooting markers_ref grf_ref
         q_ref qdot_ref activation_ref nb_threads ode_solver = Ok ocp ->
       exists ocp_previous sol_previous,
         fs !! "gait.bo" = Some (ocp_previous, sol_previous)
         /\ length (OptimalControlProgram.x_init ocp) = length biorbd_model
         /\ length (OptimalControlProgram.u_init ocp) = length biorbd_model
         /\ forall p, p < length biorbd_model ->
              exists states_p x controls_p u_all u,
                Solution.states sol_previous !! p = Some states_p
                /\ states_p !! "all" = Some x
                /\ OptimalControlProgram.x_init ocp !! p = Some (each_frame x)
                /\ Solution.controls sol_previous !! p = Some controls_p
                /\ controls_p !! "all" = Some u_all
                /\ drop_last_axis1 u_all = Ok u
                /\ OptimalControlProgram.u_init ocp !! p = Some (each_frame u).
Proof.
  intros Hfile. split; [now apply prepare_ocp_same_file|].
  intros ocp H.
  apply prepare_ocp_inv in H
    as (first & objs & cons & xb & ub & xi & ui & _ & _ & _ & _ & Hinit & ->).
  cbn [OptimalControlProgram.x_init OptimalControlProgram.u_init].
  rewrite initial_guesses_structure in Hinit.
  apply bind_returns in Hinit as ([ocp_previous sol_previous] & Hload & Hinit).
  apply bind_returns in Hinit as (guesses & Hguesses & Hinit).
  injection Hinit as <- <-.
  unfold OptimalControlProgram.load in Hload.
  destruct (fs !! "gait.bo") as [saved|] eqn:Hsaved; [|discriminate].
  injection Hload as ->.
  apply mapM_result_inv in Hguesses. unfold range in Hguesses.
  apply seq_Forall2_lookup in Hguesses as [Hlen Hguesses].
  exists ocp_previous, sol_previous. split; [reflexivity|].
  rewrite !length_map. split; [exact Hlen|]. split; [exact Hlen|].
  intros p Hp. destruct (Hguesses p Hp) as ([x u] & Hlook & Hguess).
  apply phase_guess_inv in Hguess
    as (states_p & xa & controls_p & u_all & ua & ? & ? & -> & ? & ? & ? & ->).
  exists states_p, xa, controls_p, u_all, ua.
  rewrite !list_lookup_fmap, Hlook. repeat split; assumption.
Qed.

(** ** [prepare_ocp] on a well-formed input *)

Lemma mapM_result_returns {A B} (f : A -> result B) (l : list A) :
  Forall (fun x => returns (f x)) l -> returns (mapM f l).
Proof.
  induction 1 as [|x l [y Hy] _ [ys IH]]; simpl.
  - now exists [].
  - rewrite Hy, IH. now exists (y :: ys).
Qed.

Lemma take_axis1_returns (a : ndarray) (idx : list nat) :
  markers_array a -> Forall (fun j => j < 26) idx -> returns (take_axis1 a idx).
Proof.
  intros (n0 & n1 & n2 & rest & Hshape & Hn1) Hidx.
  unfold take_axis1. rewrite Hshape.
  replace (forallb (fun j => j <? n1) idx) with true; [eexists; reflexivity|].
  symmetry. apply forallb_forall. intros j Hj.
  rewrite List.Forall_forall in Hidx. apply Hidx in Hj.
  apply Nat.ltb_lt. lia.
Qed.

Lemma markers_in_range :
  Forall (Forall (fun j => j < 26)) markers_index.
Proof. repeat constructor. Qed.

Lemma phase_objectives_returns markers_ref p a :
  markers_ref !! p = Some a -> markers_array a ->
  returns (phase_objectives markers_ref p).
Proof.
  intros Hp Ha. unfold phase_objectives.
  apply getitem_Ok in Hp. rewrite Hp, bind_Ok.
  pose proof markers_in_range as Hidx. unfold markers_index in Hidx.
  inversion_clear Hidx as [|? ? H0 Hidx']. inversion_clear Hidx' as [|? ? H1 Hidx].
  inversion_clear Hidx as [|? ? H2 Hidx']. inversion_clear Hidx' as [|? ? H3 _].
  destruct (take_axis1_returns a _ Ha H0) as [t0 ->].
  destruct (take_axis1_returns a _ Ha H1) as [t1 ->].
  destruct (take_axis1_returns a _ Ha H2) as [t2 ->].
  destruct (take_axis1_returns a _ Ha H3) as [t3 ->].
  eexists. reflexivity.
Qed.

Lemma phase_guess_returns sol p :
  saved_phase sol p -> returns (phase_guess sol p).
Proof.
  intros [(states_p & x & Hs & Hx)
          (controls_p & u & n0 & n1 & rest & Hc & Hu & Hshape)].
  unfold phase_guess.
  apply getitem_Ok in Hs, Hc. apply dict_getitem_Ok in Hx, Hu.
  rewrite Hs, bind_Ok, Hx, bind_Ok, Hc, bind_Ok, Hu, bind_Ok.
  unfold drop_last_axis1. rewrite Hshape. eexists. reflexivity.
Qed.

Lemma Forall_range (P : nat -> Prop) (n : nat) :
  (forall p, p < n -> P p) -> Forall P (range n).
Proof.
  intros H. apply List.Forall_forall. intros p Hp.
  apply in_seq in Hp. apply H. lia.
Qed.

Lemma prepare_ocp_returns fs biorbd_model final_time nb_shooting
    markers_ref grf_ref q_ref qdot_ref activation_ref nb_threads ode_solver :
  well_formed fs biorbd_model markers_ref grf_ref ->
  returns (prepare_ocp fs biorbd_model final_time nb_shooting markers_ref
             grf_ref q_ref qdot_ref activation_ref nb_threads ode_solver).
Proof.
  intros (Hlen & Hmarkers & Hgrf & ocp_previous & sol_previous & Hfile & Hsol).
  unfold prepare_ocp.
  destruct biorbd_model as [|heel [|flatfoot rest]]; try discriminate.
  change (getitem (heel :: flatfoot :: rest) 0) with (Ok (A:=Model) heel).
  rewrite bind_Ok. rewrite Hlen.
  (* the objectives *)
  rewrite objective_functions_structure.
  destruct (mapM_result_returns (phase_objectives markers_ref) (range 4))
    as [per_phase ->].
  { apply Forall_range. intros p Hp. destruct (Hmarkers p Hp) as (a & Ha & Hwf).
    now apply (phase_objectives_returns markers_ref p a). }
  rewrite bind_Ok.
  destruct (mapM_result_returns
              (fun p => target ← getitem grf_ref p;
                        Ok (track_contact_forces_objective target p))
              (range (4 - 1))) as [custom ->].
  { apply Forall_range. intros p Hp.
    destruct (lookup_lt_is_Some_2 grf_ref p ltac:(lia)) as [g Hg].
    apply getitem_Ok in Hg. rewrite Hg. eexists. reflexivity. }
  rewrite !bind_Ok.
  (* the constraints *)
  unfold constraints. cbn zeta.
  change (getitem (heel :: flatfoot :: rest) 1) with (Ok (A:=Model) flatfoot).
  rewrite !bind_Ok.
  (* the bounds *)
  rewrite bounds_structure, bind_Ok.
  (* the initial guesses *)
  rewrite initial_guesses_structure.
  unfold OptimalControlProgram.load. rewrite Hfile, bind_Ok.
  destruct (mapM_result_returns (phase_guess sol_previous) (range 4))
    as [guesses ->].
  { apply Forall_range. intros p Hp. now apply phase_guess_returns, Hsol. }
  rewrite !bind_Ok. eexists. reflexivity.
Qed.

(** ** [main] *)

Lemma main_inv biorbd_Model new_LoadData IPOPT solve kind file fs ocp sol fs' :
  main biorbd_Model new_LoadData IPOPT solve kind file fs = Ok (ocp, sol, fs') ->
  exists heel flatfoot forefoot swing data phase_time number_shooting_points
         q_ref qdot_ref markers_ref grf_ref moments_ref cop_ref emg_ref,
    get_phase_time_shooting_numbers kind data float_0_01
    = Ok (phase_time, number_shooting_points)
    /\ get_experimental_data data number_shooting_points phase_time
       = Ok (q_ref, qdot_ref, markers_ref, grf_ref, moments_ref, cop_ref, emg_ref)
    /\ prepare_ocp fs [heel; flatfoot; forefoot; swing] phase_time
         number_shooting_points markers_ref grf_ref q_ref qdot_ref emg_ref
         8 OdeSolver.RK4 = Ok ocp
    /\ solve ocp (configured_solver IPOPT) = Ok sol
    /\ fs' = OptimalControlProgram.save fs ocp sol "gait_test.bo".
Proof.
  unfold main. intros H.
  apply bind_returns in H as (heel & _ & H).
  apply bind_returns in H as (flatfoot & _ & H).
  apply bind_returns in H as (forefoot & _ & H).
  apply bind_returns in H as (swing & _ & H).
  apply bind_returns in H as (first & _ & H).
  apply bind_returns in H as (data & _ & H).
  apply bind_returns in H as ([phase_time nsp] & Htime & H).
  apply bind_returns in H as ([[[[[[q_ref qdot_ref] markers_ref] grf_ref]
                                   moments_ref] cop_ref] emg_ref] & Hdata & H).
  apply bind_returns in H as (ocp' & Hocp & H).
  apply bind_returns in H as (sol' & Hsol & H).
  injection H as <- <- <-.
  exists heel, flatfoot, forefoot, swing, data, phase_time, nsp,
    q_ref, qdot_ref, markers_ref, grf_ref, moments_ref, cop_ref, emg_ref.
  repeat split; assumption.
Qed.

(** C1: on a well-formed input [prepare_ocp] returns the program made of
    the objectives, dynamics, constraints, bounds, initial guesses and phase
    transitions it builds, with [biorbd_model], [nb_shooting], [final_time],
    [nb_threads] and [ode_solver] handed over as they are; and the solution
    [main] obtains is the answer of the external solver, called through
    [ocp.solve] on the program [prepare_ocp] returned. *)
Theorem prepare_ocp_assembles fs biorbd_model final_time nb_shooting
    markers_ref grf_ref q_ref qdot_ref activation_ref nb_threads ode_solver :
  (well_formed fs biorbd_model markers_ref grf_ref ->
   exists first objs cons xb ub xi ui,
     biorbd_model !! 0 = Some first
     /\ objective_functions (length biorbd_model) markers_ref grf_ref = Ok objs
     /\ constraints biorbd_model = Ok cons
     /\ bounds biorbd_model (nbGeneralizedTorque first) (nbMuscleTotal first)
        = Ok (xb, ub)
     /\ initial_guesses fs (length biorbd_model) = Ok (xi, ui)
     /\ prepare_ocp fs biorbd_model final_time nb_shooting markers_ref grf_ref
          q_ref qdot_ref activation_ref nb_threads ode_solver
        = Ok {| OptimalControlProgram.biorbd_model := biorbd_model;
                OptimalControlProgram.dynamics := dynamics (length biorbd_model);
                OptimalControlProgram.n_shooting := nb_shooting;
                OptimalControlProgram.phase_time := final_time;
                OptimalControlProgram.x_init := xi;
                OptimalControlProgram.u_init := ui;
                OptimalControlProgram.x_bounds := xb;
                OptimalControlProgram.u_bounds := ub;
                OptimalControlProgram.objective_functions := objs;
                OptimalControlProgram.constraints := cons;
                OptimalControlProgram.phase_transitions := phase_transitions;
                OptimalControlProgram.n_threads := nb_threads;
                OptimalControlProgram.ode_solver := ode_solver |})
  /\ (forall biorbd_Model new_LoadData IPOPT solve kind file ocp sol fs',
        main biorbd_Model new_LoadData IPOPT solve kind file fs
        = Ok (ocp, sol, fs') ->
        solve ocp (configured_solver IPOPT) = Ok sol
        /\ exists models times shooting markers grf q qdot emg,
             prepare_ocp fs models times shooting markers grf q qdot emg
               8 OdeSolver.RK4 = Ok ocp).
Proof.
  split.
  - intros Hwf.
    destruct (prepare_ocp_returns fs biorbd_model final_time nb_shooting
                markers_ref grf_ref q_ref qdot_ref activation_ref nb_threads
                ode_solver Hwf) as [ocp Hocp].
    destruct (prepare_ocp_inv _ _ _ _ _ _ _ _ _ _ _ _ Hocp)
      as (first & objs & cons & xb & ub & xi & ui & ? & ? & ? & ? & ? & ->).
    exists first, objs, cons, xb, ub, xi, ui. repeat split; assumption.
  - intros biorbd_Model new_LoadData IPOPT solve kind file ocp sol fs' H.
    apply main_inv in H
      as (heel & flatfoot & forefoot & swing & data & phase_time & nsp
          & q_ref' & qdot_ref' & markers_ref' & grf_ref' & _ & _ & emg_ref'
          & _ & _ & Hocp & Hsol & _).
    split; [exact Hsol|]. eauto 10.
Qed.

(** ** [get_phase_time_shooting_numbers]: result and failures *)

(** C4 (amended): for a step [dt] that is not zero, when the quotients of
    the phase times by [dt] are finite floats,
    [get_phase_time_shooting_numbers] returns the phase times of the data
    as they are, paired with a list of the same length whose i-th element
    is the quotient [phase_time[i] / dt] rounded toward zero; a phase
    shorter than [dt] (more generally, a quotient below one) gives 0
    shooting points.  When the quotient of a phase time is an infinity or
    not a number, [int] raises (OverflowError or ValueError) and nothing is
    returned. *)
Theorem get_phase_time_shooting_numbers_spec
    (k : float_kind) (data : LoadData) (dt : float) :
  is_zero dt = false ->
  let phase_time := get_time (c3d_data data) in
  (Forall (fun time => is_finite (float_div time dt) = true) phase_time ->
   exists number_shooting_points,
     get_phase_time_shooting_numbers k data dt
     = Ok (phase_time, number_shooting_points)
     /\ length number_shooting_points = length phase_time
     /\ (forall i time,
           phase_time !! i = Some time ->
           number_shooting_points !! i = Some (toward_zero (float_div time dt)))
     /\ (forall i time,
           phase_time !! i = Some time ->
           below_one (float_div time dt) ->
           number_shooting_points !! i = Some 0%Z)
     /\ (forall i time,
           phase_time !! i = Some time ->
           binary64 time -> binary64 dt ->
           float_le float_0_0 time = true ->
           float_lt time dt = true ->
           number_shooting_points !! i = Some 0%Z))
  /\ (forall time,
        In time phase_time ->
        is_finite (float_div time dt) = false ->
        exists e,
          get_phase_time_shooting_numbers k data dt = Raise e
          /\ (e = OverflowError \/ e = ValueError)).
Proof.
  intros Hdt phase_time. split; [intros Hfin|].
  2: { intros time Hin Hnot.
       rewrite get_phase_time_shooting_numbers_mapM. fold phase_time.
       destruct (mapM (fun time => q ← truediv k time dt; int_of_float q)
                   phase_time) as [ns|e] eqn:Hns.
       - exfalso. apply mapM_result_inv in Hns.
         apply list_elem_of_In, list_elem_of_lookup_1 in Hin as [i Hi].
         destruct (Forall2_lookup_l _ _ _ _ _ Hns Hi) as (n & _ & Hn).
         cbn beta in Hn. rewrite (truediv_nonzero k time dt Hdt), bind_Ok in Hn.
         assert (Hfin : is_finite (float_div time dt) = true)
           by (apply int_of_float_returns; now exists n).
         congruence.
       - exists e. split; [reflexivity|].
         apply mapM_result_raise_inv in Hns as (x & _ & Hx).
         rewrite (truediv_nonzero k x dt Hdt), bind_Ok in Hx.
         apply int_of_float_raises in Hx as [[-> _]|[-> _]]; auto. }
  exists (map (fun time => toward_zero (float_div time dt)) phase_time).
  assert (Hi : forall i time,
             phase_time !! i = Some time ->
             map (fun time => toward_zero (float_div time dt)) phase_time !! i
             = Some (toward_zero (float_div time dt))).
  { intros i time Hi. now rewrite list_lookup_fmap, Hi. }
  assert (Hsmall : forall i time,
             phase_time !! i = Some time ->
             below_one (float_div time dt) ->
             map (fun time => toward_zero (float_div time dt)) phase_time !! i
             = Some 0%Z).
  { intros i time Hlook Hsmall. rewrite (Hi i time Hlook).
    now rewrite (toward_zero_below_one _ Hsmall). }
  split; [|split; [apply length_map|split; [exact Hi|split; [exact Hsmall|]]]].
  - rewrite get_phase_time_shooting_numbers_mapM. fold phase_time.
    rewrite (mapM_result_Ok _ (fun time => toward_zero (float_div time dt)));
      [reflexivity|].
    eapply List.Forall_impl; [|exact Hfin]. intros time Htime. cbn beta in *.
    rewrite (truediv_nonzero k time dt Hdt), bind_Ok.
    now apply int_of_float_toward_zero.
  - intros i time Hlook Htime Hdt' Hle Hlt. apply (Hsmall i time Hlook).
    now apply float_div_below_one.
Qed.

(** C10: [get_phase_time_shooting_numbers] returns on phase times only if
    each of them is finite and [dt] is not zero; with [dt] zero it raises
    as soon as there is a phase time to convert. *)
Theorem get_phase_time_shooting_numbers_total_only
    (k : float_kind) (data : LoadData) (dt : float) :
  get_time (c3d_data data) <> [] ->
  (returns (get_phase_time_shooting_numbers k data dt) ->
   is_zero dt = false
   /\ Forall (fun time => is_finite time = true) (get_time (c3d_data data)))
  /\ (is_zero dt = true -> raises (get_phase_time_shooting_numbers k data dt)).
Proof.
  intros Hne.
  assert (Hret : returns (get_phase_time_shooting_numbers k data dt) ->
                 Forall (fun time => is_finite time = true /\ is_zero dt = false)
                   (get_time (c3d_data data))).
  { intros [[times ns] H]. rewrite get_phase_time_shooting_numbers_mapM in H.
    apply bind_returns in H as (ns' & Hns & _).
    apply mapM_result_inv in Hns.
    apply Forall2_Forall_l with (1 := Hns). apply Forall_true.
    intros n time Hn. apply (truediv_int_returns k). now exists n. }
  assert (Hboth : returns (get_phase_time_shooting_numbers k data dt) ->
                  is_zero dt = false
                  /\ Forall (fun time => is_finite time = true)
                       (get_time (c3d_data data))).
  { intros H. apply Hret in H. split.
    - destruct (get_time (c3d_data data)) as [|time times]; [congruence|].
      inversion H as [|? ? [_ Hz] _]. exact Hz.
    - eapply List.Forall_impl; [|exact H]. now intros time [? _]. }
  split; [exact Hboth|].
  intros Hzero.
  destruct (get_phase_time_shooting_numbers k data dt) as [r|e] eqn:Hrun.
  - destruct Hboth as [Hz _]; [now exists r|]. congruence.
  - now exists e.
Qed.

(** ** The definitions on the worked input *)

Example take_axis1_example :
  take_axis1 (arange [2; 3; 2]) [2; 0]
  = Ok {| shape := [2; 2; 2];
          data := map (nth_default float_0_0 (data (arange [2; 3; 2])))
                    [4; 5; 0; 1; 10; 11; 6; 7] |}.
Proof. vm_compute. reflexivity. Qed.

Example take_axis1_out_of_range :
  take_axis1 (arange [2; 3; 2]) [3] = Raise IndexError.
Proof. reflexivity. Qed.

Example drop_last_axis1_example :
  drop_last_axis1 (arange [2; 3])
  = Ok {| shape := [2; 2];
          data := map (nth_default float_0_0 (data (arange [2; 3]))) [0; 1; 3; 4] |}.
Proof. vm_compute. reflexivity. Qed.

Example root_path_example :
  root_path "/home/user/gait_ocp/main.py" = "/home/user/gait_ocp/".
Proof. vm_compute. reflexivity. Qed.

Example get_contact_index_example :
  get_contact_index example_node "Z" = Ok [0; 1; 4]
  /\ get_contact_index example_node "X" = Ok [2]
  /\ get_contact_index example_node "W" = Ok [].
Proof. repeat split; vm_compute; reflexivity. Qed.

Example shooting_numbers_example :
  get_phase_time_shooting_numbers builtin_float
    (example_data [float_0_3; float_0_005]) float_0_01
  = Ok ([float_0_3; float_0_005], [30; 0]%Z).
Proof. vm_compute. reflexivity. Qed.

Example prepare_ocp_example :
  prepare_ocp example_files example_models example_times example_shooting
    example_markers example_grf [] [] [] 8 OdeSolver.RK4
  = Ok example_program.
Proof. vm_compute. reflexivity. Qed.

Example configured_solver_example :
  configured_solver example_solver
  = {| Solver.linear_solver := "mumps";
       Solver.convergence_tolerance := float_0_001;
       Solver.hessian_approximation := "exact";
       Solver.maximum_iterations := 3000;
       Solver.show_online_optim := false |}.
Proof. reflexivity. Qed.

(** [main] over a loader that gives the flatfoot model for every file, the
    worked data and a solver that answers the saved solution. *)
Example main_example :
  exists ocp,
    main (fun file => Ok (example_model file flatfoot_names))
      (fun _ _ _ _ => Ok (example_data example_times))
      example_solver (fun _ _ => Ok example_solution) builtin_float
      "/home/user/gait_ocp/main.py" example_files
    = Ok (ocp, example_solution,
          <["gait_test.bo" := (ocp, example_solution)]> example_files)
    /\ OptimalControlProgram.n_shooting ocp = example_shooting
    /\ OptimalControlProgram.n_threads ocp = 8%Z.
Proof. eexists. vm_compute. repeat split. Qed.

(** A phase of 0.005 s is shorter than the step 0.01 s: no shooting point. *)
Example short_phase_example :
  float_lt float_0_005 float_0_01 = true
  /\ int_of_float (float_div float_0_005 float_0_01) = Ok 0%Z.
Proof. split; vm_compute; reflexivity. Qed.

(** A quotient that overflows has no integer part, though both operands
    are finite and the divisor is not zero. *)
Example shooting_numbers_overflow :
  let huge := S754_finite false 9007199254740991 971 in
  let tiny := S754_finite false 4503599627370496 (-1074) in
  get_phase_time_shooting_numbers builtin_float (example_data [huge]) tiny
  = Raise OverflowError.
Proof. vm_compute. reflexivity. Qed.

(** ** Witnesses *)

Lemma example_well_formed :
  well_formed example_files example_models example_markers example_grf.
Proof.
  split; [reflexivity|]. split; [|split; [simpl; lia|]].
  - intros p Hp. exists (zeros [3; 26; 2]).
    split; [do 4 (destruct p as [|p]; [reflexivity|]); lia|].
    exists 3, 26, 2, []. split; [reflexivity|lia].
  - exists empty_program, example_solution. split; [reflexivity|].
    intros p Hp. split.
    + exists {["all" := zeros [24; 2]]}, (zeros [24; 2]).
      split; [do 4 (destruct p as [|p]; [reflexivity|]); lia|reflexivity].
    + exists {["all" := zeros [29; 2]]}, (zeros [29; 2]), 29, 2, [].
      split; [do 4 (destruct p as [|p]; [reflexivity|]); lia|].
      split; reflexivity.
Defined.

Lemma prepare_ocp_assembles_witness :
  returns (prepare_ocp example_files example_models example_times
             example_shooting example_markers example_grf [] [] []
             8 OdeSolver.RK4).
Proof.
  destruct (proj1 (prepare_ocp_assembles example_files example_models
                     example_times example_shooting example_markers
                     example_grf [] [] [] 8 OdeSolver.RK4)
              example_well_formed)
    as (first & objs & cons & xb & ub & xi & ui & _ & _ & _ & _ & _ & H).
  eexists. exact H.
Defined.

Lemma prepare_ocp_ignores_references_witness :
  prepare_ocp example_files example_models example_times example_shooting
    example_markers example_grf [] [] [] 8 OdeSolver.RK4
  = prepare_ocp example_files example_models example_times example_shooting
      example_markers example_grf
      example_markers example_markers example_grf 8 OdeSolver.RK4.
Proof.
  apply (prepare_ocp_ignores_references example_files example_files).
  reflexivity.
Defined.

Lemma get_contact_index_witness :
  Forall (fun s => s <> EmptyString) flatfoot_names
  /\ exists idx,
       get_contact_index example_node "Z" = Ok idx /\ StronglySorted lt idx.
Proof.
  assert (H : Forall (fun s => s <> EmptyString) flatfoot_names)
    by (repeat constructor; discriminate).
  split; [exact H|].
  destruct (get_contact_index_spec example_node "Z" H) as (idx & Hidx & Hs & _).
  exists idx. split; assumption.
Defined.

Lemma get_phase_time_shooting_numbers_witness :
  (exists number_shooting_points,
     get_phase_time_shooting_numbers builtin_float
       (example_data [float_0_3; float_0_005]) float_0_01
     = Ok ([float_0_3; float_0_005], number_shooting_points)
     /\ length number_shooting_points = 2)
  /\ exists e,
       get_phase_time_shooting_numbers builtin_float
         (example_data [float_0_3; np_inf]) float_0_01
       = Raise e
       /\ (e = OverflowError \/ e = ValueError).
Proof.
  split.
  - destruct (proj1 (get_phase_time_shooting_numbers_spec builtin_float
                       (example_data [float_0_3; float_0_005]) float_0_01
                       eq_refl))
      as (ns & Hns & Hlen & _).
    + repeat constructor.
    + exists ns. split; assumption.
  - apply (proj2 (get_phase_time_shooting_numbers_spec builtin_float
                    (example_data [float_0_3; np_inf]) float_0_01 eq_refl)
             np_inf).
    + right. left. reflexivity.
    + reflexivity.
Defined.

(** C4, as stated, fails on a phase time that is not finite: the step is
    not zero, and the conversion of the quotient raises. *)
Lemma shooting_numbers_infinite_phase_time :
  is_zero float_0_01 = false
  /\ get_phase_time_shooting_numbers builtin_float (example_data [np_inf])
       float_0_01
     = Raise OverflowError.
Proof. split; reflexivity. Qed.

Lemma prepare_ocp_objectives_witness :
  length (custom_objectives
            (OptimalControlProgram.objective_functions example_program)) = 3
  /\ exists target,
       example_grf !! 2 = Some target
       /\ custom_objectives
            (OptimalControlProgram.objective_functions example_program) !! 2
          = Some {| Objective.objective :=
                      Objective.Custom fn_track_sum_contact_forces;
                    Objective.custom_type := Some ObjectiveFcn.Lagrange_family;
                    Objective.node := Some Node.ALL;
                    Objective.weight := Float (Prim2SF 0.01%float);
                    Objective.key := None;
                    Objective.index := None;
                    Objective.marker_index := None;
                    Objective.target := Some target;
                    Objective.derivative := None;
                    Objective.quadratic := Some true;
                    Objective.phase := 2 |}.
Proof.
  destruct (prepare_ocp_objectives example_files example_models example_times
              example_shooting example_markers example_grf [] [] []
              8 OdeSolver.RK4 example_program
              ltac:(vm_compute; reflexivity))
    as (_ & _ & Hlen & Hcustom).
  split; [exact Hlen|]. apply (Hcustom 2). simpl. lia.
Defined.

Lemma track_sum_contact_forces_witness :
  track_sum_contact_forces 0%Z Z.add example_node = Ok [3; 4; 8]%Z.
Proof.
  apply (track_sum_contact_forces_spec 0%Z Z.add example_node
           {| var_mx := [0; 0]%Z |} {| var_mx := [0; 0]%Z |}
           {| var_mx := [0; 0]%Z |} {| var_mx := [1]%Z |});
    try (vm_compute; reflexivity).
  repeat constructor; discriminate.
Defined.


Lemma prepare_ocp_constraints_witness :
  exists heel,
    In 0 heel
    /\ OptimalControlProgram.constraints example_program !! 5
       = Some {| Constraint.constraint := ConstraintFcn.TRACK_CONTACT_FORCES;
                 Constraint.node := Some Node.PENULTIMATE;
                 Constraint.marker_index := None;
                 Constraint.axes := None;
                 Constraint.min_bound := None;
                 Constraint.max_bound := None;
                 Constraint.contact_index := Some heel;
                 Constraint.tangential_component_idx := None;
                 Constraint.normal_component_idx := None;
                 Constraint.static_friction_coefficient := None;
                 Constraint.phase := 1 |}
    /\ OptimalControlProgram.constraints example_program !! 4
       = Some {| Constraint.constraint := ConstraintFcn.NON_SLIPPING;
                 Constraint.node := Some Node.ALL;
                 Constraint.marker_index := None;
                 Constraint.axes := None;
                 Constraint.min_bound := None;
                 Constraint.max_bound := None;
                 Constraint.contact_index := None;
                 Constraint.tangential_component_idx := Some [2; 3];
                 Constraint.normal_component_idx := Some [0; 1; 4];
                 Constraint.static_friction_coefficient :=
                   Some (Float (Prim2SF 0.5%float));
                 Constraint.phase := 1 |}.
Proof.
  destruct (prepare_ocp_constraints example_files example_models example_times
              example_shooting example_markers example_grf [] [] []
              8 OdeSolver.RK4 example_program ltac:(vm_compute; reflexivity))
    as (flatfoot & heel & Hflat & _ & Hin & Hcons & _).
  injection Hflat as <-. exists heel. split; [|split].
  - apply Hin. exists "Heel_r_Z". split; [reflexivity|].
    exists EmptyString, "_Z". reflexivity.
  - now rewrite Hcons.
  - now rewrite Hcons.
Defined.

Lemma dynamics_per_phase_witness :
  (forall p, p < 4 -> length (dynamics_of_phase p (dynamics 4)) = 1) <-> 4 = 4.
Proof.
  exact (proj1 (proj2
           (dynamics_per_phase example_models
              (example_model "heel.bioMod" heel_names) eq_refl))).
Defined.

Lemma get_phase_time_shooting_numbers_total_only_witness :
  raises (get_phase_time_shooting_numbers builtin_float
            (example_data example_times) float_0_0).
Proof.
  apply (get_phase_time_shooting_numbers_total_only builtin_float
           (example_data example_times) float_0_0);
    [discriminate | reflexivity].
Defined.

(** ** When [prepare_ocp] returns, and what it raises *)

Lemma returns_Ok {A} (a : A) : returns (Ok a).
Proof. now exists a. Qed.

Lemma not_returns_Raise {A} (e : exception) : ~ returns (Raise (A:=A) e).
Proof. intros [a H]. discriminate. Qed.

Lemma take_axis1_inv (a t : ndarray) (idx : list nat) :
  take_axis1 a idx = Ok t ->
  exists n0 n1 n2 rest,
    shape a = n0 :: n1 :: n2 :: rest
    /\ Forall (fun j => j < n1) idx
    /\ shape t = n0 :: length idx :: n2 :: rest.
Proof.
  unfold take_axis1.
  destruct (shape a) as [|n0 [|n1 [|n2 rest]]]; try discriminate.
  destruct (forallb (fun j => j <? n1) idx) eqn:Hall; [|discriminate].
  intros H. injection H as <-.
  exists n0, n1, n2, rest. split; [reflexivity|]. split; [|reflexivity].
  apply List.Forall_forall. intros j Hj.
  rewrite forallb_forall in Hall. apply Hall in Hj. now apply Nat.ltb_lt.
Qed.

Lemma take_axis1_raises (a : ndarray) (idx : list nat) (e : exception) :
  take_axis1 a idx = Raise e -> e = IndexError.
Proof.
  unfold take_axis1.
  destruct (shape a) as [|n0 [|n1 [|n2 rest]]]; try congruence.
  destruct (forallb (fun j => j <? n1) idx); congruence.
Qed.

Lemma drop_last_axis1_inv (a t : ndarray) :
  drop_last_axis1 a = Ok t ->
  exists n0 n1 rest,
    shape a = n0 :: n1 :: rest /\ shape t = n0 :: (n1 - 1) :: rest.
Proof.
  unfold drop_last_axis1.
  destruct (shape a) as [|n0 [|n1 rest]]; try discriminate.
  intros H. injection H as <-. now exists n0, n1, rest.
Qed.

Lemma drop_last_axis1_raises (a : ndarray) (e : exception) :
  drop_last_axis1 a = Raise e -> e = IndexError.
Proof.
  unfold drop_last_axis1.
  destruct (shape a) as [|n0 [|n1 rest]]; congruence.
Qed.

Lemma getitem_raises {A} (l : list A) (i : nat) (e : exception) :
  getitem l i = Raise e -> e = IndexError /\ length l <= i.
Proof.
  unfold getitem. destruct (l !! i) eqn:H; [discriminate|].
  intros Heq. injection Heq as <-. split; [reflexivity|].
  now apply lookup_ge_None.
Qed.

Lemma dict_getitem_raises {A} (d : gmap string A) (k : string) (e : exception) :
  dict_getitem d k = Raise e -> e = KeyError /\ d !! k = None.
Proof.
  unfold dict_getitem. destruct (d !! k); [discriminate|].
  intros Heq. injection Heq as <-. now split.
Qed.

Lemma phase_objectives_raises markers_ref p e :
  phase_objectives markers_ref p = Raise e -> e = IndexError.
Proof.
  unfold phase_objectives. intros H.
  apply bind_raises in H as [H|(markers & _ & H)];
    [now apply getitem_raises in H|].
  repeat (apply bind_raises in H as [H|(? & _ & H)];
          [now apply take_axis1_raises in H|]).
  discriminate.
Qed.

Lemma objective_functions_raises nb_phases markers_ref grf_ref e :
  objective_functions nb_phases markers_ref grf_ref = Raise e -> e = IndexError.
Proof.
  rewrite objective_functions_structure. intros H.
  apply bind_raises in H as [H|(per_phase & _ & H)].
  - apply mapM_result_raise_inv in H as (p & _ & H).
    now apply phase_objectives_raises in H.
  - apply bind_raises in H as [H|(custom & _ & H)]; [|discriminate].
    apply mapM_result_raise_inv in H as (p & _ & H).
    apply bind_raises in H as [H|(g & _ & H)]; [|discriminate].
    now apply getitem_raises in H.
Qed.

Lemma constraints_raises biorbd_model e :
  constraints biorbd_model = Raise e ->
  e = IndexError /\ length biorbd_model <= 1.
Proof.
  unfold constraints. cbn zeta. intros H.
  apply bind_raises in H as [H|(flatfoot & _ & H)]; [|discriminate].
  now apply getitem_raises in H.
Qed.

Lemma phase_guess_raises sol p e :
  phase_guess sol p = Raise e ->
  e = IndexError
  \/ (e = KeyError
      /\ exists d, (Solution.states sol !! p = Some d
                    \/ Solution.controls sol !! p = Some d)
                   /\ d !! "all" = None).
Proof.
  unfold phase_guess. intros H.
  apply bind_raises in H as [H|(states_p & Hs & H)];
    [left; now apply getitem_raises in H|].
  apply getitem_Ok in Hs.
  apply bind_raises in H as [H|(x & _ & H)].
  { right. apply dict_getitem_raises in H as [-> H]. split; [reflexivity|].
    exists states_p. split; [now left|exact H]. }
  apply bind_raises in H as [H|(controls_p & Hc & H)];
    [left; now apply getitem_raises in H|].
  apply getitem_Ok in Hc.
  apply bind_raises in H as [H|(u_all & _ & H)].
  { right. apply dict_getitem_raises in H as [-> H]. split; [reflexivity|].
    exists controls_p. split; [now right|exact H]. }
  apply bind_raises in H as [H|(u & _ & H)]; [|discriminate].
  left. now apply drop_last_axis1_raises in H.
Qed.

Lemma initial_guesses_raises fs nb_phases e :
  initial_guesses fs nb_phases = Raise e ->
  e = IndexError
  \/ (e = FileNotFoundError /\ fs !! "gait.bo" = None)
  \/ (e = KeyError
      /\ exists ocp_previous sol_previous p d,
           fs !! "gait.bo" = Some (ocp_previous, sol_previous)
           /\ p < nb_phases
           /\ (Solution.states sol_previous !! p = Some d
               \/ Solution.controls sol_previous !! p = Some d)
           /\ d !! "all" = None).
Proof.
  rewrite initial_guesses_structure. unfold OptimalControlProgram.load.
  destruct (fs !! "gait.bo") as [[ocp_previous sol_previous]|] eqn:Hfile.
  - rewrite bind_Ok. intros H.
    apply bind_raises in H as [H|(guesses & _ & H)]; [|discriminate].
    apply mapM_result_raise_inv in H as (p & Hp & H).
    apply in_seq in Hp.
    apply phase_guess_raises in H as [->|(-> & d & Hd & Hall)]; [now left|].
    right. right. split; [reflexivity|].
    exists ocp_previous, sol_previous, p, d. repeat split; [lia|assumption..].
  - intros H. injection H as <-. right. left. now split.
Qed.

Lemma phase_objectives_markers markers_ref p ys :
  phase_objectives markers_ref p = Ok ys ->
  exists a, markers_ref !! p = Some a /\ markers_array a.
Proof.
  intros H.
  apply phase_objectives_inv in H
    as (markers & pelvis & anat & foot & tissus & Hm & _ & _ & Hfoot & _ & _).
  exists markers. split; [exact Hm|].
  apply take_axis1_inv in Hfoot as (n0 & n1 & n2 & rest & Hshape & Hidx & _).
  exists n0, n1, n2, rest. split; [exact Hshape|].
  rewrite List.Forall_forall in Hidx.
  specialize (Hidx 25). unfold markers_foot in Hidx. simpl in Hidx.
  assert (25 < n1) by (apply Hidx; tauto). lia.
Qed.

Lemma phase_guess_saved sol p g :
  phase_guess sol p = Ok g -> saved_phase sol p.
Proof.
  destruct g as [x u]. intros H.
  apply phase_guess_inv in H
    as (states_p & xa & controls_p & u_all & ua & Hs & Hx & _ & Hc & Hu & Hd & _).
  apply drop_last_axis1_inv in Hd as (n0 & n1 & rest & Hshape & _).
  split; [now exists states_p, xa|].
  now exists controls_p, u_all, n0, n1, rest.
Qed.

Lemma prepare_ocp_returns_when fs biorbd_model final_time nb_shooting
    markers_ref grf_ref q_ref qdot_ref activation_ref nb_threads ode_solver :
  prepare_ocp_precondition fs biorbd_model markers_ref grf_ref ->
  returns (prepare_ocp fs biorbd_model final_time nb_shooting markers_ref
             grf_ref q_ref qdot_ref activation_ref nb_threads ode_solver).
Proof.
  intros (Hlen & Hmarkers & Hgrf & ocp_previous & sol_previous & Hfile & Hsol).
  unfold prepare_ocp.
  destruct biorbd_model as [|heel [|flatfoot rest]]; [simpl in Hlen; lia..|].
  change (getitem (heel :: flatfoot :: rest) 0) with (Ok (A:=Model) heel).
  rewrite bind_Ok.
  set (biorbd_model := heel :: flatfoot :: rest) in *.
  rewrite objective_functions_structure.
  destruct (mapM_result_returns (phase_objectives markers_ref)
              (range (length biorbd_model))) as [per_phase ->].
  { apply Forall_range. intros p Hp. destruct (Hmarkers p Hp) as (a & Ha & Hwf).
    now apply (phase_objectives_returns markers_ref p a). }
  rewrite bind_Ok.
  destruct (mapM_result_returns
              (fun p => target ← getitem grf_ref p;
                        Ok (track_contact_forces_objective target p))
              (range (length biorbd_model - 1))) as [custom ->].
  { apply Forall_range. intros p Hp.
    destruct (lookup_lt_is_Some_2 grf_ref p ltac:(lia)) as [g Hg].
    apply getitem_Ok in Hg. rewrite Hg. eexists. reflexivity. }
  rewrite !bind_Ok.
  unfold constraints. cbn zeta.
  change (getitem biorbd_model 1) with (Ok (A:=Model) flatfoot).
  rewrite !bind_Ok.
  rewrite bounds_structure, bind_Ok.
  rewrite initial_guesses_structure.
  unfold OptimalControlProgram.load. rewrite Hfile, bind_Ok.
  destruct (mapM_result_returns (phase_guess sol_previous)
              (range (length biorbd_model))) as [guesses ->].
  { apply Forall_range. intros p Hp. now apply phase_guess_returns, Hsol. }
  rewrite !bind_Ok. eexists. reflexivity.
Qed.

(** X2: [prepare_ocp] builds the arguments of its program, and returns
    them, exactly on the inputs that have two models at least, for every
    phase a marker array of three axes or more with the 26 tracked markers
    on the second one, a ground reaction force for every phase but the last
    and, in [gait.bo], a solution with the states and the controls (of two
    axes or more) of every phase under the name all.  The final times, the
    shooting numbers, the three references, the number of threads and the
    solver play no part. *)
Theorem prepare_ocp_returns_iff fs biorbd_model final_time nb_shooting
    markers_ref grf_ref q_ref qdot_ref activation_ref nb_threads ode_solver :
  returns (prepare_ocp fs biorbd_model final_time nb_shooting markers_ref
             grf_ref q_ref qdot_ref activation_ref nb_threads ode_solver)
  <-> prepare_ocp_precondition fs biorbd_model markers_ref grf_ref.
Proof.
  split; [|apply prepare_ocp_returns_when].
  intros [ocp H].
  apply prepare_ocp_inv in H
    as (first & objs & cons & xb & ub & xi & ui
        & _ & Hobjs & Hcons & _ & Hinit & _).
  set (n := length biorbd_model) in *.
  (* the objectives *)
  rewrite objective_functions_structure in Hobjs.
  apply bind_returns in Hobjs as (per_phase & Hper & Hobjs).
  apply bind_returns in Hobjs as (custom & Hcustom & _).
  apply mapM_result_inv in Hper, Hcustom. unfold range in *.
  apply seq_Forall2_lookup in Hper as [_ Hper].
  apply seq_Forall2_lookup in Hcustom as [_ Hcustom].
  (* the constraints *)
  unfold constraints in Hcons. cbn zeta in Hcons.
  apply bind_returns in Hcons as (flatfoot & Hflat & _).
  apply getitem_Ok, lookup_lt_Some in Hflat.
  (* the initial guesses *)
  rewrite initial_guesses_structure in Hinit.
  apply bind_returns in Hinit as ([ocp_previous sol_previous] & Hload & Hinit).
  apply bind_returns in Hinit as (guesses & Hguesses & _).
  unfold OptimalControlProgram.load in Hload.
  destruct (fs !! "gait.bo") as [saved|] eqn:Hfile; [|discriminate].
  injection Hload as ->.
  apply mapM_result_inv in Hguesses. unfold range in Hguesses.
  apply seq_Forall2_lookup in Hguesses as [_ Hguesses].
  split; [fold n; lia|]. split; [|split].
  - intros p Hp. destruct (Hper p Hp) as (ys & _ & Hys).
    now apply phase_objectives_markers in Hys.
  - fold n. destruct (Nat.eq_dec (n - 1) 0) as [->|Hpos]; [lia|].
    destruct (Hcustom (n - 2) ltac:(lia)) as (o & _ & Ho).
    apply bind_returns in Ho as (g & Hg & _).
    apply getitem_Ok, lookup_lt_Some in Hg. lia.
  - exists ocp_previous, sol_previous. split; [exact Hfile|].
    intros p Hp. destruct (Hguesses p Hp) as (g & _ & Hg).
    now apply phase_guess_saved in Hg.
Qed.

(** X3: with arguments on which everything else succeeds, [prepare_ocp]
    still raises FileNotFoundError when there is no [gait.bo]: it cannot
    run without a solution saved before. *)
Theorem prepare_ocp_needs_saved_solution fs biorbd_model final_time nb_shooting
    markers_ref grf_ref q_ref qdot_ref activation_ref nb_threads ode_solver :
  2 <= length biorbd_model ->
  (forall p, p < length biorbd_model ->
     exists a, markers_ref !! p = Some a /\ markers_array a) ->
  length biorbd_model - 1 <= length grf_ref ->
  fs !! "gait.bo" = None ->
  prepare_ocp fs biorbd_model final_time nb_shooting markers_ref grf_ref
    q_ref qdot_ref activation_ref nb_threads ode_solver
  = Raise FileNotFoundError.
Proof.
  intros Hlen Hmarkers Hgrf Hfile.
  unfold prepare_ocp.
  destruct biorbd_model as [|heel [|flatfoot rest]]; [simpl in Hlen; lia..|].
  change (getitem (heel :: flatfoot :: rest) 0) with (Ok (A:=Model) heel).
  rewrite bind_Ok.
  set (biorbd_model := heel :: flatfoot :: rest) in *.
  rewrite objective_functions_structure.
  destruct (mapM_result_returns (phase_objectives markers_ref)
              (range (length biorbd_model))) as [per_phase ->].
  { apply Forall_range. intros p Hp. destruct (Hmarkers p Hp) as (a & Ha & Hwf).
    now apply (phase_objectives_returns markers_ref p a). }
  rewrite bind_Ok.
  destruct (mapM_result_returns
              (fun p => target ← getitem grf_ref p;
                        Ok (track_contact_forces_objective target p))
              (range (length biorbd_model - 1))) as [custom ->].
  { apply Forall_range. intros p Hp.
    destruct (lookup_lt_is_Some_2 grf_ref p ltac:(lia)) as [g Hg].
    apply getitem_Ok in Hg. rewrite Hg. eexists. reflexivity. }
  rewrite !bind_Ok.
  unfold constraints. cbn zeta.
  change (getitem biorbd_model 1) with (Ok (A:=Model) flatfoot).
  rewrite !bind_Ok.
  rewrite bounds_structure, bind_Ok.
  unfold initial_guesses, OptimalControlProgram.load. now rewrite Hfile.
Qed.

Lemma objective_functions_arguments nb_phases markers_ref grf_ref objs :
  objective_functions nb_phases markers_ref grf_ref = Ok objs ->
  (forall p, p < nb_phases ->
     exists a, markers_ref !! p = Some a /\ markers_array a)
  /\ nb_phases - 1 <= length grf_ref.
Proof.
  rewrite objective_functions_structure. intros H.
  apply bind_returns in H as (per_phase & Hper & H).
  apply bind_returns in H as (custom & Hcustom & _).
  apply mapM_result_inv in Hper, Hcustom. unfold range in *.
  apply seq_Forall2_lookup in Hper as [_ Hper].
  apply seq_Forall2_lookup in Hcustom as [_ Hcustom].
  split.
  - intros p Hp. destruct (Hper p Hp) as (ys & _ & Hys).
    now apply phase_objectives_markers in Hys.
  - destruct (Nat.eq_dec (nb_phases - 1) 0) as [->|Hpos]; [lia|].
    destruct (Hcustom (nb_phases - 2) ltac:(lia)) as (o & _ & Ho).
    apply bind_returns in Ho as (g & Hg & _).
    apply getitem_Ok, lookup_lt_Some in Hg. lia.
Qed.

(** The blocks before the initial guesses succeed on two models at least,
    marker arrays for every phase and ground reaction forces for every phase
    but the last: what [prepare_ocp] does then is up to the file. *)
Lemma prepare_ocp_up_to_load fs biorbd_model final_time nb_shooting
    markers_ref grf_ref q_ref qdot_ref activation_ref nb_threads ode_solver :
  2 <= length biorbd_model ->
  (forall p, p < length biorbd_model ->
     exists a, markers_ref !! p = Some a /\ markers_array a) ->
  length biorbd_model - 1 <= length grf_ref ->
  OptimalControlProgram.load fs "gait.bo" = Raise FileNotFoundError ->
  prepare_ocp fs biorbd_model final_time nb_shooting markers_ref grf_ref
    q_ref qdot_ref activation_ref nb_threads ode_solver
  = Raise FileNotFoundError.
Proof.
  intros Hlen Hmarkers Hgrf Hload.
  unfold prepare_ocp.
  destruct biorbd_model as [|heel [|flatfoot rest]]; [simpl in Hlen; lia..|].
  change (getitem (heel :: flatfoot :: rest) 0) with (Ok (A:=Model) heel).
  rewrite bind_Ok.
  set (biorbd_model := heel :: flatfoot :: rest) in *.
  rewrite objective_functions_structure.
  destruct (mapM_result_returns (phase_objectives markers_ref)
              (range (length biorbd_model))) as [per_phase ->].
  { apply Forall_range. intros p Hp. destruct (Hmarkers p Hp) as (a & Ha & Hwf).
    now apply (phase_objectives_returns markers_ref p a). }
  rewrite bind_Ok.
  destruct (mapM_result_returns
              (fun p => target ← getitem grf_ref p;
                        Ok (track_contact_forces_objective target p))
              (range (length biorbd_model - 1))) as [custom ->].
  { apply Forall_range. intros p Hp.
    destruct (lookup_lt_is_Some_2 grf_ref p ltac:(lia)) as [g Hg].
    apply getitem_Ok in Hg. rewrite Hg. eexists. reflexivity. }
  rewrite !bind_Ok.
  unfold constraints. cbn zeta.
  change (getitem biorbd_model 1) with (Ok (A:=Model) flatfoot).
  rewrite !bind_Ok.
  rewrite bounds_structure, bind_Ok.
  unfold initial_guesses. now rewrite Hload.
Qed.

(** X1: while it builds the arguments of its program, [prepare_ocp] raises
    nothing but an IndexError (a list too short, an array with too few axes
    or markers), a FileNotFoundError, or a KeyError when a phase of the
    saved solution has no entry all, a file [gait.bo] that is there being
    one bioptim saved.  It raises FileNotFoundError exactly when [gait.bo]
    is missing and the blocks before the initial guesses succeed: on two
    models at least, marker arrays for every phase and ground reaction
    forces for every phase but the last. *)
Theorem prepare_ocp_exceptions fs biorbd_model final_time nb_shooting
    markers_ref grf_ref q_ref qdot_ref activation_ref nb_threads ode_solver e :
  (prepare_ocp fs biorbd_model final_time nb_shooting markers_ref grf_ref
     q_ref qdot_ref activation_ref nb_threads ode_solver = Raise e ->
   e = IndexError
   \/ (e = FileNotFoundError /\ fs !! "gait.bo" = None)
   \/ (e = KeyError
       /\ exists ocp_previous sol_previous p d,
            fs !! "gait.bo" = Some (ocp_previous, sol_previous)
            /\ p < length biorbd_model
            /\ (Solution.states sol_previous !! p = Some d
                \/ Solution.controls sol_previous !! p = Some d)
            /\ d !! "all" = None))
  /\ (prepare_ocp fs biorbd_model final_time nb_shooting markers_ref grf_ref
        q_ref qdot_ref activation_ref nb_threads ode_solver
      = Raise FileNotFoundError
      <-> fs !! "gait.bo" = None
          /\ 2 <= length biorbd_model
          /\ (forall p, p < length biorbd_model ->
                exists a, markers_ref !! p = Some a /\ markers_array a)
          /\ length biorbd_model - 1 <= length grf_ref).
Proof.
  split; [|split].
  - unfold prepare_ocp. intros H.
    apply bind_raises in H as [H|(first & _ & H)];
      [left; now apply getitem_raises in H|].
    apply bind_raises in H as [H|(objs & _ & H)];
      [left; now apply objective_functions_raises in H|].
    apply bind_raises in H as [H|(cons & _ & H)];
      [left; now apply constraints_raises in H|].
    rewrite bounds_structure, bind_Ok in H.
    apply bind_raises in H as [H|([xi ui] & _ & H)]; [|discriminate].
    now apply initial_guesses_raises in H.
  - unfold prepare_ocp. intros H.
    apply bind_raises in H as [H|(first & _ & H)];
      [apply getitem_raises in H as [H _]; discriminate H|].
    apply bind_raises in H as [H|(objs & Hobjs & H)];
      [apply objective_functions_raises in H; discriminate H|].
    apply bind_raises in H as [H|(cons & Hcons & H)];
      [apply constraints_raises in H as [H _]; discriminate H|].
    rewrite bounds_structure, bind_Ok in H.
    apply bind_raises in H as [H|([xi ui] & _ & H)]; [|discriminate].
    apply initial_guesses_raises in H as [H|[[_ Hfile]|[H _]]];
      [discriminate H| |discriminate H].
    apply objective_functions_arguments in Hobjs as [Hmarkers Hgrf].
    unfold constraints in Hcons. cbn zeta in Hcons.
    apply bind_returns in Hcons as (flatfoot & Hflat & _).
    apply getitem_Ok, lookup_lt_Some in Hflat.
    repeat split; [exact Hfile|lia|exact Hmarkers|exact Hgrf].
  - intros (Hfile & Hlen & Hmarkers & Hgrf).
    apply prepare_ocp_up_to_load; try assumption.
    unfold OptimalControlProgram.load. now rewrite Hfile.
Qed.

(** ** Invariants of the objective and constraint lists *)

Lemma prepare_ocp_objectives_structure fs biorbd_model final_time nb_shooting
    markers_ref grf_ref q_ref qdot_ref activation_ref nb_threads ode_solver ocp :
  prepare_ocp fs biorbd_model final_time nb_shooting markers_ref grf_ref
    q_ref qdot_ref activation_ref nb_threads ode_solver = Ok ocp ->
  exists per_phase custom,
    OptimalControlProgram.objective_functions ocp = concat per_phase ++ custom
    /\ length per_phase = length biorbd_model
    /\ Forall2 (fun p ys => phase_objectives markers_ref p = Ok ys)
         (seq 0 (length biorbd_model)) per_phase
    /\ length custom = length biorbd_model - 1
    /\ Forall2 (fun p o => exists g, grf_ref !! p = Some g
                                     /\ o = track_contact_forces_objective g p)
         (seq 0 (length biorbd_model - 1)) custom.
Proof.
  intros H.
  apply prepare_ocp_inv in H
    as (first & objs & cons & xb & ub & xi & ui & _ & Hobjs & _ & _ & _ & ->).
  cbn [OptimalControlProgram.objective_functions].
  rewrite objective_functions_structure in Hobjs.
  apply bind_returns in Hobjs as (per_phase & Hper & Hobjs).
  apply bind_returns in Hobjs as (custom & Hcustom & Hobjs).
  injection Hobjs as <-.
  apply mapM_result_inv in Hper, Hcustom. unfold range in *.
  exists per_phase, custom. split; [reflexivity|].
  split; [apply Forall2_length in Hper; now rewrite length_seq in Hper|].
  split; [exact Hper|].
  split; [apply Forall2_length in Hcustom; now rewrite length_seq in Hcustom|].
  eapply Forall2_impl; [exact Hcustom|]. intros p o Ho.
  apply bind_returns in Ho as (g & Hg & Ho). injection Ho as <-.
  apply getitem_Ok in Hg. now exists g.
Qed.

Lemma length_concat_const {B} (k : nat) (l : list (list B)) :
  Forall (fun ys => length ys = k) l -> length (concat l) = k * length l.
Proof.
  induction 1 as [|ys l Hys _ IH]; simpl; [lia|].
  rewrite length_app, IH, Hys. lia.
Qed.

Lemma Forall_concat_intro {B} (P : B -> Prop) (l : list (list B)) :
  Forall (Forall P) l -> Forall P (concat l).
Proof.
  induction 1 as [|ys l Hys _ IH]; simpl; [constructor|].
  apply Forall_app. now split.
Qed.

Lemma seq_Forall2_Forall {B} (P : nat -> B -> Prop) (Q : B -> Prop)
    (k n : nat) (l : list B) :
  Forall2 P (seq k n) l ->
  (forall p y, k <= p < k + n -> P p y -> Q y) ->
  Forall Q l.
Proof.
  intros H HPQ. apply Forall2_Forall_r with (1 := H).
  apply List.Forall_forall. intros p Hp y HP.
  apply in_seq in Hp. apply (HPQ p y); [lia|exact HP].
Qed.

(** X4: a program [prepare_ocp] returns for [n] models has 9 n - 1
    objectives, each of them quadratic and on a phase of the tuple. *)
Theorem prepare_ocp_objectives_invariants fs biorbd_model final_time
    nb_shooting markers_ref grf_ref q_ref qdot_ref activation_ref nb_threads
    ode_solver ocp :
  prepare_ocp fs biorbd_model final_time nb_shooting markers_ref grf_ref
    q_ref qdot_ref activation_ref nb_threads ode_solver = Ok ocp ->
  length (OptimalControlProgram.objective_functions ocp)
  = 9 * length biorbd_model - 1
  /\ Forall (fun o => Objective.quadratic o = Some true
                      /\ Objective.phase o < length biorbd_model)
       (OptimalControlProgram.objective_functions ocp).
Proof.
  intros H.
  assert (Hpos : 1 <= length biorbd_model).
  { apply prepare_ocp_inv in H as (first & ? & ? & ? & ? & ? & ? & Hf & _).
    apply lookup_lt_Some in Hf. lia. }
  apply prepare_ocp_objectives_structure in H
    as (per_phase & custom & -> & Hlen & Hper & Hlenc & Hcustom).
  split.
  - rewrite length_app, Hlenc.
    rewrite (length_concat_const 8), Hlen; [lia|].
    eapply seq_Forall2_Forall; [exact Hper|]. intros p ys _ Hys.
    apply phase_objectives_inv in Hys
      as (? & ? & ? & ? & ? & _ & _ & _ & _ & _ & ->).
    reflexivity.
  - apply Forall_app. split.
    + apply Forall_concat_intro.
      eapply seq_Forall2_Forall; [exact Hper|]. intros p ys Hp Hys.
      apply phase_objectives_inv in Hys
        as (? & ? & ? & ? & ? & _ & _ & _ & _ & _ & ->).
      repeat constructor; simpl; lia.
    + eapply seq_Forall2_Forall; [exact Hcustom|].
      intros p o Hp (g & _ & ->). split; [reflexivity|simpl; lia].
Qed.

(** X5: in a returned program every objective that tracks markers has a
    target cut out of the marker array of its phase: the target keeps the
    first and the last axes of that array and has, on its second axis, one
    entry per tracked marker, each tracked marker being on the array. *)
Theorem prepare_ocp_marker_targets fs biorbd_model final_time
    nb_shooting markers_ref grf_ref q_ref qdot_ref activation_ref nb_threads
    ode_solver ocp :
  prepare_ocp fs biorbd_model final_time nb_shooting markers_ref grf_ref
    q_ref qdot_ref activation_ref nb_threads ode_solver = Ok ocp ->
  Forall (fun o =>
            forall idx, Objective.marker_index o = Some idx ->
              exists a t n0 n1 n2 rest,
                markers_ref !! Objective.phase o = Some a
                /\ shape a = n0 :: n1 :: n2 :: rest
                /\ Forall (fun j => j < n1) idx
                /\ Objective.target o = Some t
                /\ take_axis1 a idx = Ok t
                /\ shape t = n0 :: length idx :: n2 :: rest)
    (OptimalControlProgram.objective_functions ocp).
Proof.
  intros H.
  apply prepare_ocp_objectives_structure in H
    as (per_phase & custom & -> & _ & Hper & _ & Hcustom).
  apply Forall_app. split.
  - apply Forall_concat_intro.
    eapply seq_Forall2_Forall; [exact Hper|]. intros p ys _ Hys.
    apply phase_objectives_inv in Hys
      as (a & pelvis & anat & foot & tissus & Ha & H0 & H1 & H2 & H3 & ->).
    assert (Hcut : forall idx t, take_axis1 a idx = Ok t ->
               exists a' t' n0 n1 n2 rest,
                 markers_ref !! p = Some a'
                 /\ shape a' = n0 :: n1 :: n2 :: rest
                 /\ Forall (fun j => j < n1) idx
                 /\ Some t = Some t'
                 /\ take_axis1 a' idx = Ok t'
                 /\ shape t' = n0 :: length idx :: n2 :: rest).
    { intros idx t Ht.
      destruct (take_axis1_inv a t idx Ht) as (n0 & n1 & n2 & rest & ? & ? & ?).
      exists a, t, n0, n1, n2, rest. repeat split; assumption. }
    repeat constructor; cbn; intros idx Hidx;
      try discriminate; injection Hidx as <-; eauto.
  - eapply seq_Forall2_Forall; [exact Hcustom|].
    intros p o _ (g & _ & ->) idx Hidx. discriminate.
Qed.

(** X6: the constraints of a returned program are on the phases 0, 1 and 2
    whatever the number of models: they all lie on phases of the tuple if
    and only if there are three models at least. *)
Theorem prepare_ocp_constraint_phases fs biorbd_model final_time
    nb_shooting markers_ref grf_ref q_ref qdot_ref activation_ref nb_threads
    ode_solver ocp :
  prepare_ocp fs biorbd_model final_time nb_shooting markers_ref grf_ref
    q_ref qdot_ref activation_ref nb_threads ode_solver = Ok ocp ->
  map Constraint.phase (OptimalControlProgram.constraints ocp)
  = [0; 0; 1; 1; 1; 1; 2; 2]
  /\ (Forall (fun c => Constraint.phase c < length biorbd_model)
        (OptimalControlProgram.constraints ocp)
      <-> 3 <= length biorbd_model).
Proof.
  intros H.
  apply prepare_ocp_inv in H
    as (first & objs & cons & xb & ub & xi & ui & _ & _ & Hcons & _ & _ & ->).
  cbn [OptimalControlProgram.constraints].
  unfold constraints in Hcons. cbn zeta in Hcons.
  apply bind_returns in Hcons as (flatfoot & _ & Hcons).
  injection Hcons as <-. split; [reflexivity|].
  split.
  - intros Hall. rewrite List.Forall_forall in Hall.
    specialize (Hall (non_slipping [1; 2] [0; 3; 4] (Float float_0_5) 2)).
    cbn in Hall. apply Hall. tauto.
  - intros Hn. repeat constructor; cbn; lia.
Qed.

(** ** [get_contact_index]: failures, tags and partition *)

Lemma last_char_returns (s : string) :
  returns (last_char s) <-> s <> EmptyString.
Proof.
  split.
  - intros [c H] ->. discriminate.
  - intros H. destruct (last_char_nonempty s H) as [c Hc]. now exists (String c EmptyString).
Qed.

Lemma last_char_raises (s : string) (e : exception) :
  last_char s = Raise e -> e = IndexError /\ s = EmptyString.
Proof.
  destruct s as [|a rest].
  - intros H. injection H as <-. now split.
  - intros H. destruct (last_char_nonempty (String a rest)) as [c Hc];
      [discriminate|congruence].
Qed.

(** X7: [get_contact_index] returns exactly when no contact-force name is
    empty, whatever the tag; otherwise [s[-1]] raises IndexError. *)
Theorem get_contact_index_returns_iff {A} (pn : PenaltyNode A) (tag : string) :
  (returns (get_contact_index pn tag)
   <-> Forall (fun s => s <> EmptyString) (contactNames (model (nlp pn))))
  /\ (forall e, get_contact_index pn tag = Raise e ->
                e = IndexError
                /\ In EmptyString (contactNames (model (nlp pn)))).
Proof.
  unfold get_contact_index. split; [split|].
  - intros [idx H]. apply bind_returns in H as (flags & Hflags & _).
    apply mapM_result_inv in Hflags.
    apply Forall2_Forall_l with (1 := Hflags). apply Forall_true.
    intros b s Hs. apply last_char_returns.
    apply bind_returns in Hs as (c & Hc & _). now exists c.
  - intros Hne.
    destruct (mapM_result_returns
                (fun s => c ← last_char s; Ok (String.eqb c tag))
                (contactNames (model (nlp pn)))) as [flags ->].
    + eapply List.Forall_impl; [|exact Hne]. intros s Hs.
      apply last_char_returns in Hs as [c ->]. eexists. reflexivity.
    + eexists. reflexivity.
  - intros e H. apply bind_raises in H as [H|(flags & _ & H)]; [|discriminate].
    apply mapM_result_raise_inv in H as (s & Hin & H).
    apply bind_raises in H as [H|(c & _ & H)]; [|discriminate].
    apply last_char_raises in H as [-> ->]. now split.
Qed.

Lemma no_flag_no_index (flags : list bool) (k : nat) :
  Forall (fun b => b = false) flags ->
  map fst (List.filter snd (combine (seq k (length flags)) flags)) = [].
Proof.
  intros H. revert k. induction H as [|b flags -> _ IH]; intros k; [reflexivity|].
  simpl. apply IH.
Qed.

(** X8: an ASCII tag that is not one character long selects nothing: the
    last character of a name, a string of length one, never equals it.  (A
    tag of one character that is not ASCII holds several bytes: the
    statement is not about it.) *)
Theorem get_contact_index_long_tag {A} (pn : PenaltyNode A) (tag : string) :
  ascii_string tag ->
  String.length tag <> 1 ->
  Forall (fun s => s <> EmptyString) (contactNames (model (nlp pn))) ->
  get_contact_index pn tag = Ok [].
Proof.
  intros _ Htag Hne. unfold get_contact_index.
  rewrite (mapM_result_Ok _ (fun _ => false)).
  - rewrite bind_Ok. unfold enumerate. f_equal.
    apply no_flag_no_index. apply Forall_fmap, Forall_true. reflexivity.
  - eapply List.Forall_impl; [|exact Hne]. intros s Hs.
    destruct (last_char_nonempty s Hs) as [c ->]. rewrite bind_Ok. f_equal.
    apply String.eqb_neq. intros <-. now apply Htag.
Qed.

Lemma get_contact_index_In {A} (pn : PenaltyNode A) (c : ascii)
    (idx : list nat) :
  Forall (fun s => s <> EmptyString) (contactNames (model (nlp pn))) ->
  get_contact_index pn (String c EmptyString) = Ok idx ->
  forall i, In i idx
            <-> exists s, contactNames (model (nlp pn)) !! i = Some s
                          /\ ends_with s c.
Proof.
  intros Hne H i. rewrite (get_contact_index_flags pn c Hne) in H.
  injection H as <-. unfold enumerate.
  set (names := contactNames (model (nlp pn))).
  destruct (flagged_indices (map (fun s => ends_withb s c) names) 0)
    as (_ & _ & Hin).
  simpl in Hin. rewrite Hin, list_lookup_fmap.
  destruct (names !! i) as [s|]; simpl.
  - split.
    + intros H. exists s. split; [reflexivity|].
      apply ends_withb_spec. congruence.
    + intros (s' & Hs' & Hend). injection Hs' as <-.
      apply ends_withb_spec in Hend. now rewrite Hend.
  - split; [discriminate|]. intros (s' & Hs' & _). discriminate.
Qed.

Lemma ends_with_unique (s : string) (c c' : ascii) :
  ends_with s c -> ends_with s c' -> c = c'.
Proof.
  intros H H'. apply last_char_ends_with in H, H'. congruence.
Qed.

(** X9: when no contact-force name is empty, the index lists of the tag
    characters split the indices of the names: every index of a name is in
    the list of one tag character, the last character of the name, and in
    the list of no other; and nothing else is in a list. *)
Theorem get_contact_index_partition {A} (pn : PenaltyNode A) :
  Forall (fun s => s <> EmptyString) (contactNames (model (nlp pn))) ->
  (forall i, i < length (contactNames (model (nlp pn))) ->
     exists c idx,
       get_contact_index pn (String c EmptyString) = Ok idx /\ In i idx)
  /\ (forall c c' idx idx' i,
        get_contact_index pn (String c EmptyString) = Ok idx ->
        get_contact_index pn (String c' EmptyString) = Ok idx' ->
        In i idx -> In i idx' -> c = c')
  /\ (forall c idx i,
        get_contact_index pn (String c EmptyString) = Ok idx ->
        In i idx -> i < length (contactNames (model (nlp pn)))).
Proof.
  intros Hne. split; [|split].
  - intros i Hi.
    destruct (lookup_lt_is_Some_2 _ i Hi) as [s Hs].
    assert (Hs' : s <> EmptyString).
    { rewrite List.Forall_forall in Hne. apply Hne.
      apply list_elem_of_In. eapply list_elem_of_lookup_2. exact Hs. }
    destruct (last_char_nonempty s Hs') as [c Hc].
    apply last_char_ends_with in Hc.
    exists c. eexists. split; [apply (get_contact_index_flags pn c Hne)|].
    apply (get_contact_index_In pn c _ Hne (get_contact_index_flags pn c Hne)).
    now exists s.
  - intros c c' idx idx' i Hidx Hidx' Hi Hi'.
    apply (get_contact_index_In pn c idx Hne Hidx) in Hi as (s & Hs & Hend).
    apply (get_contact_index_In pn c' idx' Hne Hidx') in Hi' as (s' & Hs' & Hend').
    rewrite Hs in Hs'. injection Hs' as <-.
    now apply (ends_with_unique s).
  - intros c idx i Hidx Hi.
    apply (get_contact_index_In pn c idx Hne Hidx) in Hi as (s & Hs & _).
    now apply lookup_lt_Some in Hs.
Qed.

(** ** [track_sum_contact_forces]: failures and total *)

Lemma mx_rows_returns_iff {A} (m : list A) (idx : list nat) :
  returns (mx_rows m idx) <-> Forall (fun i => i < length m) idx.
Proof.
  unfold mx_rows. split.
  - intros [r H]. apply mapM_result_inv in H.
    apply Forall2_Forall_l with (1 := H). apply Forall_true.
    intros x i Hi. cbn beta in Hi.
    match type of Hi with
    | match ?t with _ => _ end = _ => destruct t eqn:Hm; [|discriminate Hi]
    end.
    now apply lookup_lt_Some in Hm.
  - intros H. apply mapM_result_returns.
    eapply List.Forall_impl; [|exact H]. intros i Hi.
    destruct (lookup_lt_is_Some_2 m i Hi) as [x Hx].
    unfold MX in *. rewrite Hx. now exists x.
Qed.

Lemma get_contact_index_nonempty {A} (pn : PenaltyNode A) (tag : string) :
  returns (get_contact_index pn tag) ->
  Forall (fun s => s <> EmptyString) (contactNames (model (nlp pn))).
Proof.
  unfold get_contact_index.
  intros [idx H]. apply bind_returns in H as (flags & Hflags & _).
  apply mapM_result_inv in Hflags.
  apply Forall2_Forall_l with (1 := Hflags). apply Forall_true.
  intros b s Hs. cbn beta in Hs. apply last_char_returns.
  apply bind_returns in Hs as (c & Hc & _). now exists c.
Qed.

(** The rows of one tag can be read when the names that end with the tag
    have an index on the column of forces. *)
Lemma contact_rows_returns_iff {A} (pn : PenaltyNode A) (c : ascii)
    (force : list A) :
  Forall (fun s => s <> EmptyString) (contactNames (model (nlp pn))) ->
  returns (idx ← get_contact_index pn (String c EmptyString); mx_rows force idx)
  <-> (forall i s, contactNames (model (nlp pn)) !! i = Some s ->
                   ends_with s c -> i < length force).
Proof.
  intros Hne.
  pose proof (get_contact_index_flags pn c Hne) as Hidx.
  pose proof (get_contact_index_In pn c _ Hne Hidx) as Hin.
  rewrite Hidx, bind_Ok, mx_rows_returns_iff, List.Forall_forall.
  split.
  - intros H i s Hs Hend. apply H, Hin. now exists s.
  - intros H i Hi. apply Hin in Hi as (s & Hs & Hend). now apply (H i s).
Qed.

(** X10: [track_sum_contact_forces] returns exactly on the penalty nodes
    that have the states [q] and [qdot] and the controls [tau] and
    [muscles], no empty contact-force name, and a force, in the column the
    contact forces evaluate to, for every name that ends in X, Y or Z. *)
Theorem track_sum_contact_forces_returns_iff {A} (mx_zero : A)
    (mx_add : A -> A -> A) (pn : PenaltyNode A) :
  returns (track_sum_contact_forces mx_zero mx_add pn)
  <-> exists q qdot tau muscles,
        states (nlp pn) !! "q" = Some q
        /\ states (nlp pn) !! "qdot" = Some qdot
        /\ controls (nlp pn) !! "tau" = Some tau
        /\ controls (nlp pn) !! "muscles" = Some muscles
        /\ Forall (fun s => s <> EmptyString) (contactNames (model (nlp pn)))
        /\ forall i s,
             contactNames (model (nlp pn)) !! i = Some s ->
             ends_with s "X" \/ ends_with s "Y" \/ ends_with s "Z" ->
             i < length (contact_forces_func (nlp pn)
                           (var_mx q ++ var_mx qdot)
                           (var_mx tau ++ var_mx muscles)
                           (par_mx (parameters (nlp pn)))).
Proof.
  unfold track_sum_contact_forces. split.
  - intros [v H].
    apply bind_returns in H as (q & Hq & H).
    apply bind_returns in H as (qdot & Hqdot & H).
    apply bind_returns in H as (tau & Htau & H).
    apply bind_returns in H as (muscles & Hmus & H).
    apply dict_getitem_Ok in Hq, Hqdot, Htau, Hmus.
    unfold vertcat in H. cbn [concat] in H. rewrite !app_nil_r in H.
    set (force := contact_forces_func _ _ _ _) in *.
    apply bind_returns in H as (ix & Hix & H).
    apply bind_returns in H as (fx & Hfx & H).
    apply bind_returns in H as (iy & Hiy & H).
    apply bind_returns in H as (fy & Hfy & H).
    apply bind_returns in H as (iz & Hiz & H).
    apply bind_returns in H as (fz & Hfz & _).
    assert (Hne : Forall (fun s => s <> EmptyString)
                    (contactNames (model (nlp pn))))
      by (apply (get_contact_index_nonempty pn "X"); now exists ix).
    exists q, qdot, tau, muscles. repeat split; try assumption.
    intros i s Hs [Hend|[Hend|Hend]].
    + apply (proj1 (contact_rows_returns_iff pn "X" force Hne)) with (s := s);
        [|assumption..]. rewrite Hix, bind_Ok. now exists fx.
    + apply (proj1 (contact_rows_returns_iff pn "Y" force Hne)) with (s := s);
        [|assumption..]. rewrite Hiy, bind_Ok. now exists fy.
    + apply (proj1 (contact_rows_returns_iff pn "Z" force Hne)) with (s := s);
        [|assumption..]. rewrite Hiz, bind_Ok. now exists fz.
  - intros (q & qdot & tau & muscles & Hq & Hqdot & Htau & Hmus & Hne & Hforce).
    apply dict_getitem_Ok in Hq, Hqdot, Htau, Hmus.
    rewrite Hq, Hqdot, Htau, Hmus, !bind_Ok.
    unfold vertcat. cbn [concat]. rewrite !app_nil_r.
    set (force := contact_forces_func _ _ _ _) in *.
    assert (Hrows : forall c : ascii,
               (forall s, ends_with s c ->
                  ends_with s "X" \/ ends_with s "Y" \/ ends_with s "Z") ->
               returns (idx ← get_contact_index pn (String c EmptyString);
                        mx_rows force idx)).
    { intros c Hc. apply (contact_rows_returns_iff pn c force Hne).
      intros i s Hs Hend. apply (Hforce i s Hs). now apply Hc. }
    destruct (Hrows "X"%char ltac:(tauto)) as [fx Hfx].
    destruct (Hrows "Y"%char ltac:(tauto)) as [fy Hfy].
    destruct (Hrows "Z"%char ltac:(tauto)) as [fz Hfz].
    apply bind_returns in Hfx as (ix & Hix & Hfx).
    apply bind_returns in Hfy as (iy & Hiy & Hfy).
    apply bind_returns in Hfz as (iz & Hiz & Hfz).
    cbv zeta. fold force.
    rewrite Hix, bind_Ok, Hfx, bind_Ok, Hiy, bind_Ok, Hfy, bind_Ok.
    rewrite Hiz, bind_Ok, Hfz, bind_Ok. eexists. reflexivity.
Qed.

Section Totals.
Context {A : Type} (mx_zero : A) (mx_add : A -> A -> A).
Hypothesis add_assoc : forall a b c, mx_add a (mx_add b c) = mx_add (mx_add a b) c.
Hypothesis add_comm : forall a b, mx_add a b = mx_add b a.
Hypothesis add_zero : forall a, mx_add mx_zero a = a.

Lemma fold_left_add_start (l : list A) (a : A) :
  fold_left mx_add l a = mx_add a (fold_left mx_add l mx_zero).
Proof.
  revert a. induction l as [|x l IH]; intros a; simpl.
  - now rewrite add_comm, add_zero.
  - rewrite IH, (IH (mx_add mx_zero x)), add_zero. now rewrite add_assoc.
Qed.

Lemma mx_sum_cons (x : A) (l : list A) :
  mx_sum mx_zero mx_add (x :: l) = mx_add x (mx_sum mx_zero mx_add l).
Proof.
  unfold mx_sum. simpl. now rewrite fold_left_add_start, add_zero.
Qed.

Lemma tagged_cons (c : ascii) (s : string) (names : list string) (f : A)
    (force : list A) :
  tagged c (s :: names) (f :: force)
  = if ends_withb s c then f :: tagged c names force else tagged c names force.
Proof. unfold tagged. simpl. now destruct (ends_withb s c). Qed.

Lemma tagged_total (names : list string) :
  forall force : list A,
    length force = length names ->
    Forall (fun s => ends_with s "X" \/ ends_with s "Y" \/ ends_with s "Z")
      names ->
    mx_add (mx_add (mx_sum mx_zero mx_add (tagged "X" names force))
                   (mx_sum mx_zero mx_add (tagged "Y" names force)))
           (mx_sum mx_zero mx_add (tagged "Z" names force))
    = mx_sum mx_zero mx_add force.
Proof.
  induction names as [|s names IH]; intros [|f force] Hlen Hends;
    try discriminate Hlen.
  - unfold tagged, mx_sum. simpl. now rewrite !add_zero.
  - injection Hlen as Hlen. inversion Hends as [|? ? Hs Hrest]; subst.
    specialize (IH force Hlen Hrest).
    rewrite !tagged_cons, (mx_sum_cons f force), <- IH.
    destruct (ends_withb s "X") eqn:HX, (ends_withb s "Y") eqn:HY,
             (ends_withb s "Z") eqn:HZ;
      try apply ends_withb_spec in HX; try apply ends_withb_spec in HY;
      try apply ends_withb_spec in HZ;
      try (pose proof (ends_with_unique s _ _ HX HY); discriminate);
      try (pose proof (ends_with_unique s _ _ HX HZ); discriminate);
      try (pose proof (ends_with_unique s _ _ HY HZ); discriminate).
    + rewrite mx_sum_cons, !add_assoc. reflexivity.
    + rewrite mx_sum_cons, !add_assoc.
      now rewrite (add_comm (mx_sum mx_zero mx_add (tagged "X" names force)) f).
    + rewrite mx_sum_cons, !add_assoc.
      rewrite (add_comm (mx_add _ _) f), !add_assoc. reflexivity.
    + exfalso. destruct Hs as [Hs|[Hs|Hs]]; apply ends_withb_spec in Hs;
        congruence.
Qed.

End Totals.

Lemma ends_with_nonempty (s : string) (c : ascii) :
  ends_with s c -> s <> EmptyString.
Proof.
  intros [pre H] ->. destruct pre; discriminate.
Qed.

(** X11: when the sum of the expressions is associative and commutative
    with the zero as neutral element, every contact-force name ends in X, Y
    or Z, and the contact forces come one per name, the three components of
    what [track_sum_contact_forces] returns add up to the sum of all the
    contact forces: no force is left out or counted twice. *)
Theorem track_sum_contact_forces_total {A} (mx_zero : A)
    (mx_add : A -> A -> A) (pn : PenaltyNode A)
    (q qdot tau muscles : OptimizationVariable A) (v : list A) :
  (forall a b c, mx_add a (mx_add b c) = mx_add (mx_add a b) c) ->
  (forall a b, mx_add a b = mx_add b a) ->
  (forall a, mx_add mx_zero a = a) ->
  states (nlp pn) !! "q" = Some q ->
  states (nlp pn) !! "qdot" = Some qdot ->
  controls (nlp pn) !! "tau" = Some tau ->
  controls (nlp pn) !! "muscles" = Some muscles ->
  let names := contactNames (model (nlp pn)) in
  let force :=
    contact_forces_func (nlp pn)
      (var_mx q ++ var_mx qdot) (var_mx tau ++ var_mx muscles)
      (par_mx (parameters (nlp pn))) in
  Forall (fun s => ends_with s "X" \/ ends_with s "Y" \/ ends_with s "Z")
    names ->
  length force = length names ->
  track_sum_contact_forces mx_zero mx_add pn = Ok v ->
  mx_sum mx_zero mx_add v = mx_sum mx_zero mx_add force.
Proof.
  intros Hassoc Hcomm Hzero Hq Hqdot Htau Hmus names force Hends Hlen H.
  assert (Hne : Forall (fun s => s <> EmptyString) names).
  { eapply List.Forall_impl; [|exact Hends]. intros s [Hs|[Hs|Hs]];
      now apply ends_with_nonempty in Hs. }
  unfold track_sum_contact_forces in H.
  apply dict_getitem_Ok in Hq, Hqdot, Htau, Hmus.
  rewrite Hq, Hqdot, Htau, Hmus, !bind_Ok in H.
  unfold vertcat in H. cbn [concat] in H. rewrite !app_nil_r in H.
  fold force in H.
  pose proof (contact_rows pn "X" force Hne Hlen) as HX.
  pose proof (contact_rows pn "Y" force Hne Hlen) as HY.
  pose proof (contact_rows pn "Z" force Hne Hlen) as HZ.
  fold names in HX, HY, HZ.
  apply bind_returns in HX as (ix & Hix & HX).
  apply bind_returns in HY as (iy & Hiy & HY).
  apply bind_returns in HZ as (iz & Hiz & HZ).
  cbv zeta in H.
  rewrite Hix, bind_Ok, HX, bind_Ok, Hiy, bind_Ok, HY, bind_Ok in H.
  rewrite Hiz, bind_Ok, HZ, bind_Ok in H.
  unfold sum1, mx_to_cx in H. cbn [app] in H. injection H as <-.
  rewrite <- (tagged_total mx_zero mx_add Hassoc Hcomm Hzero names force Hlen Hends).
  unfold mx_sum at 1. cbn [fold_left]. now rewrite Hzero.
Qed.

(** ** [get_phase_time_shooting_numbers]: when it returns, what it raises *)

(** X12: for both float flavours, [get_phase_time_shooting_numbers] returns
    exactly when every quotient [phase_time[i] / dt] is a finite float; on
    data with no phase time it returns for every [dt]. *)
Theorem get_phase_time_shooting_numbers_returns_iff
    (k : float_kind) (data : LoadData) (dt : float) :
  returns (get_phase_time_shooting_numbers k data dt)
  <-> Forall (fun time => is_finite (float_div time dt) = true)
        (get_time (c3d_data data)).
Proof.
  rewrite get_phase_time_shooting_numbers_mapM. split.
  - intros [[times ns] H]. apply bind_returns in H as (ns' & Hns & _).
    apply mapM_result_inv in Hns.
    apply Forall2_Forall_l with (1 := Hns). apply Forall_true.
    intros n time Hn. cbn beta in Hn.
    apply bind_returns in Hn as (q & Hq & Hn).
    apply truediv_Ok in Hq as ->.
    apply int_of_float_returns. now exists n.
  - intros H.
    assert (Hns : returns (mapM (fun time => q ← truediv k time dt; int_of_float q)
                             (get_time (c3d_data data)))).
    { apply mapM_result_returns.
      eapply List.Forall_impl; [|exact H]. intros time Hfin. cbn beta.
      rewrite truediv_nonzero by (now apply float_div_finite in Hfin).
      rewrite bind_Ok. now apply int_of_float_returns. }
    destruct Hns as [ns ->]. rewrite bind_Ok. eexists. reflexivity.
Qed.

(** X13: [get_phase_time_shooting_numbers] raises nothing but a
    [ZeroDivisionError], on built-in floats with [dt] zero; an
    [OverflowError], with a phase time whose quotient by [dt] is an
    infinity; or a [ValueError], with a phase time whose quotient is not a
    number. *)
Theorem get_phase_time_shooting_numbers_exceptions
    (k : float_kind) (data : LoadData) (dt : float) (e : exception) :
  get_phase_time_shooting_numbers k data dt = Raise e ->
  (e = ZeroDivisionError /\ k = builtin_float /\ is_zero dt = true)
  \/ (e = OverflowError
      /\ exists time s, In time (get_time (c3d_data data))
                        /\ float_div time dt = S754_infinity s)
  \/ (e = ValueError
      /\ exists time, In time (get_time (c3d_data data))
                      /\ float_div time dt = S754_nan).
Proof.
  rewrite get_phase_time_shooting_numbers_mapM. intros H.
  apply bind_raises in H as [H|(ns & _ & H)]; [|discriminate].
  apply mapM_result_raise_inv in H as (time & Hin & H).
  apply bind_raises in H as [H|(q & Hq & H)].
  - left. now apply truediv_raises in H.
  - apply truediv_Ok in Hq as ->.
    apply int_of_float_raises in H as [[-> [s Hs]]|[-> Hnan]].
    + right. left. split; [reflexivity|]. now exists time, s.
    + right. right. split; [reflexivity|]. now exists time.
Qed.

(** X14: with [dt] zero and a first phase time [time], built-in floats make
    [get_phase_time_shooting_numbers] raise [ZeroDivisionError]; numpy
    floats make it raise [ValueError] when [time] is zero or not a number,
    and [OverflowError] otherwise. *)
Theorem get_phase_time_shooting_numbers_zero_step
    (data : LoadData) (dt time : float) (rest : list float) :
  is_zero dt = true ->
  get_time (c3d_data data) = time :: rest ->
  get_phase_time_shooting_numbers builtin_float data dt
  = Raise ZeroDivisionError
  /\ get_phase_time_shooting_numbers numpy_float64 data dt
     = Raise match time with
             | S754_zero _ | S754_nan => ValueError
             | _ => OverflowError
             end.
Proof.
  intros Hdt Htime. rewrite !get_phase_time_shooting_numbers_mapM, Htime.
  destruct dt as [sd|sd| |sd md ed]; try discriminate Hdt.
  split; [reflexivity|].
  destruct time as [s|s| |s m ex]; reflexivity.
Qed.

Lemma float_div_sign (t dt : float) (s : bool) (m : positive) (ex : Z) :
  float_le float_0_0 t = true ->
  float_lt float_0_0 dt = true ->
  float_div t dt = S754_finite s m ex ->
  s = false.
Proof.
  unfold float_le, float_lt, float_0_0, float_div.
  destruct t as [[|]|[|]| |[|] mx et], dt as [[|]|[|]| |[|] my ed];
    cbn [SFleb SFltb SFcompare]; intros Ht Hdt; try discriminate;
    cbn [SFdiv xorb]; try discriminate.
  destruct (SFdiv_core_binary prec emax (Z.pos mx) et (Z.pos my) ed)
    as [[mz ez] lz].
  unfold binary_round_aux.
  destruct (shr_fexp prec emax mz ez lz) as [mrs' e'].
  destruct (shr_fexp prec emax _ e' loc_Exact) as [mrs'' e''].
  destruct (shr_m mrs'') as [|m'|m']; try discriminate.
  destruct (e'' <=? emax - prec)%Z.
  - intros H. now injection H as <- _ _.
  - discriminate.
Qed.

(** X15: for a step above zero and phase times that are not negative, no
    shooting number [get_phase_time_shooting_numbers] returns is
    negative. *)
Theorem get_phase_time_shooting_numbers_nonnegative
    (k : float_kind) (data : LoadData) (dt : float)
    (times : list float) (number_shooting_points : list Z) :
  float_lt float_0_0 dt = true ->
  Forall (fun time => float_le float_0_0 time = true)
    (get_time (c3d_data data)) ->
  get_phase_time_shooting_numbers k data dt
  = Ok (times, number_shooting_points) ->
  Forall (fun n => (0 <= n)%Z) number_shooting_points.
Proof.
  intros Hdt Htimes H. rewrite get_phase_time_shooting_numbers_mapM in H.
  apply bind_returns in H as (ns & Hns & H). injection H as _ <-.
  apply mapM_result_inv in Hns.
  apply Forall2_Forall_r with (1 := Hns).
  eapply List.Forall_impl; [|exact Htimes].
  intros time Htime n Hn. cbn beta in Hn.
  apply bind_returns in Hn as (q & Hq & Hn).
  apply truediv_Ok in Hq as ->.
  destruct (float_div time dt) as [s|s| |s m ex] eqn:Hdiv; simpl in Hn;
    try discriminate; injection Hn as <-; [lia|].
  apply float_div_sign in Hdiv as ->; [|assumption..].
  simpl. apply Z.shiftl_nonneg. lia.
Qed.

(** ** [main]: the directory of the script *)

Lemma split_nonempty (sep : ascii) (s : string) : split sep s <> [].
Proof.
  destruct s as [|c rest]; simpl; [discriminate|].
  destruct (Ascii.eqb c sep); [discriminate|].
  destruct (split sep rest); discriminate.
Qed.

Lemma join_split (sep : ascii) (s : string) :
  join (String sep EmptyString) (split sep s) = s.
Proof.
  induction s as [|c rest IH]; [reflexivity|]. cbn [split].
  destruct (Ascii.eqb_spec c sep) as [->|Hne].
  - pose proof (split_nonempty sep rest) as Hrest.
    destruct (split sep rest) as [|w ws]; [congruence|].
    cbn [join] in *. rewrite append_nil, append_cons, append_nil.
    now rewrite IH.
  - pose proof (split_nonempty sep rest) as Hrest.
    destruct (split sep rest) as [|w ws]; [congruence|].
    cbn [join] in *. destruct ws as [|w' ws].
    + now rewrite IH.
    + rewrite append_cons. now rewrite IH.
Qed.

Lemma split_append (sep : ascii) (dir name : string) :
  split sep (String.append dir (String sep name))
  = split sep dir ++ split sep name.
Proof.
  induction dir as [|c dir IH].
  - rewrite append_nil. cbn [split]. now rewrite Ascii.eqb_refl.
  - rewrite append_cons. cbn [split]. rewrite IH.
    destruct (Ascii.eqb c sep); [reflexivity|].
    pose proof (split_nonempty sep dir) as Hdir.
    destruct (split sep dir) as [|w ws]; [congruence|]. reflexivity.
Qed.

Lemma contains_char_cons (sep c : ascii) (rest : string) :
  contains (String sep EmptyString) (String c rest)
  = Ascii.eqb c sep || contains (String sep EmptyString) rest.
Proof.
  cbn [contains String.prefix].
  destruct (Ascii.ascii_dec sep c) as [->|Hne].
  - rewrite Ascii.eqb_refl. now destruct rest.
  - destruct (Ascii.eqb_spec c sep) as [->|_]; [congruence|reflexivity].
Qed.

Lemma split_no_sep (sep : ascii) (name : string) :
  contains (String sep EmptyString) name = false -> split sep name = [name].
Proof.
  induction name as [|c rest IH]; [reflexivity|].
  rewrite contains_char_cons. intros H.
  apply orb_false_elim in H as [Hc Hrest].
  cbn [split]. rewrite Hc, (IH Hrest). reflexivity.
Qed.

(** X16: for a script [name], a name without a slash, in the directory
    [dir], the root path of [main] is [dir] followed by a slash, whatever
    slashes [dir] holds; the files of [main] are looked up below it. *)
Theorem root_path_of_script (dir name : string) :
  contains "/" name = false ->
  root_path (String.append dir (String "/" name)) = String.append dir "/".
Proof.
  intros Hname. unfold root_path.
  rewrite split_append, (split_no_sep "/" name Hname).
  rewrite removelast_last. now rewrite join_split.
Qed.

(** X17: for a script given by its name alone, without a slash, the root
    path of [main] is the root directory ["/"], not the current one. *)
Theorem root_path_of_bare_name (name : string) :
  contains "/" name = false -> root_path name = "/".
Proof.
  intros Hname. unfold root_path.
  now rewrite (split_no_sep "/" name Hname).
Qed.

(** ** The initial guesses: a warm start from the saved solution *)

Lemma flat_map_blocks {B} (f : nat -> list B) (m n : nat) :
  forall s,
    (forall i, i < n -> length (f (s + i)) = m) ->
    forall i j, i < n -> j < m ->
      flat_map f (seq s n) !! (i * m + j) = f (s + i) !! j.
Proof.
  induction n as [|n IH]; intros s Hlen i j Hi Hj; [lia|].
  cbn [seq flat_map]. destruct i as [|i].
  - rewrite Nat.add_0_r. apply lookup_app_l.
    specialize (Hlen 0 ltac:(lia)). rewrite Nat.add_0_r in Hlen. simpl. lia.
  - rewrite lookup_app_r.
    + pose proof (Hlen 0 ltac:(lia)) as H0. rewrite Nat.add_0_r in H0.
      rewrite H0.
      replace (S i * m + j - m) with (i * m + j) by (simpl; lia).
      rewrite (IH (S s)); [|intros i' Hi'|lia|lia].
      * now replace (S s + i) with (s + S i) by lia.
      * replace (S s + i') with (s + S i') by lia. apply Hlen. lia.
    + pose proof (Hlen 0 ltac:(lia)) as H0. rewrite Nat.add_0_r in H0.
      rewrite H0. simpl. lia.
Qed.

(** Without its last column, an array of two axes keeps the entries of the
    other columns. *)
Lemma drop_last_axis1_entries (a t : ndarray) (n0 n1 : nat) :
  drop_last_axis1 a = Ok t ->
  shape a = [n0; n1] ->
  length (data a) = n0 * n1 ->
  shape t = [n0; n1 - 1]
  /\ forall i j, i < n0 -> j < n1 - 1 -> entry t i j = entry a i j.
Proof.
  unfold drop_last_axis1. intros H Hshape Hlen. rewrite Hshape in H.
  injection H as <-. split; [reflexivity|].
  intros i j Hi Hj. unfold entry. cbn [shape data]. rewrite Hshape.
  replace (i <? n0) with true by (symmetry; apply Nat.ltb_lt; lia).
  replace (j <? n1 - 1) with true by (symmetry; apply Nat.ltb_lt; lia).
  replace (j <? n1) with true by (symmetry; apply Nat.ltb_lt; lia).
  cbn [andb size_of fold_right].
  rewrite (flat_map_blocks _ (n1 - 1) n0 0); [| |lia|lia].
  - cbn [Nat.add]. rewrite lookup_take, lookup_drop.
    rewrite decide_True by lia.
    f_equal. lia.
  - intros i' Hi'. cbn [Nat.add]. rewrite length_take, length_drop. nia.
Qed.

(** X18: the program [prepare_ocp] returns starts from the solution saved
    in [gait.bo]: it has one state guess and one control guess per phase,
    at each frame; the state guess of a phase is the saved states of the
    phase as they are, and the control guess the saved controls without
    their last column, the entries of the other columns kept in place. *)
Theorem prepare_ocp_initial_guesses fs biorbd_model final_time nb_shooting
    markers_ref grf_ref q_ref qdot_ref activation_ref nb_threads ode_solver
    ocp ocp_previous sol_previous :
  prepare_ocp fs biorbd_model final_time nb_shooting markers_ref grf_ref
    q_ref qdot_ref activation_ref nb_threads ode_solver = Ok ocp ->
  fs !! "gait.bo" = Some (ocp_previous, sol_previous) ->
  length (OptimalControlProgram.x_init ocp) = length biorbd_model
  /\ length (OptimalControlProgram.u_init ocp) = length biorbd_model
  /\ forall p, p < length biorbd_model ->
       exists states_p x controls_p u_all u,
         Solution.states sol_previous !! p = Some states_p
         /\ states_p !! "all" = Some x
         /\ OptimalControlProgram.x_init ocp !! p = Some (each_frame x)
         /\ Solution.controls sol_previous !! p = Some controls_p
         /\ controls_p !! "all" = Some u_all
         /\ OptimalControlProgram.u_init ocp !! p = Some (each_frame u)
         /\ (exists n0 n1 rest,
               shape u_all = n0 :: n1 :: rest
               /\ shape u = n0 :: (n1 - 1) :: rest)
         /\ (forall n0 n1,
               shape u_all = [n0; n1] ->
               length (data u_all) = n0 * n1 ->
               forall i j, i < n0 -> j < n1 - 1 ->
                 entry u i j = entry u_all i j).
Proof.
  intros H Hfile.
  apply prepare_ocp_inv in H
    as (first & objs & cons & xb & ub & xi & ui & _ & _ & _ & _ & Hi & ->).
  cbn [OptimalControlProgram.x_init OptimalControlProgram.u_init].
  rewrite initial_guesses_structure in Hi.
  unfold OptimalControlProgram.load in Hi. rewrite Hfile, bind_Ok in Hi.
  apply bind_returns in Hi as (guesses & Hg & Hi). injection Hi as <- <-.
  apply mapM_result_inv, seq_Forall2_lookup in Hg as [Hlen Hg].
  rewrite !length_map. repeat split; try exact Hlen.
  intros p Hp. destruct (Hg p Hp) as ([x u] & Hlookup & Hguess).
  apply phase_guess_inv in Hguess
    as (states_p & xa & controls_p & u_all & ua
        & Hs & Hx & -> & Hc & Hu & Hd & ->).
  exists states_p, xa, controls_p, u_all, ua.
  rewrite !list_lookup_fmap, Hlookup. repeat split; try assumption.
  - apply drop_last_axis1_inv in Hd as (n0 & n1 & rest & Hshape & Hshape').
    now exists n0, n1, rest.
  - intros n0 n1 Hshape Hlen'.
    now apply (drop_last_axis1_entries u_all ua n0 n1 Hd Hshape Hlen').
Qed.

(** ** [main]: what is loaded, solved and saved *)

Lemma main_steps biorbd_Model new_LoadData IPOPT solve kind file fs ocp sol fs' :
  main biorbd_Model new_LoadData IPOPT solve kind file fs = Ok (ocp, sol, fs') ->
  exists heel flatfoot forefoot swing data phase_time number_shooting_points
         q_ref qdot_ref markers_ref grf_ref moments_ref cop_ref emg_ref,
    biorbd_Model (String.append (root_path file)
                    "models/Gait_1leg_12dof_heel.bioMod") = Ok heel
    /\ biorbd_Model (String.append (root_path file)
                       "models/Gait_1leg_12dof_flatfoot.bioMod") = Ok flatfoot
    /\ biorbd_Model (String.append (root_path file)
                       "models/Gait_1leg_12dof_forefoot.bioMod") = Ok forefoot
    /\ biorbd_Model (String.append (root_path file)
                       "models/Gait_1leg_12dof_0contact.bioMod") = Ok swing
    /\ new_LoadData heel
         (String.append (root_path file) "data/normal01_out.c3d")
         (String.append (root_path file) "data/normal01_q_KalmanFilter.txt")
         (String.append (root_path file) "data/normal01_qdot_KalmanFilter.txt")
       = Ok data
    /\ get_phase_time_shooting_numbers kind data float_0_01
       = Ok (phase_time, number_shooting_points)
    /\ get_experimental_data data number_shooting_points phase_time
       = Ok (q_ref, qdot_ref, markers_ref, grf_ref, moments_ref, cop_ref, emg_ref)
    /\ prepare_ocp fs [heel; flatfoot; forefoot; swing] phase_time
         number_shooting_points markers_ref grf_ref q_ref qdot_ref emg_ref
         8 OdeSolver.RK4 = Ok ocp
    /\ solve ocp (configured_solver IPOPT) = Ok sol
    /\ fs' = OptimalControlProgram.save fs ocp sol "gait_test.bo".
Proof.
  unfold main. intros H.
  apply bind_returns in H as (heel & Hheel & H).
  apply bind_returns in H as (flatfoot & Hflatfoot & H).
  apply bind_returns in H as (forefoot & Hforefoot & H).
  apply bind_returns in H as (swing & Hswing & H).
  apply bind_returns in H as (first & Hfirst & H).
  injection Hfirst as <-.
  apply bind_returns in H as (data & Hdata & H).
  apply bind_returns in H as ([phase_time nsp] & Htime & H).
  apply bind_returns in H as ([[[[[[q_ref qdot_ref] markers_ref] grf_ref]
                                   moments_ref] cop_ref] emg_ref] & Hexp & H).
  apply bind_returns in H as (ocp' & Hocp & H).
  apply bind_returns in H as (sol' & Hsol & H).
  injection H as <- <- <-.
  exists heel, flatfoot, forefoot, swing, data, phase_time, nsp,
    q_ref, qdot_ref, markers_ref, grf_ref, moments_ref, cop_ref, emg_ref.
  repeat split; assumption.
Qed.

Lemma main_of_steps biorbd_Model new_LoadData IPOPT solve kind file fs ocp sol
    heel flatfoot forefoot swing data phase_time number_shooting_points
    q_ref qdot_ref markers_ref grf_ref moments_ref cop_ref emg_ref :
  biorbd_Model (String.append (root_path file)
                  "models/Gait_1leg_12dof_heel.bioMod") = Ok heel ->
  biorbd_Model (String.append (root_path file)
                  "models/Gait_1leg_12dof_flatfoot.bioMod") = Ok flatfoot ->
  biorbd_Model (String.append (root_path file)
                  "models/Gait_1leg_12dof_forefoot.bioMod") = Ok forefoot ->
  biorbd_Model (String.append (root_path file)
                  "models/Gait_1leg_12dof_0contact.bioMod") = Ok swing ->
  new_LoadData heel
    (String.append (root_path file) "data/normal01_out.c3d")
    (String.append (root_path file) "data/normal01_q_KalmanFilter.txt")
    (String.append (root_path file) "data/normal01_qdot_KalmanFilter.txt")
  = Ok data ->
  get_phase_time_shooting_numbers kind data float_0_01
  = Ok (phase_time, number_shooting_points) ->
  get_experimental_data data number_shooting_points phase_time
  = Ok (q_ref, qdot_ref, markers_ref, grf_ref, moments_ref, cop_ref, emg_ref) ->
  prepare_ocp fs [heel; flatfoot; forefoot; swing] phase_time
    number_shooting_points markers_ref grf_ref q_ref qdot_ref emg_ref
    8 OdeSolver.RK4 = Ok ocp ->
  solve ocp (configured_solver IPOPT) = Ok sol ->
  main biorbd_Model new_LoadData IPOPT solve kind file fs
  = Ok (ocp, sol, OptimalControlProgram.save fs ocp sol "gait_test.bo").
Proof.
  intros Hheel Hflatfoot Hforefoot Hswing Hdata Htime Hexp Hocp Hsol.
  unfold main.
  rewrite Hheel, bind_Ok, Hflatfoot, bind_Ok, Hforefoot, bind_Ok.
  rewrite Hswing, bind_Ok.
  change (getitem [heel; flatfoot; forefoot; swing] 0) with (Ok (A:=Model) heel).
  rewrite bind_Ok. cbv zeta.
  rewrite Hdata, bind_Ok, Htime, bind_Ok, Hexp, bind_Ok, Hocp, bind_Ok.
  now rewrite Hsol, bind_Ok.
Qed.

Lemma prepare_ocp_loads fs biorbd_model final_time nb_shooting
    markers_ref grf_ref q_ref qdot_ref activation_ref nb_threads ode_solver ocp :
  prepare_ocp fs biorbd_model final_time nb_shooting markers_ref grf_ref
    q_ref qdot_ref activation_ref nb_threads ode_solver = Ok ocp ->
  is_Some (fs !! "gait.bo").
Proof.
  intros H.
  apply prepare_ocp_inv in H
    as (first & objs & cons & xb & ub & xi & ui & _ & _ & _ & _ & Hi & _).
  rewrite initial_guesses_structure in Hi.
  apply bind_returns in Hi as (saved & Hload & _).
  unfold OptimalControlProgram.load in Hload.
  destruct (fs !! "gait.bo"); [eauto|discriminate].
Qed.

(** X19: [main] returns only with a file [gait.bo] to start from, and it
    never writes this file: after a run the file [gait_test.bo] holds the
    program and its solution, and every other file is as it was. *)
Theorem main_files biorbd_Model new_LoadData IPOPT solve kind file fs
    ocp sol fs' :
  main biorbd_Model new_LoadData IPOPT solve kind file fs = Ok (ocp, sol, fs') ->
  is_Some (fs !! "gait.bo")
  /\ fs' !! "gait_test.bo" = Some (ocp, sol)
  /\ forall path, path <> "gait_test.bo" -> fs' !! path = fs !! path.
Proof.
  intros H.
  apply main_steps in H
    as (heel & flatfoot & forefoot & swing & data & phase_time & nsp
        & q_ref & qdot_ref & markers_ref & grf_ref & _ & _ & emg_ref
        & _ & _ & _ & _ & _ & _ & _ & Hocp & _ & ->).
  unfold OptimalControlProgram.save. split; [|split].
  - exact (prepare_ocp_loads _ _ _ _ _ _ _ _ _ _ _ _ Hocp).
  - apply lookup_insert_eq.
  - intros path Hpath. now apply lookup_insert_ne.
Qed.

(** X20: a second run of [main] on the files a first run left gives the
    same program, the same solution and the same files: the program does
    not depend on what the first run saved. *)
Theorem main_rerun biorbd_Model new_LoadData IPOPT solve kind file fs
    ocp sol fs' :
  main biorbd_Model new_LoadData IPOPT solve kind file fs = Ok (ocp, sol, fs') ->
  main biorbd_Model new_LoadData IPOPT solve kind file fs' = Ok (ocp, sol, fs').
Proof.
  intros H.
  apply main_steps in H
    as (heel & flatfoot & forefoot & swing & data & phase_time & nsp
        & q_ref & qdot_ref & markers_ref & grf_ref & moments_ref & cop_ref
        & emg_ref & Hheel & Hflatfoot & Hforefoot & Hswing & Hdata & Htime
        & Hexp & Hocp & Hsol & ->).
  set (fs' := OptimalControlProgram.save fs ocp sol "gait_test.bo").
  assert (Hsame : fs' !! "gait.bo" = fs !! "gait.bo")
    by (now apply lookup_insert_ne).
  rewrite (prepare_ocp_same_file fs fs' _ _ _ _ _ _ _ _ _ _ q_ref qdot_ref
             emg_ref (eq_sym Hsame)) in Hocp.
  rewrite (main_of_steps _ _ _ _ _ _ _ _ _ _ _ _ _ _ _ _ _ _ _ _ _ _ _
             Hheel Hflatfoot Hforefoot Hswing Hdata Htime Hexp Hocp Hsol).
  do 2 f_equal. unfold fs', OptimalControlProgram.save.
  apply insert_insert_eq.
Qed.

(** X21: the program [main] solves has the four models loaded below the
    root path, in the order heel, flatfoot, forefoot, swing; the phase
    times of the data loaded with the heel model; as shooting numbers, one
    per phase time, the integer parts of the phase times divided by 0.01;
    8 threads and the Runge-Kutta 4 integrator. *)
Theorem main_program biorbd_Model new_LoadData IPOPT solve kind file fs
    ocp sol fs' :
  main biorbd_Model new_LoadData IPOPT solve kind file fs = Ok (ocp, sol, fs') ->
  exists heel flatfoot forefoot swing data,
    biorbd_Model (String.append (root_path file)
                    "models/Gait_1leg_12dof_heel.bioMod") = Ok heel
    /\ biorbd_Model (String.append (root_path file)
                       "models/Gait_1leg_12dof_flatfoot.bioMod") = Ok flatfoot
    /\ biorbd_Model (String.append (root_path file)
                       "models/Gait_1leg_12dof_forefoot.bioMod") = Ok forefoot
    /\ biorbd_Model (String.append (root_path file)
                       "models/Gait_1leg_12dof_0contact.bioMod") = Ok swing
    /\ new_LoadData heel
         (String.append (root_path file) "data/normal01_out.c3d")
         (String.append (root_path file) "data/normal01_q_KalmanFilter.txt")
         (String.append (root_path file) "data/normal01_qdot_KalmanFilter.txt")
       = Ok data
    /\ OptimalControlProgram.biorbd_model ocp = [heel; flatfoot; forefoot; swing]
    /\ OptimalControlProgram.phase_time ocp = get_time (c3d_data data)
    /\ Forall2 (fun time n => int_of_float (float_div time float_0_01) = Ok n)
         (OptimalControlProgram.phase_time ocp)
         (OptimalControlProgram.n_shooting ocp)
    /\ OptimalControlProgram.n_threads ocp = 8%Z
    /\ OptimalControlProgram.ode_solver ocp = OdeSolver.RK4.
Proof.
  intros H.
  apply main_steps in H
    as (heel & flatfoot & forefoot & swing & data & phase_time & nsp
        & q_ref & qdot_ref & markers_ref & grf_ref & moments_ref & cop_ref
        & emg_ref & Hheel & Hflatfoot & Hforefoot & Hswing & Hdata & Htime
        & _ & Hocp & _ & _).
  apply prepare_ocp_inv in Hocp
    as (first & objs & cons & xb & ub & xi & ui & _ & _ & _ & _ & _ & ->).
  cbn [OptimalControlProgram.biorbd_model OptimalControlProgram.phase_time
       OptimalControlProgram.n_shooting OptimalControlProgram.n_threads
       OptimalControlProgram.ode_solver].
  rewrite get_phase_time_shooting_numbers_mapM in Htime.
  apply bind_returns in Htime as (ns & Hns & Htime).
  injection Htime as <- <-.
  exists heel, flatfoot, forefoot, swing, data.
  repeat split; try assumption.
  apply mapM_result_inv in Hns.
  eapply Forall2_impl; [exact Hns|]. intros time n Hn. cbn beta in Hn.
  apply bind_returns in Hn as (q & Hq & Hn).
  now apply truediv_Ok in Hq as ->.
Qed.

(** ** [get_experimental_data]: seven dispatches, in order *)

Lemma mapM_result_raise_iff {A B} (f : A -> result B) (l : list A)
    (e : exception) :
  mapM f l = Raise e
  <-> exists pre a post,
        l = pre ++ a :: post
        /\ Forall (fun x => returns (f x)) pre
        /\ f a = Raise e.
Proof.
  split.
  - induction l as [|x l IH]; simpl; [discriminate|]. intros H.
    apply bind_raises in H as [H|(y & Hy & H)].
    + exists [], x, l. repeat split; [constructor|exact H].
    + apply bind_raises in H as [H|(ys & _ & H)]; [|discriminate].
      destruct (IH H) as (pre & a & post & -> & Hpre & Ha).
      exists (x :: pre), a, post. repeat split; [|exact Ha].
      constructor; [now exists y|exact Hpre].
  - intros (pre & a & post & -> & Hpre & Ha).
    induction Hpre as [|x pre [y Hy] _ IH]; simpl.
    + now rewrite Ha.
    + rewrite Hy, bind_Ok, IH. reflexivity.
Qed.

Lemma get_experimental_data_mapM (data : LoadData)
    (number_shooting_points : list Z) (phase_time : list float) :
  get_experimental_data data number_shooting_points phase_time
  = (refs ← mapM (fun a => dispatch_data data a number_shooting_points
                             phase_time)
               [q data; qdot data; trajectories (c3d_data data);
                forces (c3d_data data); moments (c3d_data data);
                cop (c3d_data data); emg (c3d_data data)];
     match refs with
     | [q_ref; qdot_ref; markers_ref; grf_ref; moments_ref; cop_ref; emg_ref] =>
         Ok (q_ref, qdot_ref, markers_ref, grf_ref, moments_ref, cop_ref,
             emg_ref)
     | _ => Raise RuntimeError
     end).
Proof.
  unfold get_experimental_data. cbn [mapM].
  repeat match goal with
         | |- context [dispatch_data data ?a ?n ?t] =>
             destruct (dispatch_data data a n t); [rewrite !bind_Ok|reflexivity]
         end.
  reflexivity.
Qed.

(** X22: [get_experimental_data] returns exactly when the data dispatch
    each of [q], [qdot], the marker trajectories, the forces, the moments,
    the centres of pressure and the EMG, those [main] never reads
    included; and it raises what the first of them, in this order, that
    fails to dispatch raises. *)
Theorem get_experimental_data_failures (data : LoadData)
    (number_shooting_points : list Z) (phase_time : list float) :
  let dispatch a := dispatch_data data a number_shooting_points phase_time in
  let arrays := [q data; qdot data; trajectories (c3d_data data);
                 forces (c3d_data data); moments (c3d_data data);
                 cop (c3d_data data); emg (c3d_data data)] in
  (returns (get_experimental_data data number_shooting_points phase_time)
   <-> Forall (fun a => returns (dispatch a)) arrays)
  /\ forall e,
       get_experimental_data data number_shooting_points phase_time = Raise e
       <-> exists pre a post,
             arrays = pre ++ a :: post
             /\ Forall (fun a => returns (dispatch a)) pre
             /\ dispatch a = Raise e.
Proof.
  intros dispatch arrays. rewrite get_experimental_data_mapM.
  fold dispatch. fold arrays. split.
  - split.
    + intros [v H]. apply bind_returns in H as (refs & Hrefs & _).
      apply mapM_result_inv in Hrefs.
      apply Forall2_Forall_l with (1 := Hrefs). apply Forall_true.
      intros r a Hr. now exists r.
    + intros H. destruct (mapM_result_returns dispatch arrays H) as [refs Hrefs].
      rewrite Hrefs, bind_Ok. apply mapM_result_inv in Hrefs.
      apply Forall2_length in Hrefs. cbn [arrays length] in Hrefs.
      do 7 (destruct refs as [|? refs]; [discriminate Hrefs|]).
      destruct refs; [|discriminate Hrefs]. eexists. reflexivity.
  - intros e. rewrite <- mapM_result_raise_iff. split.
    + intros H. apply bind_raises in H as [H|(refs & Hrefs & H)]; [exact H|].
      apply mapM_result_inv, Forall2_length in Hrefs.
      cbn [arrays length] in Hrefs.
      do 7 (destruct refs as [|? refs]; [discriminate Hrefs|]).
      destruct refs; [discriminate H|discriminate Hrefs].
    + intros H. now rewrite H.
Qed.

(** ** Floats: a quotient of one at least *)

Lemma shr_1_m (mrs : shr_record) :
  (0 <= shr_m mrs)%Z -> shr_m (shr_1 mrs) = (shr_m mrs / 2)%Z.
Proof.
  destruct mrs as [m r s]. cbn [shr_m]. intros Hm.
  destruct m as [|[p|p|]|p]; cbn [shr_1 shr_m]; try lia; try reflexivity.
  - apply Z.div_unique with (r := 1%Z); lia.
  - apply Z.div_unique with (r := 0%Z); lia.
Qed.

Lemma iter_shr_1_m (p : positive) :
  forall mrs,
    (0 <= shr_m mrs)%Z ->
    shr_m (SpecFloat.iter_pos shr_1 p mrs) = (shr_m mrs / 2 ^ Z.pos p)%Z.
Proof.
  assert (Hpow : forall q : positive, (0 < 2 ^ Z.pos q)%Z)
    by (intros q; apply Z.pow_pos_nonneg; lia).
  induction p as [p IH|p IH|]; intros mrs Hm; cbn [SpecFloat.iter_pos].
  - assert (H1 : (0 <= shr_m (shr_1 mrs))%Z)
      by (rewrite shr_1_m by exact Hm; apply Z.div_pos; lia).
    assert (H2 : (0 <= shr_m (SpecFloat.iter_pos shr_1 p (shr_1 mrs)))%Z).
    { rewrite IH by exact H1. apply Z.div_pos; [exact H1|apply Hpow]. }
    rewrite IH by exact H2. rewrite IH by exact H1. rewrite shr_1_m by exact Hm.
    pose proof (Hpow p).
    rewrite !Z.div_div by lia. f_equal.
    transitivity (2 ^ (1 + Z.pos p + Z.pos p))%Z; [|f_equal; lia].
    rewrite !Z.pow_add_r by lia. change (2 ^ 1)%Z with 2%Z. ring.
  - assert (H2 : (0 <= shr_m (SpecFloat.iter_pos shr_1 p mrs))%Z).
    { rewrite IH by exact Hm. apply Z.div_pos; [exact Hm|apply Hpow]. }
    rewrite IH by exact H2. rewrite IH by exact Hm.
    pose proof (Hpow p).
    rewrite !Z.div_div by lia. f_equal.
    transitivity (2 ^ (Z.pos p + Z.pos p))%Z; [|f_equal; lia].
    rewrite !Z.pow_add_r by lia. ring.
  - rewrite shr_1_m by exact Hm. reflexivity.
Qed.

Lemma shr_fexp_m (m e : Z) (l : location) :
  (0 <= m)%Z ->
  snd (shr_fexp prec emax m e l) = Z.max e (fexp prec emax (Zdigits2 m + e))
  /\ shr_m (fst (shr_fexp prec emax m e l))
     = (m / 2 ^ (snd (shr_fexp prec emax m e l) - e))%Z.
Proof.
  intros Hm. unfold shr_fexp, shr.
  destruct (fexp prec emax (Zdigits2 m + e) - e)%Z as [|p|p] eqn:Hn;
    cbn [fst snd].
  - split; [lia|]. rewrite shr_record_of_loc_m, Z.sub_diag.
    now rewrite Z.div_1_r.
  - split; [lia|]. rewrite iter_shr_1_m by (now rewrite shr_record_of_loc_m).
    rewrite shr_record_of_loc_m. f_equal. f_equal. lia.
  - split; [lia|]. rewrite shr_record_of_loc_m, Z.sub_diag.
    now rewrite Z.div_1_r.
Qed.

Lemma at_least_one_pos (m e : Z) : at_least_one m e -> (1 <= m)%Z.
Proof.
  intros [Hneg Hpos]. destruct (Z_le_gt_dec e 0) as [He|He]; [|apply Hpos; lia].
  specialize (Hneg He).
  assert (0 < 2 ^ (- e))%Z by (apply Z.pow_pos_nonneg; lia). lia.
Qed.

Lemma at_least_one_mono (m m' e : Z) :
  at_least_one m e -> (m <= m')%Z -> at_least_one m' e.
Proof. intros [Hneg Hpos] Hle. split; intros He; [specialize (Hneg He)|specialize (Hpos He)]; lia. Qed.

(** Shifting a mantissa to the exponent of the format keeps a number that is
    1 at least so: above the exponent 0 the mantissa keeps 53 digits. *)
Lemma at_least_one_shr (m e e2 : Z) :
  at_least_one m e ->
  e2 = Z.max e (fexp prec emax (Zdigits2 m + e)) ->
  at_least_one (m / 2 ^ (e2 - e)) e2.
Proof.
  intros Hm He2. pose proof (at_least_one_pos m e Hm) as Hpos.
  destruct (Z.eq_dec e2 e) as [->|Hne].
  { rewrite Z.sub_diag, Z.div_1_r. exact Hm. }
  assert (Hn : (0 < e2 - e)%Z) by lia.
  assert (Hpow : (0 < 2 ^ (e2 - e))%Z) by (apply Z.pow_pos_nonneg; lia).
  destruct m as [|p|p]; [lia| |lia].
  cbn [Zdigits2] in He2.
  pose proof (digits2_pos_bounds p) as [Hlo _].
  unfold fexp, SpecFloat.emin, prec, emax in He2.
  destruct Hm as [Hneg _]. split; intros He.
  - apply Z.div_le_lower_bound; [exact Hpow|].
    rewrite <- Z.pow_add_r by lia.
    replace (e2 - e + - e2)%Z with (- e)%Z by lia. apply Hneg. lia.
  - apply Z.div_le_lower_bound; [exact Hpow|]. rewrite Z.mul_1_r.
    eapply Z.le_trans; [|exact Hlo]. apply Z.pow_le_mono_r; lia.
Qed.

Lemma round_nearest_even_ge (m : Z) (l : location) :
  (m <= round_nearest_even m l)%Z.
Proof.
  destruct l as [|[ | | ]]; cbn [round_nearest_even]; try lia.
  destruct (Z.even m); lia.
Qed.

(** Rounding a number that is 1 at least gives a float that is 1 at least,
    or an infinity. *)
Lemma binary_round_aux_at_least_one (s : bool) (mz ez : Z) (lz : location) :
  at_least_one mz ez ->
  match binary_round_aux prec emax s mz ez lz with
  | S754_finite s' m e => s' = s /\ at_least_one (Z.pos m) e
  | S754_infinity _ => True
  | _ => False
  end.
Proof.
  intros H. unfold binary_round_aux.
  pose proof (at_least_one_pos _ _ H) as Hmz.
  destruct (shr_fexp_m mz ez lz ltac:(lia)) as [He1 Hm1].
  pose proof (at_least_one_shr _ _ _ H He1) as H1. rewrite <- Hm1 in H1.
  destruct (shr_fexp prec emax mz ez lz) as [mrs1 e1]. cbn [fst snd] in *.
  set (m1 := round_nearest_even (shr_m mrs1) (loc_of_shr_record mrs1)).
  assert (H1' : at_least_one m1 e1).
  { eapply at_least_one_mono; [exact H1|apply round_nearest_even_ge]. }
  pose proof (at_least_one_pos _ _ H1') as Hm1pos.
  destruct (shr_fexp_m m1 e1 loc_Exact ltac:(lia)) as [He2 Hm2].
  pose proof (at_least_one_shr _ _ _ H1' He2) as H2. rewrite <- Hm2 in H2.
  destruct (shr_fexp prec emax m1 e1 loc_Exact) as [mrs2 e2]. cbn [fst snd] in *.
  pose proof (at_least_one_pos _ _ H2) as Hm2pos.
  destruct (shr_m mrs2) as [|m2|m2]; [lia| |lia].
  destruct (e2 <=? emax - prec)%Z; [now split|exact I].
Qed.

Lemma SFltb_finite_false (mx my : positive) (ex ey : Z) :
  SFltb (S754_finite false mx ex) (S754_finite false my ey) = false ->
  (ey < ex)%Z \/ (ex = ey /\ (Z.pos my <= Z.pos mx)%Z).
Proof.
  unfold SFltb, SFcompare.
  destruct (Z.compare_spec ex ey) as [->|Hlt|Hgt]; try discriminate.
  - rewrite Pos.compare_cont_spec. cbn [Pos.switch_Eq].
    destruct (Pos.compare_spec mx my); try discriminate; intros _; right; split; lia.
  - now left.
Qed.

(** The quotient [SFdiv] starts from is 1 at least when the dividend is not
    below the divisor. *)
Lemma SFdiv_core_at_least_one (mx my : positive) (ex ey : Z) :
  SpecFloat.bounded prec emax mx ex = true ->
  SpecFloat.bounded prec emax my ey = true ->
  SFltb (S754_finite false mx ex) (S754_finite false my ey) = false ->
  forall mz ez lz,
    SFdiv_core_binary prec emax (Z.pos mx) ex (Z.pos my) ey = (mz, ez, lz) ->
    at_least_one mz ez.
Proof.
  intros Hx Hy Hlt mz ez lz.
  apply bounded_digits in Hx as (Hdx & Hex & Hnx).
  apply bounded_digits in Hy as (Hdy & Hey & _).
  apply SFltb_finite_false in Hlt.
  pose proof (digits2_pos_bounds mx) as [Hmx_lo Hmx].
  pose proof (digits2_pos_bounds my) as [Hmy_lo Hmy].
  set (k := (ex - ey)%Z).
  assert (Hk : (0 <= k)%Z) by (unfold k; lia).
  assert (Hval : (Z.pos my <= Z.pos mx * 2 ^ k)%Z).
  { destruct (Z.eq_dec k 0%Z) as [Hk0|Hk0].
    - rewrite Hk0. change (2 ^ 0)%Z with 1%Z. unfold k in Hk0. lia.
    - rewrite Hnx in Hmx_lo by (unfold k in *; lia).
      assert (Hmy53 : (Z.pos my < 2 ^ 53)%Z).
      { eapply Z.lt_le_trans; [exact Hmy|]. apply Z.pow_le_mono_r; lia. }
      assert (Hk1 : (2 ^ 1 <= 2 ^ k)%Z) by (apply Z.pow_le_mono_r; lia).
      change (2 ^ 1)%Z with 2%Z in Hk1.
      change (2 ^ (53 - 1))%Z with 4503599627370496%Z in Hmx_lo.
      change (2 ^ 53)%Z with 9007199254740992%Z in Hmy53. nia. }
  unfold SFdiv_core_binary. cbn [Zdigits2]. fold k.
  set (z := (Z.pos (digits2_pos mx) + ex - (Z.pos (digits2_pos my) + ey))%Z).
  set (e' := Z.min (fexp prec emax z) k).
  set (s := (k - e')%Z).
  assert (Hs : (0 <= s)%Z) by (unfold s, e'; lia).
  set (m' := match s with
             | Z.pos _ => Z.shiftl (Z.pos mx) s
             | 0%Z => Z.pos mx
             | Z.neg _ => 0%Z
             end).
  assert (Hm' : m' = (Z.pos mx * 2 ^ s)%Z).
  { unfold m'. destruct s as [|p|p]; [simpl; lia| |lia].
    now rewrite Z.shiftl_mul_pow2 by lia. }
  pose proof (Z_div_mod m' (Z.pos my) ltac:(lia)) as Hdiv.
  destruct (Z.div_eucl m' (Z.pos my)) as [q r].
  destruct Hdiv as [Hdiv Hr].
  intros Heq. injection Heq as <- <- _.
  assert (Hq : q = (m' / Z.pos my)%Z).
  { apply Z.div_unique with (r := r); [left; lia|exact Hdiv]. }
  rewrite Hq, Hm'. split; intros He'.
  - apply Z.div_le_lower_bound; [lia|].
    replace s with (k + - e')%Z by (unfold s; lia).
    rewrite Z.pow_add_r by lia.
    assert (0 < 2 ^ (- e'))%Z by (apply Z.pow_pos_nonneg; lia). nia.
  - apply Z.div_le_lower_bound; [lia|]. rewrite Z.mul_1_r.
    assert (Hfexp : (e' <= z - 53)%Z).
    { unfold e', fexp, SpecFloat.emin, prec, emax in *. lia. }
    assert (Hs' : (Z.pos (digits2_pos my) <= Z.pos (digits2_pos mx) - 1 + s)%Z)
      by (unfold s, z, k in *; lia).
    assert (Hpow : (2 ^ Z.pos (digits2_pos my)
                    <= 2 ^ (Z.pos (digits2_pos mx) - 1 + s))%Z)
      by (apply Z.pow_le_mono_r; lia).
    rewrite Z.pow_add_r in Hpow by lia.
    assert (0 < 2 ^ s)%Z by (apply Z.pow_pos_nonneg; lia). nia.
Qed.

(** The quotient of two positive floats, the dividend not below the
    divisor, is a float that is 1 at least, or an infinity. *)
Lemma float_div_at_least_one (mx my : positive) (ex ey : Z) :
  SpecFloat.bounded prec emax mx ex = true ->
  SpecFloat.bounded prec emax my ey = true ->
  SFltb (S754_finite false mx ex) (S754_finite false my ey) = false ->
  match float_div (S754_finite false mx ex) (S754_finite false my ey) with
  | S754_finite s m e => s = false /\ at_least_one (Z.pos m) e
  | S754_infinity _ => True
  | _ => False
  end.
Proof.
  intros Hx Hy Hlt. unfold float_div, SFdiv.
  pose proof (SFdiv_core_at_least_one mx my ex ey Hx Hy Hlt) as Hcore.
  destruct (SFdiv_core_binary prec emax (Z.pos mx) ex (Z.pos my) ey)
    as [[mz ez] lz].
  apply (binary_round_aux_at_least_one (xorb false false) mz ez lz).
  now apply (Hcore mz ez lz).
Qed.

Lemma int_of_float_at_least_one (m : positive) (e : Z) :
  at_least_one (Z.pos m) e -> (1 <= Z.shiftl (Z.pos m) e)%Z.
Proof.
  intros [Hneg Hpos]. destruct (Z_le_gt_dec e 0) as [He|He].
  - specialize (Hneg He).
    replace e with (- - e)%Z by lia. rewrite Z.shiftl_opp_r.
    rewrite Z.shiftr_div_pow2 by lia.
    apply Z.div_le_lower_bound; [apply Z.pow_pos_nonneg; lia|lia].
  - rewrite Z.shiftl_mul_pow2 by lia.
    assert (0 < 2 ^ e)%Z by (apply Z.pow_pos_nonneg; lia). nia.
Qed.

(** X23: for a step above zero and a phase time that is not negative, both
    of them floats of the format, the shooting number
    [get_phase_time_shooting_numbers] returns for the phase is 0 exactly
    when the phase time is less than the step. *)
Theorem get_phase_time_shooting_numbers_zero_iff
    (k : float_kind) (data : LoadData) (dt : float)
    (times : list float) (number_shooting_points : list Z) :
  binary64 dt ->
  float_lt float_0_0 dt = true ->
  get_phase_time_shooting_numbers k data dt
  = Ok (times, number_shooting_points) ->
  Forall2 (fun time n =>
             binary64 time -> float_le float_0_0 time = true ->
             n = 0%Z <-> float_lt time dt = true)
    times number_shooting_points.
Proof.
  intros Hdt Hpos H. rewrite get_phase_time_shooting_numbers_mapM in H.
  apply bind_returns in H as (ns & Hns & H). injection H as <- <-.
  apply mapM_result_inv in Hns.
  eapply Forall2_impl; [exact Hns|]. intros time n Hn Htime Hnonneg.
  cbn beta in Hn. apply bind_returns in Hn as (q & Hq & Hn).
  apply truediv_Ok in Hq as ->. split.
  - intros ->. destruct (float_lt time dt) eqn:Hlt; [reflexivity|exfalso].
    unfold binary64, float_lt, float_le, float_0_0 in *.
    destruct time as [[|]|[|]| |[|] mx ex], dt as [[|]|[|]| |[|] my ey];
      try discriminate Hnonneg; try discriminate Hpos; try discriminate Hlt;
      try discriminate Hn.
    cbn [valid_binary] in Htime, Hdt.
    pose proof (float_div_at_least_one mx my ex ey Htime Hdt Hlt) as Hone.
    destruct (float_div (S754_finite false mx ex) (S754_finite false my ey))
      as [s|s| |s m e]; try contradiction; try discriminate Hn.
    destruct Hone as [-> Hone]. apply int_of_float_at_least_one in Hone.
    cbn in Hn. injection Hn as Hn. cbn in Hone. lia.
  - intros Hlt.
    pose proof (float_div_below_one time dt Htime Hdt Hnonneg Hlt) as Hbelow.
    assert (Hfin : is_finite (float_div time dt) = true)
      by (apply int_of_float_returns; now exists n).
    rewrite (int_of_float_toward_zero _ Hfin) in Hn. injection Hn as <-.
    now apply toward_zero_below_one.
Qed.

(** ** Witnesses of the further statements *)

Lemma example_markers_arrays :
  forall p, p < length example_models ->
    exists a, example_markers !! p = Some a /\ markers_array a.
Proof.
  intros p Hp. exists (zeros [3; 26; 2]).
  split; [do 4 (destruct p as [|p]; [reflexivity|]); simpl in Hp; lia|].
  exists 3, 26, 2, []. split; [reflexivity|lia].
Defined.

Lemma flatfoot_names_nonempty :
  Forall (fun s => s <> EmptyString) flatfoot_names.
Proof. repeat constructor; discriminate. Defined.

Lemma prepare_ocp_exceptions_witness :
  prepare_ocp ∅ example_models example_times example_shooting
    example_markers example_grf [] [] [] 8 OdeSolver.RK4
  = Raise FileNotFoundError
  /\ (∅ : OptimalControlProgram.files) !! "gait.bo" = None.
Proof.
  assert (H : prepare_ocp ∅ example_models example_times example_shooting
                example_markers example_grf [] [] [] 8 OdeSolver.RK4
              = Raise FileNotFoundError) by (vm_compute; reflexivity).
  split; [exact H|].
  exact (proj1 (proj1 (proj2 (prepare_ocp_exceptions ∅ example_models
                                example_times example_shooting example_markers
                                example_grf [] [] [] 8 OdeSolver.RK4
                                FileNotFoundError)) H)).
Defined.

Lemma prepare_ocp_needs_saved_solution_witness :
  prepare_ocp ∅ example_models example_times example_shooting
    example_markers example_grf [] [] [] 8 OdeSolver.RK4
  = Raise FileNotFoundError.
Proof.
  apply (prepare_ocp_needs_saved_solution ∅ example_models example_times
           example_shooting example_markers example_grf [] [] [] 8
           OdeSolver.RK4).
  - simpl. lia.
  - exact example_markers_arrays.
  - simpl. lia.
  - reflexivity.
Defined.

Lemma prepare_ocp_objectives_invariants_witness :
  length (OptimalControlProgram.objective_functions example_program) = 35.
Proof.
  exact (proj1
           (prepare_ocp_objectives_invariants example_files example_models
              example_times example_shooting example_markers example_grf
              [] [] [] 8 OdeSolver.RK4 example_program
              ltac:(vm_compute; reflexivity))).
Defined.

Lemma prepare_ocp_marker_targets_witness :
  Forall (fun o =>
            forall idx, Objective.marker_index o = Some idx ->
              exists a t n0 n1 n2 rest,
                example_markers !! Objective.phase o = Some a
                /\ shape a = n0 :: n1 :: n2 :: rest
                /\ Forall (fun j => j < n1) idx
                /\ Objective.target o = Some t
                /\ take_axis1 a idx = Ok t
                /\ shape t = n0 :: length idx :: n2 :: rest)
    (OptimalControlProgram.objective_functions example_program).
Proof.
  exact (prepare_ocp_marker_targets example_files example_models
           example_times example_shooting example_markers example_grf
           [] [] [] 8 OdeSolver.RK4 example_program
           ltac:(vm_compute; reflexivity)).
Defined.

Lemma prepare_ocp_constraint_phases_witness :
  map Constraint.phase (OptimalControlProgram.constraints example_program)
  = [0; 0; 1; 1; 1; 1; 2; 2].
Proof.
  exact (proj1
           (prepare_ocp_constraint_phases example_files example_models
              example_times example_shooting example_markers example_grf
              [] [] [] 8 OdeSolver.RK4 example_program
              ltac:(vm_compute; reflexivity))).
Defined.

Lemma get_contact_index_long_tag_witness :
  get_contact_index example_node "XY" = Ok [].
Proof.
  apply (get_contact_index_long_tag example_node "XY").
  - unfold ascii_string. cbn [list_ascii_of_string].
    repeat (apply List.Forall_cons; [apply Nat.ltb_lt; reflexivity|]).
    apply List.Forall_nil.
  - discriminate.
  - exact flatfoot_names_nonempty.
Defined.

Lemma get_contact_index_partition_witness :
  exists c idx,
    get_contact_index example_node (String c EmptyString) = Ok idx /\ In 2 idx.
Proof.
  destruct (get_contact_index_partition example_node flatfoot_names_nonempty)
    as [Hcover _].
  apply (Hcover 2). simpl. lia.
Defined.

Lemma track_sum_contact_forces_total_witness :
  mx_sum 0%Z Z.add [3; 4; 8]%Z = mx_sum 0%Z Z.add [1; 2; 3; 4; 5]%Z.
Proof.
  apply (track_sum_contact_forces_total 0%Z Z.add example_node
           {| var_mx := [0; 0]%Z |} {| var_mx := [0; 0]%Z |}
           {| var_mx := [0; 0]%Z |} {| var_mx := [1]%Z |} [3; 4; 8]%Z);
    try (vm_compute; reflexivity); try (intros; lia).
  repeat (apply List.Forall_cons;
          [first [ left; apply ends_withb_spec; reflexivity
                 | right; left; apply ends_withb_spec; reflexivity
                 | right; right; apply ends_withb_spec; reflexivity ]|]).
  apply List.Forall_nil.
Defined.

Lemma get_phase_time_shooting_numbers_exceptions_witness :
  get_phase_time_shooting_numbers builtin_float (example_data example_times)
    float_0_0
  = Raise ZeroDivisionError
  /\ is_zero float_0_0 = true.
Proof.
  assert (H : get_phase_time_shooting_numbers builtin_float
                (example_data example_times) float_0_0
              = Raise ZeroDivisionError) by reflexivity.
  split; [exact H|].
  destruct (get_phase_time_shooting_numbers_exceptions _ _ _ _ H)
    as [(_ & _ & Hzero)|[[He _]|[He _]]];
    [exact Hzero|discriminate He|discriminate He].
Defined.

Lemma get_phase_time_shooting_numbers_zero_step_witness :
  get_phase_time_shooting_numbers builtin_float (example_data example_times)
    float_0_0
  = Raise ZeroDivisionError
  /\ get_phase_time_shooting_numbers numpy_float64 (example_data example_times)
       float_0_0
     = Raise OverflowError.
Proof.
  apply (get_phase_time_shooting_numbers_zero_step (example_data example_times)
           float_0_0 float_0_3 [float_0_3; float_0_3; float_0_3]);
    reflexivity.
Defined.

Lemma get_phase_time_shooting_numbers_nonnegative_witness :
  Forall (fun n => (0 <= n)%Z) [30; 0]%Z.
Proof.
  apply (get_phase_time_shooting_numbers_nonnegative builtin_float
           (example_data [float_0_3; float_0_005]) float_0_01
           [float_0_3; float_0_005] [30; 0]%Z).
  - reflexivity.
  - repeat (apply List.Forall_cons; [reflexivity|]). apply List.Forall_nil.
  - vm_compute. reflexivity.
Defined.

Lemma root_path_of_script_witness :
  root_path "/home/user/gait_ocp/main.py" = "/home/user/gait_ocp/".
Proof.
  apply (root_path_of_script "/home/user/gait_ocp" "main.py"). reflexivity.
Defined.

Lemma root_path_of_bare_name_witness : root_path "main.py" = "/".
Proof. apply (root_path_of_bare_name "main.py"). reflexivity. Defined.

Lemma prepare_ocp_initial_guesses_witness :
  length (OptimalControlProgram.x_init example_program) = 4
  /\ length (OptimalControlProgram.u_init example_program) = 4.
Proof.
  destruct (prepare_ocp_initial_guesses example_files example_models
              example_times example_shooting example_markers example_grf
              [] [] [] 8 OdeSolver.RK4 example_program empty_program
              example_solution ltac:(vm_compute; reflexivity) eq_refl)
    as (Hx & Hu & _).
  split; assumption.
Defined.

Lemma example_main_returns :
  example_main example_files
  = Ok (example_main_program, example_solution, example_main_files).
Proof. vm_compute. reflexivity. Defined.

Lemma main_files_witness :
  is_Some (example_files !! "gait.bo")
  /\ example_main_files !! "gait_test.bo"
     = Some (example_main_program, example_solution).
Proof.
  destruct (main_files _ _ _ _ _ _ _ _ _ _ example_main_returns)
    as (Hstart & Hsaved & _).
  split; assumption.
Defined.

Lemma main_rerun_witness :
  example_main example_main_files
  = Ok (example_main_program, example_solution, example_main_files).
Proof.
  exact (main_rerun _ _ _ _ _ _ _ _ _ _ example_main_returns).
Defined.

Lemma main_program_witness :
  OptimalControlProgram.phase_time example_main_program = example_times
  /\ OptimalControlProgram.n_threads example_main_program = 8%Z.
Proof.
  destruct (main_program _ _ _ _ _ _ _ _ _ _ example_main_returns)
    as (heel & flatfoot & forefoot & swing & data & _ & _ & _ & _ & Hdata
        & _ & Htime & _ & Hthreads & _).
  injection Hdata as <-. split; assumption.
Defined.

Lemma get_phase_time_shooting_numbers_zero_iff_witness :
  Forall2 (fun time n =>
             binary64 time -> float_le float_0_0 time = true ->
             n = 0%Z <-> float_lt time float_0_01 = true)
    [float_0_3; float_0_005] [30; 0]%Z.
Proof.
  apply (get_phase_time_shooting_numbers_zero_iff builtin_float
           (example_data [float_0_3; float_0_005]) float_0_01
           [float_0_3; float_0_005] [30; 0]%Z).
  - reflexivity.
  - reflexivity.
  - vm_compute. reflexivity.
Defined.

Lemma prepare_ocp_returns_iff_witness :
  prepare_ocp_precondition example_files example_models example_markers
    example_grf.
Proof.
  apply (prepare_ocp_returns_iff example_files example_models example_times
           example_shooting example_markers example_grf [] [] [] 8
           OdeSolver.RK4).
  eexists. vm_compute. reflexivity.
Defined.

Lemma get_contact_index_returns_iff_witness :
  get_contact_index example_node_unnamed "Z" = Raise IndexError
  /\ In EmptyString (contactNames (model (nlp example_node_unnamed))).
Proof.
  assert (H : get_contact_index example_node_unnamed "Z" = Raise IndexError)
    by reflexivity.
  split; [exact H|].
  exact (proj2 (proj2 (get_contact_index_returns_iff example_node_unnamed "Z")
                  IndexError H)).
Defined.

Lemma track_sum_contact_forces_returns_iff_witness :
  returns (track_sum_contact_forces 0%Z Z.add example_node)
  /\ Forall (fun s => s <> EmptyString) flatfoot_names.
Proof.
  assert (H : returns (track_sum_contact_forces 0%Z Z.add example_node))
    by (eexists; vm_compute; reflexivity).
  split; [exact H|].
  destruct (proj1 (track_sum_contact_forces_returns_iff 0%Z Z.add example_node)
              H) as (q & qdot & tau & muscles & _ & _ & _ & _ & Hne & _).
  exact Hne.
Defined.

Lemma get_phase_time_shooting_numbers_returns_iff_witness :
  returns (get_phase_time_shooting_numbers numpy_float64
             (example_data [float_0_3; float_0_005]) float_0_01).
Proof.
  apply (get_phase_time_shooting_numbers_returns_iff numpy_float64
           (example_data [float_0_3; float_0_005]) float_0_01).
  repeat (apply List.Forall_cons; [vm_compute; reflexivity|]).
  apply List.Forall_nil.
Defined.

Lemma get_experimental_data_failures_witness :
  returns (get_experimental_data (example_data example_times)
             example_shooting example_times).
Proof.
  apply (proj1 (get_experimental_data_failures (example_data example_times)
                  example_shooting example_times)).
  repeat (apply List.Forall_cons; [eexists; reflexivity|]).
  apply List.Forall_nil.
Defined.
